(** * Paper retrieval and venue reconciliation: [tools/paper_search_tool.py]

    A shallow embedding of [PaperSearchTool] (the Semantic Scholar client,
    the Crossref client, the de-duplication key, the venue alias table and
    the orchestrating [invoke]) together with the properties of the
    retrieval contract.

    Conventions of the embedding.
    - Python [str] is [string]; [lower] and [strip] act on the ASCII range.
    - Python [int] is [Z]; [Optional[int]] is [option Z].
    - A provider response is the parsed JSON body typed after the provider's
      schema.  A key read with [d.get(k)] is an [option] (a missing key and a
      JSON null both read as [None]); a key read with [d.get(k, default)] is
      a [field], which keeps the two apart because the default only replaces
      a missing key.
    - The network is an oracle threaded through a state and error monad; the
      state also records every request that was sent.  Diagnostics printed
      on standard output are not part of the model.

    The file first gives the embedding, then the vocabulary of the
    statements and sample provider answers, then the lemmas, the retrieval
    contract claim by claim, and the contract evaluated on the samples.

    It goes on with further properties of the tool and with its callers
    and collaborators: the agent ([agents/paper_agent.py]), the search
    screen ([app.py]), the library ([tools/library_tool.py]) and the BibTeX
    export ([tools/bibtex_tool.py]).  The library file is modelled by its
    parsed content, a list of records, and by whether the file and its
    directory exist. *)

From stdpp Require Import base numbers list strings pretty gmap sets.
From Stdlib Require Import Ascii ZArith Lia.

Set Warnings "-clear-no-such-hyp".
Local Open Scope Z_scope.

(** ** Text *)

Module Text.

Definition is_upper (c : ascii) : bool :=
  let n := nat_of_ascii c in ((65 <=? n) && (n <=? 90))%nat.

Definition lower_char (c : ascii) : ascii :=
  if is_upper c then ascii_of_nat (nat_of_ascii c + 32) else c.

(** [s.lower()] *)
Fixpoint lower (s : string) : string :=
  match s with
  | EmptyString => EmptyString
  | String c r => String (lower_char c) (lower r)
  end.

(** [str.isspace] on one ASCII character: TAB, LF, VT, FF, CR, the four
    separators FS, GS, RS, US and the space. *)
Definition is_space (c : ascii) : bool :=
  let n := nat_of_ascii c in
  (((9 <=? n) && (n <=? 13)) || ((28 <=? n) && (n <=? 32)))%nat.

Fixpoint lstrip (s : string) : string :=
  match s with
  | EmptyString => EmptyString
  | String c r => if is_space c then lstrip r else s
  end.

Fixpoint rstrip (s : string) : string :=
  match s with
  | EmptyString => EmptyString
  | String c r =>
      match rstrip r with
      | EmptyString => if is_space c then EmptyString else String c EmptyString
      | r' => String c r'
      end
  end.

(** [s.strip()] *)
Definition strip (s : string) : string := rstrip (lstrip s).

(** [needle in hay] *)
Fixpoint contains (needle hay : string) : bool :=
  String.prefix needle hay
  || match hay with
     | EmptyString => false
     | String _ r => contains needle r
     end.

(** [sep.join(parts)] *)
Fixpoint join (sep : string) (parts : list string) : string :=
  match parts with
  | [] => EmptyString
  | [p] => p
  | p :: ps => p +:+ sep +:+ join sep ps
  end.

(** Truthiness of a [str]. *)
Definition nonempty (s : string) : bool :=
  match s with EmptyString => false | _ => true end.

(** [s or d] for an optional string: [None] and the empty string are
    falsy. *)
Definition truthy (o : option string) : option string :=
  match o with
  | Some s => if nonempty s then Some s else None
  | None => None
  end.

(** [str(n)] for an [int]. *)
Definition of_int (n : Z) : string := pretty n.

(** [f"{y}"] for an [Optional[int]]. *)
Definition of_opt_int (y : option Z) : string :=
  match y with
  | Some n => of_int n
  | None => "None"
  end.

End Text.

(** ** Python values *)

(** A dictionary key read with a default: the key may be missing, carry
    JSON null, or carry a value. *)
Inductive field (A : Type) : Type :=
| Missing
| Null
| Val (a : A).
Arguments Missing {A}.
Arguments Null {A}.
Arguments Val {A} a.

(** Truthiness of an [Optional[int]]. *)
Definition truthy_int (o : option Z) : option Z :=
  match o with
  | Some n => if n =? 0 then None else Some n
  | None => None
  end.

(** [xs[:n]] *)
Definition slice_to {A} (n : Z) (xs : list A) : list A :=
  if 0 <=? n then take (Z.to_nat n) xs
  else take (Z.to_nat (Z.of_nat (length xs) + n)) xs.

Definition nonempty_list {A} (xs : list A) : bool :=
  match xs with [] => false | _ => true end.

(** ** The unified paper record *)

Record paper := {
  title : string;
  authors : string;
  year : option Z;
  citations : option Z;
  venue : option string;
  venue_all : option string;
  doi : option string;
  url : option string;
  pdf : option string;
  abstract : string;
  source : string;
}.

(** ** Provider schemas *)

Record s2_author := { a_name : field string }.
Record s2_external_ids := { DOI : option string }.
Record s2_publication_venue := { pv_name : option string }.
Record s2_open_access_pdf := { oa_url : option string }.

Record s2_item := {
  s2_title : option string;
  s2_year : option Z;
  s2_venue : option string;
  s2_abstract : option string;
  s2_citationCount : field Z;
  s2_authors : field (list s2_author);
  s2_url : option string;
  s2_externalIds : option s2_external_ids;
  s2_openAccessPdf : option s2_open_access_pdf;
  s2_publicationVenue : option s2_publication_venue;
}.

Record s2_body := { s2_data : field (list s2_item) }.

(** An element of Crossref's [author] array that is a dictionary. *)
Record cr_author := { given : field string; family : field string }.

(** The [issued] object.  [date_parts] is [None] when the key is missing or
    carries null: both leave the year unset. *)
Record cr_issued := { date_parts : option (list (list (option Z))) }.

Record cr_item := {
  cr_title : option (list string);
  cr_author_list : field (list (option cr_author));
  cr_issued_obj : field cr_issued;
  cr_DOI : option string;
  cr_URL : option string;
  cr_container_title : option (list string);
}.

Record cr_message := { cr_items : field (list cr_item) }.
Record cr_body := { cr_message_obj : field cr_message }.

(** ** Effects *)

(** The exceptions the code after the [try] block can raise on a parsed
    body. *)
Inductive exn := TypeError | AttributeError | IndexError.

Inductive outcome (A : Type) : Type :=
| Ok (a : A)
| Raise (e : exn).
Arguments Ok {A} a.
Arguments Raise {A} e.

(** What [requests.get], [raise_for_status] and [res.json()] can do inside
    the [try] block: fail to connect, time out, meet a status that
    [raise_for_status] refuses, meet a body that is not JSON, or hand over
    the parsed body. *)
Inductive http_result (B : Type) : Type :=
| NetworkError
| Timeout
| BadStatus (code : Z)
| BadJson
| Json (body : B).
Arguments NetworkError {B}.
Arguments Timeout {B}.
Arguments BadStatus {B} code.
Arguments BadJson {B}.
Arguments Json {B} body.

Record s2_request := {
  s2_headers : list (string * string);
  s2_query : string;
  s2_limit : Z;
  s2_fields : string;
}.

Record cr_request := {
  cr_query : string;
  cr_rows : Z;
  cr_filter : option string;
}.

Inductive request :=
| GetS2 (r : s2_request)
| GetCrossref (r : cr_request).

Definition is_crossref (r : request) : bool :=
  match r with GetCrossref _ => true | GetS2 _ => false end.

(** ** Exceptions without the network: the [outcome] monad *)

Definition obind {A B} (o : outcome A) (k : A -> outcome B) : outcome B :=
  match o with
  | Ok a => k a
  | Raise e => Raise e
  end.

(** ** The Semantic Scholar normalizer (the loop body of
    [_search_semantic_scholar]) *)

Definition no_title : string := "(제목 없음)".
Definition no_authors : string := "(저자 정보 없음)".
Definition no_abstract : string := "(초록 없음)".
Definition doi_prefix : string := "https://doi.org/".

(** [x or d] on strings *)
Definition or_else (o : option string) (d : string) : string :=
  match Text.truthy o with
  | Some s => s
  | None => d
  end.

(** [f"https://doi.org/{doi}" if doi else None] *)
Definition doi_url_of (raw : option string) : option string :=
  match Text.truthy raw with
  | Some d => Some (doi_prefix +:+ d)
  | None => None
  end.

(** [yr < year_from] guarded by the truthiness of both operands. *)
Definition before_year_from (year_from yr : option Z) : bool :=
  match truthy_int year_from, truthy_int yr with
  | Some f, Some y => y <? f
  | _, _ => false
  end.

(** [yr > year_to] guarded by the truthiness of both operands. *)
Definition after_year_to (year_to yr : option Z) : bool :=
  match truthy_int year_to, truthy_int yr with
  | Some t, Some y => t <? y
  | _, _ => false
  end.

(** [min_citations is not None and item.get("citationCount", 0) <
    int(min_citations)].  Comparing [None] with an [int] raises. *)
Definition below_min_citations (min_citations : option Z) (it : s2_item)
  : outcome bool :=
  match min_citations with
  | None => Ok false
  | Some m =>
      match s2_citationCount it with
      | Missing => Ok (0 <? m)
      | Null => Raise TypeError
      | Val c => Ok (c <? m)
      end
  end.

(** The strings handed to [", ".join]; a null name is not a [str]. *)
Fixpoint s2_author_names (l : list s2_author) : outcome (list string) :=
  match l with
  | [] => Ok []
  | a :: r =>
      match a_name a with
      | Missing => obind (s2_author_names r) (fun ns => Ok (EmptyString :: ns))
      | Null => Raise TypeError
      | Val s => obind (s2_author_names r) (fun ns => Ok (s :: ns))
      end
  end.

Definition s2_authors_text (it : s2_item) : outcome string :=
  match s2_authors it with
  | Missing => Ok no_authors
  | Null => Raise TypeError
  | Val l =>
      obind (s2_author_names l) (fun ns =>
        Ok (or_else (Some (Text.join ", " ns)) no_authors))
  end.

(** [s.get(k)] on [(d or {})] *)
Definition sub_get {D A} (d : option D) (get : D -> option A) : option A :=
  match d with
  | Some x => get x
  | None => None
  end.

Definition s2_normalize (it : s2_item) : outcome paper :=
  obind (s2_authors_text it) (fun authors_text =>
    let doi_raw := sub_get (s2_externalIds it) DOI in
    let venue_simple := s2_venue it in
    let venue_full := sub_get (s2_publicationVenue it) pv_name in
    Ok {| title := or_else (s2_title it) no_title;
          authors := authors_text;
          year := s2_year it;
          citations :=
            match s2_citationCount it with
            | Val c => Some c
            | _ => None
            end;
          venue := venue_simple;
          venue_all :=
            Some (Text.join " | "
                    (omap Text.truthy [venue_simple; venue_full]));
          doi := doi_url_of doi_raw;
          url := s2_url it;
          pdf := sub_get (s2_openAccessPdf it) oa_url;
          abstract := or_else (s2_abstract it) no_abstract;
          source := "Semantic Scholar" |}).

(** One iteration: [None] is [continue]. *)
Definition s2_step (year_from year_to min_citations : option Z)
    (it : s2_item) : outcome (option paper) :=
  let yr := s2_year it in
  if before_year_from year_from yr then Ok None
  else if after_year_to year_to yr then Ok None
  else
    obind (below_min_citations min_citations it) (fun skip =>
      if skip then Ok None
      else obind (s2_normalize it) (fun p => Ok (Some p))).

Fixpoint s2_collect (year_from year_to min_citations : option Z)
    (items : list s2_item) : outcome (list paper) :=
  match items with
  | [] => Ok []
  | it :: rest =>
      obind (s2_step year_from year_to min_citations it) (fun o =>
        obind (s2_collect year_from year_to min_citations rest) (fun out =>
          Ok (option_list o ++ out)))
  end.

(** [for item in data.get("data", [])] *)
Definition s2_parse (year_from year_to min_citations : option Z)
    (data : s2_body) : outcome (list paper) :=
  match s2_data data with
  | Missing => Ok []
  | Null => Raise TypeError
  | Val items => s2_collect year_from year_to min_citations items
  end.

(** ** The Crossref normalizer (the loop body of [_search_crossref]) *)

(** [(xs or [d])[0]] *)
Definition first_or (xs : option (list string)) (d : string) : string :=
  match xs with
  | Some (x :: _) => x
  | _ => d
  end.

(** A dictionary value inside an f-string: null prints as [None]. *)
Definition fmt_field (f : field string) : string :=
  match f with
  | Missing => EmptyString
  | Null => "None"
  | Val s => s
  end.

Definition cr_author_name (a : cr_author) : string :=
  Text.strip (fmt_field (given a) +:+ " " +:+ fmt_field (family a)).

Definition cr_authors_text (it : cr_item) : outcome string :=
  match cr_author_list it with
  | Missing => Ok no_authors
  | Null => Raise TypeError
  | Val l =>
      Ok (or_else
            (Some (Text.join ", " (cr_author_name <$> omap id l)))
            no_authors)
  end.

(** [it["issued"]["date-parts"][0][0]] under its three guards. *)
Definition cr_year (it : cr_item) : outcome (option Z) :=
  match cr_issued_obj it with
  | Missing => Ok None
  | Null => Raise TypeError
  | Val issued =>
      match date_parts issued with
      | None | Some [] => Ok None
      | Some ([] :: _) => Raise IndexError
      | Some ((y :: _) :: _) => Ok y
      end
  end.

Definition cr_normalize (it : cr_item) : outcome paper :=
  let title_text := first_or (cr_title it) no_title in
  obind (cr_authors_text it) (fun authors_text =>
    obind (cr_year it) (fun yr =>
      let doi_link := doi_url_of (cr_DOI it) in
      let url_final :=
        match doi_link with
        | Some d => Some d
        | None => cr_URL it
        end in
      let venue_title :=
        Text.truthy (Some (first_or (cr_container_title it) EmptyString)) in
      Ok {| title := title_text;
            authors := authors_text;
            year := yr;
            citations := None;
            venue := venue_title;
            venue_all := venue_title;
            doi := doi_link;
            url := url_final;
            pdf := None;
            abstract := no_abstract;
            source := "Crossref" |})).

Fixpoint cr_collect (items : list cr_item) : outcome (list paper) :=
  match items with
  | [] => Ok []
  | it :: rest =>
      obind (cr_normalize it) (fun p =>
        obind (cr_collect rest) (fun out => Ok (p :: out)))
  end.

(** [for it in data.get("message", {}).get("items", [])] *)
Definition cr_parse (data : cr_body) : outcome (list paper) :=
  match cr_message_obj data with
  | Missing => Ok []
  | Null => Raise AttributeError
  | Val m =>
      match cr_items m with
      | Missing => Ok []
      | Null => Raise TypeError
      | Val items => cr_collect items
      end
  end.

(** [",".join(filters)] when at least one bound is truthy. *)
Definition cr_filter_of (year_from year_to : option Z) : option string :=
  let filters :=
    match truthy_int year_from with
    | Some f => ["from-pub-date:" +:+ Text.of_int f]
    | None => []
    end ++
    match truthy_int year_to with
    | Some t => ["until-pub-date:" +:+ Text.of_int t]
    | None => []
    end in
  if nonempty_list filters then Some (Text.join "," filters) else None.

(** ** Helpers of [PaperSearchTool] *)

(** [r.get("venue_all") or r.get("venue") or ""] *)
Definition venue_text (r : paper) : string :=
  match Text.truthy (venue_all r) with
  | Some s => s
  | None => or_else (venue r) EmptyString
  end.

Definition _dedupe_key (r : paper) : string :=
  let d := Text.lower (or_else (doi r) EmptyString) in
  if Text.nonempty d then "doi:" +:+ d
  else "title:" +:+ Text.lower (title r) +:+ "|year:" +:+ Text.of_opt_int (year r).

(** The alias table, in the order the dictionary is written. *)
Definition aliases : list (string * list string) :=
  [ ("neurips",
      ["NeurIPS"; "NIPS"; "Neural Information Processing Systems";
       "Advances in Neural Information Processing Systems"]);
    ("icml", ["ICML"; "International Conference on Machine Learning"]);
    ("iclr", ["ICLR"; "International Conference on Learning Representations"]);
    ("cvpr", ["CVPR"; "Computer Vision and Pattern Recognition"]);
    ("iccv", ["ICCV"; "International Conference on Computer Vision"]);
    ("eccv", ["ECCV"; "European Conference on Computer Vision"]);
    ("aaai", ["AAAI"; "Association for the Advancement of Artificial Intelligence"]);
    ("acl", ["ACL"; "Association for Computational Linguistics"]);
    ("emnlp", ["EMNLP"; "Empirical Methods in Natural Language Processing"]);
    ("kdd", ["KDD"; "SIGKDD"; "Knowledge Discovery and Data Mining"]);
    ("sigir", ["SIGIR"; "Information Retrieval"]);
    ("uai", ["UAI"; "Uncertainty in Artificial Intelligence"]);
    ("jmlr", ["JMLR"; "Journal of Machine Learning Research"]);
    ("tmlr", ["TMLR"; "Transactions on Machine Learning Research"]);
    ("tpami", ["TPAMI"; "Transactions on Pattern Analysis and Machine Intelligence"]);
    ("tacl", ["TACL"; "Transactions of the Association for Computational Linguistics"]);
    ("nature", ["Nature"]);
    ("science", ["Science"]);
    ("cell", ["Cell"]);
    ("pnas", ["PNAS"; "Proceedings of the National Academy of Sciences"]) ].

(** [for k, vals in aliases.items(): if t == k: return vals] *)
Fixpoint alias_lookup (t : string) (table : list (string * list string))
  : option (list string) :=
  match table with
  | [] => None
  | (k, vals) :: rest => if String.eqb t k then Some vals else alias_lookup t rest
  end.

Definition _venue_aliases (v : option string) : list string :=
  let t := Text.lower (Text.strip (or_else v EmptyString)) in
  match alias_lookup t aliases with
  | Some vals => vals
  | None =>
      match Text.truthy v with
      | Some s => [s]
      | None => []
      end
  end.

(** Lines 52-56 of [invoke]: append the records of one alias response whose
    key has not been seen. *)
Fixpoint merge_more (more : list paper) (results : list paper)
    (seen : gset string) : list paper * gset string :=
  match more with
  | [] => (results, seen)
  | r :: rest =>
      let k := _dedupe_key r in
      if bool_decide (k ∈ seen) then merge_more rest results seen
      else merge_more rest (results ++ [r]) (seen ∪ {[k]})
  end.

(** Lines 59-65 of [invoke]: the containment filter and its guard. *)
Definition venue_matches (v : string) (r : paper) : bool :=
  Text.contains v (Text.lower (venue_text r)).

Definition venue_filter (venue_str : string) (results : list paper)
  : list paper :=
  let v := Text.lower (Text.strip venue_str) in
  let filtered := List.filter (venue_matches v) results in
  if nonempty_list filtered then filtered else results.

(** [venue and venue.strip()] *)
Definition venue_given (venue_arg : option string) : option string :=
  match Text.truthy venue_arg with
  | Some s => if Text.nonempty (Text.strip s) then Some s else None
  | None => None
  end.

(** ** The clients and the orchestrator *)

Section Retrieval.

(** The outside world: the provider answers depend on the request and on
    the state of the world, and change it. *)
Context {World : Type}.
Variable S2_API_KEY : option string.
Variable s2_get : s2_request -> World -> http_result s2_body * World.
Variable cr_get : cr_request -> World -> http_result cr_body * World.

Record state := { world : World; sent : list request }.

Definition M (A : Type) : Type := state -> outcome A * state.

Definition ret {A} (a : A) : M A := fun st => (Ok a, st).

Definition bind {A B} (m : M A) (k : A -> M B) : M B :=
  fun st =>
    match m st with
    | (Ok a, st') => k a st'
    | (Raise e, st') => (Raise e, st')
    end.

Definition lift {A} (o : outcome A) : M A := fun st => (o, st).

Notation "x <- c ;; k" := (bind c (fun x => k))
  (at level 100, c at next level, right associativity).

Definition http_s2 (r : s2_request) : M (http_result s2_body) :=
  fun st =>
    let (res, w) := s2_get r (world st) in
    (Ok res, {| world := w; sent := sent st ++ [GetS2 r] |}).

Definition http_crossref (r : cr_request) : M (http_result cr_body) :=
  fun st =>
    let (res, w) := cr_get r (world st) in
    (Ok res, {| world := w; sent := sent st ++ [GetCrossref r] |}).

Definition s2_request_of (query : string) (limit : Z) : s2_request :=
  {| s2_headers :=
       match Text.truthy S2_API_KEY with
       | Some key => [("x-api-key", key)]
       | None => []
       end;
     s2_query := query;
     s2_limit := Z.max 1 limit;
     s2_fields :=
       "title,year,venue,abstract,citationCount,authors,url,externalIds,openAccessPdf,publicationVenue" |}.

Definition _search_semantic_scholar (query : string)
    (year_from year_to min_citations : option Z) (limit : Z)
  : M (list paper) :=
  res <- http_s2 (s2_request_of query limit) ;;
  match res with
  | Json data => lift (s2_parse year_from year_to min_citations data)
  | _ => ret []
  end.

Definition cr_request_of (query : string) (year_from year_to : option Z)
    (limit : Z) : cr_request :=
  {| cr_query := query;
     cr_rows := Z.max 1 limit;
     cr_filter := cr_filter_of year_from year_to |}.

Definition _search_crossref (query : string) (year_from year_to : option Z)
    (limit : Z) : M (list paper) :=
  res <- http_crossref (cr_request_of query year_from year_to limit) ;;
  match res with
  | Json data => lift (cr_parse data)
  | _ => ret []
  end.

(** Lines 43-56 of [invoke]: one primary call per alias, merged in. *)
Fixpoint alias_loop (query : string)
    (year_from year_to min_citations : option Z) (max_results : Z)
    (als : list string) (results : list paper) (seen : gset string)
  : M (list paper * gset string) :=
  match als with
  | [] => ret (results, seen)
  | alias :: rest =>
      more <- _search_semantic_scholar (query +:+ " " +:+ alias)
                year_from year_to min_citations max_results ;;
      let (results', seen') := merge_more more results seen in
      alias_loop query year_from year_to min_citations max_results
        rest results' seen'
  end.

(** Lines 28-65 of [invoke]: the working list before the fallback. *)
Definition primary (query : string)
    (year_from year_to min_citations : option Z)
    (venue_arg : option string) (max_results : Z) : M (list paper) :=
  base <- _search_semantic_scholar query year_from year_to min_citations
            max_results ;;
  let results := base in
  let seen : gset string := list_to_set (_dedupe_key <$> results) in
  match venue_given venue_arg with
  | Some venue_str =>
      merged <- alias_loop query year_from year_to min_citations
                  max_results (_venue_aliases (Some venue_str))
                  results seen ;;
      ret (venue_filter venue_str (fst merged))
  | None => ret results
  end.

(** Lines 28-74 of [invoke]: the list that is truncated at the end. *)
Definition untruncated (query : string)
    (year_from year_to min_citations : option Z)
    (venue_arg : option string) (max_results : Z) : M (list paper) :=
  results <- primary query year_from year_to min_citations venue_arg
               max_results ;;
  if nonempty_list results then ret results
  else _search_crossref query year_from year_to max_results.

Definition invoke (query : string)
    (year_from year_to min_citations : option Z)
    (venue_arg : option string) (max_results : Z) : M (list paper) :=
  results <- untruncated query year_from year_to min_citations venue_arg
               max_results ;;
  ret (if nonempty_list results then slice_to max_results results else []).

End Retrieval.

Arguments state World : clear implicits.
Arguments M World A : clear implicits.

(** * Vocabulary of the statements *)

(** ** Text *)

Fixpoint all_chars (P : ascii -> bool) (s : string) : bool :=
  match s with
  | EmptyString => true
  | String c r => P c && all_chars P r
  end.

(** A whitespace-only string (the empty string included). *)
Definition blank (s : string) : bool := all_chars Text.is_space s.

(** The characters [str(n)] is made of. *)
Definition is_num_char (c : ascii) : bool :=
  let n := nat_of_ascii c in
  ((n =? 45) || ((48 <=? n) && (n <=? 57)))%nat.

Definition is_bar (c : ascii) : bool := (nat_of_ascii c =? 124)%nat.

Definition has_bar (s : string) : bool :=
  negb (all_chars (fun c => negb (is_bar c)) s).

(** What follows the last ['|'] of a string. *)
Fixpoint after_last_bar (s : string) : string :=
  match s with
  | EmptyString => EmptyString
  | String c r =>
      if has_bar r then after_last_bar r
      else if is_bar c then r else s
  end.

(** ** Records *)

(** DOI absent or empty. *)
Definition no_doi (r : paper) : Prop :=
  doi r = None \/ doi r = Some EmptyString.

(** The key set [invoke] seeds from a list of records. *)
Definition keys_of (l : list paper) : gset string :=
  list_to_set (_dedupe_key <$> l).

(** The venue argument is absent, empty or whitespace-only. *)
Definition venue_blank (venue_arg : option string) : Prop :=
  venue_arg = None \/ exists s, venue_arg = Some s /\ blank s = true.

(** The venue text of [r] contains the normalized venue name or one of the
    aliases of [v] in lowercase: the filter [invoke] does not apply. *)
Definition matches_name_or_alias (v : string) (r : paper) : bool :=
  let text := Text.lower (venue_text r) in
  Text.contains (Text.lower (Text.strip v)) text
  || existsb (fun a => Text.contains (Text.lower a) text)
       (_venue_aliases (Some v)).

(** The output of the primary client's loop on [pre ++ it :: post] when the
    item in the middle contributes [mine]. *)
Definition with_neighbours (year_from year_to min_citations : option Z)
    (pre post : list s2_item) (mine : list paper) : outcome (list paper) :=
  obind (s2_collect year_from year_to min_citations pre) (fun a =>
    obind (s2_collect year_from year_to min_citations post) (fun b =>
      Ok (a ++ mine ++ b))).

(** ** Provider answers *)

(** What the [try] block leaves of a response: the parsed body, or nothing
    after any failure. *)
Definition body_of {B} (res : http_result B) : option B :=
  match res with
  | Json b => Some b
  | _ => None
  end.

(** A transport failure: network error, timeout, bad status or a body that
    is not JSON. *)
Definition failed {B} (res : http_result B) : Prop :=
  match res with
  | Json _ => False
  | _ => True
  end.

Definition s2_empty : s2_body := {| s2_data := Val [] |}.

Definition cr_empty : cr_body :=
  {| cr_message_obj := Val {| cr_items := Val [] |} |}.

Definition as_empty {B} (empty : B) (res : http_result B) : http_result B :=
  match res with
  | Json b => Json b
  | _ => Json empty
  end.

(** The provider [get] with every transport failure replaced by a successful
    answer that lists no record. *)
Definition fail_soft {Req B W} (empty : B)
    (get : Req -> W -> http_result B * W) : Req -> W -> http_result B * W :=
  fun req w => (as_empty empty (get req w).1, (get req w).2).

(** How many Crossref requests a log holds. *)
Definition crossref_calls (log : list request) : nat :=
  length (List.filter is_crossref log).

Section Vocabulary.

Context {World : Type}.
Variable S2_API_KEY : option string.
Variable s2_get : s2_request -> World -> http_result s2_body * World.
Variable cr_get : cr_request -> World -> http_result cr_body * World.

(** The state after one request to a provider. *)
Definition after_s2 (st : state World) (req : s2_request) : state World :=
  {| world := (s2_get req (world st)).2; sent := sent st ++ [GetS2 req] |}.

Definition after_cr (st : state World) (req : cr_request) : state World :=
  {| world := (cr_get req (world st)).2;
     sent := sent st ++ [GetCrossref req] |}.

(** The requests of the alias calls, in alias order. *)
Definition alias_requests (query : string) (max_results : Z)
    (als : list string) : list request :=
  (fun alias =>
     GetS2 (s2_request_of S2_API_KEY (query +:+ " " +:+ alias) max_results))
    <$> als.

(** The primary requests of one [invoke]: the base request, then one per
    alias when a venue is given. *)
Definition primary_requests (query : string) (venue_arg : option string)
    (max_results : Z) : list request :=
  GetS2 (s2_request_of S2_API_KEY query max_results)
  :: match venue_given venue_arg with
     | Some v => alias_requests query max_results (_venue_aliases (Some v))
     | None => []
     end.

(** The responses of the alias calls, one list per alias, in alias order. *)
Fixpoint alias_responses (query : string)
    (year_from year_to min_citations : option Z) (max_results : Z)
    (als : list string) : M World (list (list paper)) :=
  match als with
  | [] => ret []
  | alias :: rest =>
      bind
        (_search_semantic_scholar S2_API_KEY s2_get (query +:+ " " +:+ alias)
           year_from year_to min_citations max_results)
        (fun more =>
           bind
             (alias_responses query year_from year_to min_citations
                max_results rest)
             (fun mores => ret (more :: mores)))
  end.

End Vocabulary.


(** ** Sample provider data *)

Module Sample.

(** A Semantic Scholar item with the given title, year, citation count, venue
    and DOI, and nothing else. *)
Definition item (t : string) (y : option Z) (c : field Z)
    (v : option string) (d : option string) : s2_item :=
  {| s2_title := Some t;
     s2_year := y;
     s2_venue := v;
     s2_abstract := None;
     s2_citationCount := c;
     s2_authors := Missing;
     s2_url := None;
     s2_externalIds := Some {| DOI := d |};
     s2_openAccessPdf := None;
     s2_publicationVenue := None |}.

(** The record [item t y (Val c) (Some v) d] is normalized to, for a
    non-empty title and venue. *)
Definition record (t : string) (y : option Z) (c : option Z) (v : string)
    (d : option string) : paper :=
  {| title := t;
     authors := no_authors;
     year := y;
     citations := c;
     venue := Some v;
     venue_all := Some v;
     doi := d;
     url := None;
     pdf := None;
     abstract := no_abstract;
     source := "Semantic Scholar" |}.

(** A Crossref item that carries only a title and a DOI. *)
Definition cr_item_of (t : string) (d : option string) : cr_item :=
  {| cr_title := Some [t];
     cr_author_list := Missing;
     cr_issued_obj := Missing;
     cr_DOI := d;
     cr_URL := None;
     cr_container_title := None |}.

Definition cr_record (t : string) (d : option string) : paper :=
  {| title := t;
     authors := no_authors;
     year := None;
     citations := None;
     venue := None;
     venue_all := None;
     doi := d;
     url := d;
     pdf := None;
     abstract := no_abstract;
     source := "Crossref" |}.

(** A stateless provider: the answer depends on the query only. *)
Definition s2_by_query (answer : string -> http_result s2_body)
  : s2_request -> unit -> http_result s2_body * unit :=
  fun req w => (answer (s2_query req), w).

Definition s2_always (items : list s2_item)
  : s2_request -> unit -> http_result s2_body * unit :=
  s2_by_query (fun _ => Json {| s2_data := Val items |}).

(** The base query ["q"] is answered with [base]; the query extended with
    [alias] is answered with [more]; every other request times out. *)
Definition s2_base_and_alias (base : list s2_item) (alias : string)
    (more : list s2_item)
  : s2_request -> unit -> http_result s2_body * unit :=
  s2_by_query (fun q =>
    if String.eqb q "q" then Json {| s2_data := Val base |}
    else if String.eqb q ("q " +:+ alias) then Json {| s2_data := Val more |}
    else Timeout).

Definition s2_down : s2_request -> unit -> http_result s2_body * unit :=
  s2_by_query (fun _ => NetworkError).

Definition cr_always (res : http_result cr_body)
  : cr_request -> unit -> http_result cr_body * unit :=
  fun _ w => (res, w).

Definition cr_items_body (items : list cr_item) : cr_body :=
  {| cr_message_obj := Val {| cr_items := Val items |} |}.

Definition cr_none : cr_request -> unit -> http_result cr_body * unit :=
  cr_always (Json (cr_items_body [])).

Definition start : state unit := {| world := tt; sent := [] |}.

End Sample.

(** * The callers and the collaborators of the search tool *)

(** ** [agents/paper_agent.py] *)

Module PaperAgent.
Section Agent.

Context {World : Type}.
Variable S2_API_KEY : option string.
Variable s2_get : s2_request -> World -> http_result s2_body * World.
Variable cr_get : cr_request -> World -> http_result cr_body * World.

(** [PaperAgent.run]: the tool's [invoke] with the instruction as query. *)
Definition run (instruction : string)
    (year_from year_to min_citations : option Z)
    (venue_arg : option string) (max_results : Z) : M World (list paper) :=
  invoke S2_API_KEY s2_get cr_get instruction year_from year_to min_citations
    venue_arg max_results.

End Agent.
End PaperAgent.

(** ** The search screen of [app.py] *)

Module App.

Definition _normalize_venue (v : string) : string :=
  Text.lower (Text.strip (or_else (Some v) EmptyString)).

(** The candidate table of [_alias_candidates], in the order the dictionary
    is written. *)
Definition candidates : list (string * list string) :=
  [ ("neurips",
      ["neurips"; "nips"; "neural information processing systems";
       "advances in neural information processing systems"]);
    ("icml", ["icml"; "international conference on machine learning"]);
    ("iclr",
      ["iclr"; "international conference on learning representations";
       "learning representations"]);
    ("aaai",
      ["aaai"; "association for the advancement of artificial intelligence"]);
    ("kdd", ["kdd"; "sigkdd"; "knowledge discovery and data mining"]);
    ("uai", ["uai"; "uncertainty in artificial intelligence"]);
    ("cvpr", ["cvpr"; "computer vision and pattern recognition"]);
    ("iccv", ["iccv"; "international conference on computer vision"]);
    ("eccv", ["eccv"; "european conference on computer vision"]);
    ("wacv", ["wacv"]);
    ("acl", ["acl"; "association for computational linguistics"]);
    ("emnlp", ["emnlp"; "empirical methods in natural language processing"]);
    ("naacl", ["naacl"]);
    ("coling", ["coling"; "computational linguistics"]);
    ("sigir", ["sigir"; "information retrieval"]);
    ("www",
      ["www"; "the web conference";
       "international world wide web conference"]);
    ("jmlr", ["jmlr"; "journal of machine learning research"]);
    ("tmlr", ["tmlr"; "transactions on machine learning research"]);
    ("tpami",
      ["tpami"; "transactions on pattern analysis and machine intelligence"]);
    ("tacl",
      ["tacl";
       "transactions of the association for computational linguistics"]);
    ("nature", ["nature"]);
    ("science", ["science"]);
    ("cell", ["cell"]);
    ("pnas", ["pnas"; "proceedings of the national academy of sciences"]);
    ("neurips workshop", ["neurips workshop"]) ].

Definition _alias_candidates (v : string) : list string :=
  let v := _normalize_venue v in
  match alias_lookup v candidates with
  | Some vals => vals
  | None => if Text.nonempty v then [v] else []
  end.

(** [any(c and c in venue_text for c in candidates)] *)
Definition _matches_any_venue (r : paper) (cands : list string) : bool :=
  let text := Text.lower (venue_text r) in
  existsb (fun c => Text.nonempty c && Text.contains c text) cands.

(** Lines 180-185: the second filter, on the alias candidates. *)
Definition alias_filter (venue_str : string) (results : list paper)
  : list paper :=
  if Text.nonempty venue_str && nonempty_list results then
    let cand := _alias_candidates venue_str in
    let filtered :=
      if nonempty_list cand
      then List.filter (fun r => _matches_any_venue r cand) results
      else results in
    if nonempty_list filtered then filtered else results
  else results.

Section Screen.

Context {World : Type}.
Variable S2_API_KEY : option string.
Variable s2_get : s2_request -> World -> http_result s2_body * World.
Variable cr_get : cr_request -> World -> http_result cr_body * World.

(** Lines 168-200, the body of [if submitted and query]: the list stored in
    [st.session_state.results], and whether the warning was shown.  The form
    always supplies the three numbers and a venue string. *)
Definition search (query : string) (year_from year_to min_citations : Z)
    (venue_str : string) : M World (list paper * bool) :=
  bind
    (PaperAgent.run S2_API_KEY s2_get cr_get query (Some year_from)
       (Some year_to) (Some min_citations) (Some venue_str) 8)
    (fun raw_results =>
       let results := alias_filter venue_str raw_results in
       if Text.nonempty venue_str
          && Text.nonempty (_normalize_venue venue_str)
          && (length results =? 0)%nat
       then
         bind
           (PaperAgent.run S2_API_KEY s2_get cr_get query (Some year_from)
              (Some year_to) (Some min_citations) None 8)
           (fun again => ret (again, true))
       else ret (results, false)).

(** The whole handler: nothing happens unless the form was submitted with a
    query. *)
Definition on_submit (submitted : bool) (query : string)
    (year_from year_to min_citations : Z) (venue_str : string)
  : M World (option (list paper * bool)) :=
  if submitted && Text.nonempty query then
    bind (search query year_from year_to min_citations venue_str)
      (fun shown => ret (Some shown))
  else ret None.

End Screen.

End App.

(** ** [tools/library_tool.py] *)

Module Library.

(** The library file [data/library.json]: its directory may be missing, the
    file may be missing, or it holds a list of records. *)
Inductive fs :=
| NoDir
| NoFile
| File (content : list paper).

Inductive os_error := FileNotFoundError.

Definition already_saved : string := "이미 저장된 항목입니다.".
Definition saved : string := "저장 완료! (data/library.json)".

Definition content_of (s : fs) : list paper :=
  match s with
  | File c => c
  | _ => []
  end.

(** [os.makedirs(..., exist_ok=True)], then an empty list is written unless
    the file exists. *)
Definition _ensure_file (s : fs) : fs :=
  match s with
  | File c => File c
  | _ => File []
  end.

Definition load_library (s : fs) : list paper * fs :=
  let s' := _ensure_file s in
  (content_of s', s').

(** [(entry.get("title","").strip(), entry.get("year"))] *)
Definition entry_key (e : paper) : string * option Z :=
  (Text.strip (title e), year e).

Definition add_to_library (entry : paper) (s : fs) : (bool * string) * fs :=
  let s1 := _ensure_file s in
  let (lib, s2) := load_library s1 in
  let key := entry_key entry in
  let keys : gset (string * option Z) := list_to_set (entry_key <$> lib) in
  if bool_decide (key ∈ keys) then ((false, already_saved), s2)
  else ((true, saved), File (lib ++ [entry])).

(** [open(LIB_PATH, "w")] without [makedirs]: a missing directory raises. *)
Definition clear_library (s : fs) : (os_error + unit) * fs :=
  match s with
  | NoDir => (inl FileNotFoundError, NoDir)
  | _ => (inr tt, File [])
  end.

End Library.

(** * BibTeX export: [tools/bibtex_tool.py] *)

Module Bibtex.

(** One character of [[a-zA-Z0-9]]. *)
Definition is_alnum (c : ascii) : bool :=
  let n := nat_of_ascii c in
  (((48 <=? n) && (n <=? 57)) || ((65 <=? n) && (n <=? 90))
   || ((97 <=? n) && (n <=? 122)))%nat.

(** [re.sub(r"[^a-zA-Z0-9]+", "", text)] *)
Fixpoint keep_alnum (s : string) : string :=
  match s with
  | EmptyString => EmptyString
  | String c r =>
      if is_alnum c then String c (keep_alnum r) else keep_alnum r
  end.

(** [s[:n]] for a natural [n]. *)
Fixpoint first_chars (n : nat) (s : string) : string :=
  match n, s with
  | S k, String c r => String c (first_chars k r)
  | _, _ => EmptyString
  end.

Definition _slugify_key (text : string) : string :=
  if Text.nonempty text then
    let key := keep_alnum text in
    let key := Text.lower key in
    or_else (Some (first_chars 30 key)) "paper"
  else "paper".

(** The pieces of [s] between the characters that satisfy [sep], the empty
    ones included. *)
Fixpoint split_where (sep : ascii -> bool) (s : string) : list string :=
  match s with
  | EmptyString => [EmptyString]
  | String c r =>
      if sep c then EmptyString :: split_where sep r
      else match split_where sep r with
           | part :: parts => String c part :: parts
           | [] => [String c EmptyString]
           end
  end.

(** [s.split(sep)] for a separator of one character. *)
Definition split_on (sep : ascii) (s : string) : list string :=
  split_where (fun c => Ascii.eqb c sep) s.

(** [s.split()]: the words between runs of whitespace. *)
Definition split_words (s : string) : list string :=
  List.filter Text.nonempty (split_where Text.is_space s).

Definition _split_authors (authors_str : string) : list string :=
  if Text.nonempty authors_str then
    Text.strip
      <$> List.filter (fun a => Text.nonempty (Text.strip a))
            (split_on "," authors_str)
  else [].

(** [s.replace(old, "")] for a non-empty [old]: the occurrences are removed
    from left to right; [skip] counts the characters of an occurrence that
    are still to be dropped. *)
Fixpoint remove_from (old : string) (skip : nat) (s : string) : string :=
  match s with
  | EmptyString => EmptyString
  | String c r =>
      match skip with
      | S k => remove_from old k r
      | O =>
          if String.prefix old s
          then remove_from old (String.length old - 1) r
          else String c (remove_from old O r)
      end
  end.

Definition remove (old s : string) : string := remove_from old 0 s.

(** [s.endswith(",")] *)
Fixpoint ends_with_comma (s : string) : bool :=
  match s with
  | EmptyString => false
  | String c r =>
      match r with
      | EmptyString => Ascii.eqb c ","
      | _ => ends_with_comma r
      end
  end.

(** [s[:-1]] *)
Fixpoint drop_last (s : string) : string :=
  match s with
  | EmptyString => EmptyString
  | String c r =>
      match r with
      | EmptyString => EmptyString
      | _ => String c (drop_last r)
      end
  end.

Definition newline : string := String (ascii_of_nat 10) EmptyString.

Definition conference_keywords : list string :=
  [ "conference"; "conf.";
    "neurips"; "nips"; "icml"; "iclr"; "aaai";
    "cvpr"; "iccv"; "eccv"; "kdd";
    "sigir"; "uai"; "emnlp"; "acl"; "naacl"; "coling" ].

(** The key of an entry: [key_base] and [bib_key] of [make_bibtex_entry]. *)
Definition bib_key (title : string) (year index : option Z) : string :=
  let key_base := _slugify_key title in
  let key_base :=
    match truthy_int year with
    | Some y => key_base +:+ Text.of_int y
    | None => key_base
    end in
  match index with
  | Some i => key_base +:+ "_" +:+ Text.of_int i
  | None => key_base
  end.

(** [if len(lines) > 1 and lines[-1].endswith(","): lines[-1] =
    lines[-1][:-1]] *)
Definition trim_last_comma (lines : list string) : list string :=
  match last lines with
  | Some l =>
      if (1 <? length lines)%nat && ends_with_comma l
      then <[pred (length lines) := drop_last l]> lines
      else lines
  | None => lines
  end.

Definition make_bibtex_entry (p : paper) (index : option Z) : string :=
  let title := or_else (Some (title p)) no_title in
  let authors_list := _split_authors (authors p) in
  let authors_bib :=
    if nonempty_list authors_list then Text.join " and " authors_list
    else EmptyString in
  let raw_doi :=
    match Text.truthy (doi p) with
    | Some doi_url =>
        Some (Text.strip
                (remove "doi:"
                   (remove "http://doi.org/"
                      (remove "https://doi.org/" doi_url))))
    | None => None
    end in
  let venue_l := Text.lower (or_else (venue p) EmptyString) in
  let conference :=
    existsb (fun kw => Text.contains kw venue_l) conference_keywords in
  let entry_type := if conference then "inproceedings" else "article" in
  let venue_field_name := if conference then "booktitle" else "journal" in
  let lines :=
    ["@" +:+ entry_type +:+ "{" +:+ bib_key title (year p) index +:+ ","]
    ++ (if Text.nonempty title then ["  title = {" +:+ title +:+ "},"]
        else [])
    ++ (if Text.nonempty authors_bib
        then ["  author = {" +:+ authors_bib +:+ "},"]
        else [])
    ++ match truthy_int (year p) with
       | Some y => ["  year = {" +:+ Text.of_int y +:+ "},"]
       | None => []
       end
    ++ match Text.truthy (venue p) with
       | Some v => ["  " +:+ venue_field_name +:+ " = {" +:+ v +:+ "},"]
       | None => []
       end
    ++ match Text.truthy raw_doi with
       | Some d => ["  doi = {" +:+ d +:+ "},"]
       | None => []
       end
    ++ match Text.truthy (url p) with
       | Some u => ["  url = {" +:+ u +:+ "},"]
       | None => []
       end in
  Text.join newline (trim_last_comma lines ++ ["}"]).

(** The entries of [export_bibtex_string], numbered from 1. *)
Definition entries (papers : list paper) : list string :=
  imap (fun i p => make_bibtex_entry p (Some (Z.of_nat i + 1))) papers.

Definition export_bibtex_string (papers : list paper) : string :=
  Text.join (newline +:+ newline) (entries papers).

End Bibtex.

(** ** The BibTeX button of [app.py] *)

Module AppBibtex.

(** [if lines[-1].endswith(","): lines[-1] = lines[-1][:-1]] *)
Definition trim_comma (lines : list string) : list string :=
  match last lines with
  | Some l =>
      if Bibtex.ends_with_comma l
      then <[pred (length lines) := Bibtex.drop_last l]> lines
      else lines
  | None => lines
  end.

(** [authors_parts[0].split()[-1].lower() if authors_parts else 'paper'] *)
Definition key_stem (authors_parts : list string) : outcome string :=
  match authors_parts with
  | first :: _ =>
      match last (Bibtex.split_words first) with
      | Some w => Ok (Text.lower w)
      | None => Raise IndexError
      end
  | [] => Ok "paper"
  end.

Definition _make_bibtex_entry (p : paper) : outcome string :=
  let title := Bibtex.remove "}" (Bibtex.remove "{" (title p)) in
  let authors_str := authors p in
  let year :=
    match truthy_int (year p) with
    | Some y => Text.of_int y
    | None => "2024"
    end in
  let venue := or_else (venue p) "arXiv.org" in
  let authors_parts :=
    Text.strip
      <$> List.filter (fun a => Text.nonempty (Text.strip a))
            (Bibtex.split_on "," authors_str) in
  let authors_bib :=
    if nonempty_list authors_parts then Text.join " and " authors_parts
    else "Unknown" in
  obind (key_stem authors_parts)
    (fun stem =>
       let key := stem +:+ year in
       let lines :=
         [ "@article{" +:+ key +:+ ",";
           "  title   = {" +:+ title +:+ "},";
           "  author  = {" +:+ authors_bib +:+ "},";
           "  year    = {" +:+ year +:+ "},";
           "  journal = {" +:+ venue +:+ "}," ]
         ++ match Text.truthy (doi p) with
            | Some d => ["  doi     = {" +:+ d +:+ "},"]
            | None => []
            end
         ++ match Text.truthy (url p) with
            | Some u => ["  url     = {" +:+ u +:+ "},"]
            | None => []
            end in
       Ok (Text.join Bibtex.newline (trim_comma lines ++ ["}"]))).

End AppBibtex.

(** ** [tools/paper_summarize_tool.py] *)

(** The chat model is an oracle, like the providers; the state records the
    prompts that were sent.  The sampling temperature, a constant, is not
    part of the model. *)

Module Summarize.

Record chat_request := {
  model : string;
  system : string;
  user : string;
}.

(** What [client.chat.completions.create] and the reading of
    [resp.choices[0].message.content] can meet: an error of the client, an
    empty list of choices, a message without content, or the content. *)
Inductive chat_answer :=
| ClientError
| NoChoice
| NoContent
| Content (c : string).

Inductive raised := OpenAIError | Py (e : exn).

Inductive reply := Said (s : string) | Raised (r : raised).

Record chat_state (World : Type) := {
  chat_world : World;
  asked : list chat_request;
}.
Arguments chat_world {World} _.
Arguments asked {World} _.

Definition no_content : string := "요약할 내용(초록/본문)이 없습니다.".

Definition _build_system_prompt (lang mode : string) : string :=
  let base :=
    if String.eqb lang "ko"
    then "너는 논문을 분석해주는 조교야. 한국어로만 답해."
    else if String.eqb lang "en"
    then "You are an AI assistant that analyzes research papers. Answer in English."
    else if String.eqb lang "ja"
    then "あなたは論文を分析するアシスタントです。日本語で答えてください。"
    else "You are an AI assistant that analyzes research papers." in
  let extra :=
    if String.eqb mode "summary"
    then " 사용자가 제공한 논문 내용을 구조적으로 요약해줘."
    else if String.eqb mode "contribution"
    then " 논문의 핵심 contribution만 2~4개 bullet로 정리해줘."
    else if String.eqb mode "weakness"
    then " 논문의 한계점/약점을 3~5개 bullet로 비판적으로 정리해줘."
    else if String.eqb mode "strength_weakness"
    then " 논문의 장점 3개, 단점 3개를 bullet 형식으로 나누어 정리해줘."
    else EmptyString in
  base +:+ extra.

Definition _build_user_prompt (text lang mode : string) : string :=
  let blank_line := Bibtex.newline +:+ Bibtex.newline in
  if String.eqb mode "summary"
  then "다음 논문 내용을 간결하고 논리적으로 요약해줘." +:+ blank_line +:+ text
  else if String.eqb mode "contribution"
  then "다음 논문의 핵심 contribution만 뽑아서 bullet 형식으로 정리해줘. "
       +:+ "구현 아이디어, 이론적 기여, 실험적 기여를 구분해주면 더 좋다."
       +:+ blank_line +:+ text
  else if String.eqb mode "weakness"
  then "다음 논문의 한계점과 약점을 비판적으로 분석해 bullet로 정리해줘. "
       +:+ "데이터/실험셋 한계, 비교 대상 부족, 가정의 비현실성, 재현 가능성 문제 등을 포함해서 적어줘."
       +:+ blank_line +:+ text
  else if String.eqb mode "strength_weakness"
  then "다음 논문의 내용을 바탕으로, 먼저 장점(strengths) 3개, "
       +:+ "그 다음 줄에 단점(weaknesses) 3개를 bullet 형태로 정리해줘."
       +:+ blank_line +:+ text
  else text.

Section Tool.

Context {World : Type}.
Variable MODEL : string.
Variable chat : chat_request -> World -> chat_answer * World.

Definition invoke (text lang mode : string) (st : chat_state World)
  : reply * chat_state World :=
  if negb (Text.nonempty text) || String.eqb (Text.strip text) EmptyString
  then (Said no_content, st)
  else
    let system_msg := _build_system_prompt lang mode in
    let user_msg := _build_user_prompt text lang mode in
    let req :=
      {| model := MODEL; system := system_msg; user := user_msg |} in
    let (answer, w) := chat req (chat_world st) in
    let st' := {| chat_world := w; asked := asked st ++ [req] |} in
    match answer with
    | ClientError => (Raised OpenAIError, st')
    | NoChoice => (Raised (Py IndexError), st')
    | NoContent => (Raised (Py AttributeError), st')
    | Content c => (Said (Text.strip c), st')
    end.

End Tool.

End Summarize.

(** * Vocabulary of the further properties *)

(** Two records are the same paper for the merge: the same DOI up to case,
    or no DOI on either side and the same lowercased title and year. *)
Definition same_paper (r1 r2 : paper) : Prop :=
  (exists d1 d2,
     doi r1 = Some d1 /\ doi r2 = Some d2
     /\ d1 <> EmptyString /\ d2 <> EmptyString
     /\ Text.lower d1 = Text.lower d2)
  \/ (no_doi r1 /\ no_doi r2
      /\ Text.lower (title r1) = Text.lower (title r2)
      /\ year r1 = year r2).

(** The item passes the year bounds and the citation bound. *)
Definition s2_passes (year_from year_to min_citations : option Z)
    (it : s2_item) : bool :=
  negb (before_year_from year_from (s2_year it))
  && negb (after_year_to year_to (s2_year it))
  && match min_citations, s2_citationCount it with
     | Some m, Val c => negb (c <? m)
     | Some m, Missing => negb (0 <? m)
     | _, _ => true
     end.

(** The provider's answer depends on the request only, not on the state of
    the world. *)
Definition request_determined {Req B W}
    (get : Req -> W -> http_result B * W) : Prop :=
  forall req w w', (get req w).1 = (get req w').1.

(** A character of a slug: a digit or a lowercase letter. *)
Definition is_slug_char (c : ascii) : bool :=
  let n := nat_of_ascii c in
  (((48 <=? n) && (n <=? 57)) || ((97 <=? n) && (n <=? 122)))%nat.

(** What precedes the first [c] of a string. *)
Fixpoint up_to (c : ascii) (s : string) : string :=
  match s with
  | EmptyString => EmptyString
  | String d r => if Ascii.eqb d c then EmptyString else String d (up_to c r)
  end.

(** What follows the first [c] of a string. *)
Fixpoint after (c : ascii) (s : string) : string :=
  match s with
  | EmptyString => EmptyString
  | String d r => if Ascii.eqb d c then r else after c r
  end.

(** The citation key of a BibTeX entry: the text between the first opening
    brace and the comma that follows it. *)
Definition cite_key (entry : string) : string := up_to "," (after "{" entry).

(** The keys under which the library holds its entries. *)
Definition library_keys (s : Library.fs) : list (string * option Z) :=
  Library.entry_key <$> Library.content_of s.

(** The library after the entries of [es] were offered one by one. *)
Definition add_all (es : list paper) (s : Library.fs) : Library.fs :=
  foldl (fun s e => (Library.add_to_library e s).2) s es.

(** * More sample answers *)

Module MoreSample.

(** An item with a venue under its short name and its full name. *)
Definition item_at (t : string) (short full : option string) : s2_item :=
  {| s2_title := Some t;
     s2_year := None;
     s2_venue := short;
     s2_abstract := None;
     s2_citationCount := Missing;
     s2_authors := Missing;
     s2_url := None;
     s2_externalIds := None;
     s2_openAccessPdf := None;
     s2_publicationVenue := Some {| pv_name := full |} |}.

(** A Crossref item whose [issued] object holds [{"date-parts": [[]]}]. *)
Definition cr_undated (t : string) : cr_item :=
  {| cr_title := Some [t];
     cr_author_list := Missing;
     cr_issued_obj := Val {| date_parts := Some [[]] |};
     cr_DOI := None;
     cr_URL := None;
     cr_container_title := None |}.

(** Three items: one inside the bounds 2015..2022 with 30 citations, one
    too old, one with too few citations. *)
Definition three_items : list s2_item :=
  [ Sample.item "A" (Some 2020) (Val 30) (Some "Nature") None;
    Sample.item "B" (Some 2010) (Val 30) (Some "Nature") None;
    Sample.item "C" (Some 2021) (Val 3) (Some "Nature") None ].

(** An entry of the library. *)
Definition entry (t : string) (y : option Z) : paper :=
  Sample.record t y (Some 1) "Nature" None.

End MoreSample.

(** A chat model that always answers with the same content. *)
Definition chat_always (c : string)
  : Summarize.chat_request -> unit -> Summarize.chat_answer * unit :=
  fun _ w => (Summarize.Content c, w).

(** * Properties *)

(** ** Text *)

Module TextFacts.
Import Text.

Lemma lstrip_blank s : blank s = true -> lstrip s = EmptyString.
Proof.
  unfold blank. induction s as [|c r IH]; simpl; [done|].
  intros [Hc Hr]%andb_prop. rewrite Hc. auto.
Qed.

Lemma rstrip_empty s : rstrip s = EmptyString -> blank s = true.
Proof.
  unfold blank. induction s as [|c r IH]; simpl; [done|].
  destruct (rstrip r) eqn:E; [|done].
  destruct (is_space c); [|done]. intros _. by apply IH.
Qed.

Lemma lstrip_suffix_blank s : blank (lstrip s) = true -> blank s = true.
Proof.
  unfold blank. induction s as [|c r IH]; simpl; [done|].
  destruct (is_space c) eqn:E; simpl; [auto|].
  rewrite E. done.
Qed.

(** [s.strip()] is empty exactly for the whitespace-only strings. *)
Lemma strip_blank s : strip s = EmptyString <-> blank s = true.
Proof.
  unfold strip. split.
  - intros H. by apply lstrip_suffix_blank, rstrip_empty.
  - intros H. by rewrite (lstrip_blank s H).
Qed.

Lemma nonempty_false s : nonempty s = false <-> s = EmptyString.
Proof. by destruct s. Qed.

Lemma nonempty_true s : nonempty s = true <-> s <> EmptyString.
Proof. by destruct s. Qed.

Lemma truthy_Some o s : truthy o = Some s <-> o = Some s /\ s <> EmptyString.
Proof. destruct o as [[|c r]|]; simpl; intuition congruence. Qed.

Lemma all_chars_app P s t :
  all_chars P (s +:+ t) = all_chars P s && all_chars P t.
Proof.
  induction s as [|c r IH]; simpl; [done|].
  by rewrite IH, andb_assoc.
Qed.

Lemma pretty_N_char_num n : is_num_char (pretty_N_char n) = true.
Proof. unfold pretty_N_char. by repeat case_match. Qed.

Lemma pretty_N_go_num x s :
  all_chars is_num_char s = true ->
  all_chars is_num_char (pretty_N_go x s) = true.
Proof.
  revert s. induction (N.lt_wf_0 x) as [x _ IH]; intros s Hs.
  destruct (decide (x = 0)%N) as [->|Hx].
  - by rewrite pretty_N_go_0.
  - rewrite pretty_N_go_step by lia. apply IH.
    + apply N.div_lt; lia.
    + simpl. by rewrite pretty_N_char_num, Hs.
Qed.

Lemma pretty_N_num (x : N) : all_chars is_num_char (pretty x) = true.
Proof.
  unfold pretty, pretty_N. case_decide; [done|].
  by apply pretty_N_go_num.
Qed.

(** [str(n)] is a sign and digits. *)
Lemma of_int_num n : all_chars is_num_char (of_int n) = true.
Proof.
  unfold of_int, pretty, pretty_Z. destruct n as [|p|p]; [done|..].
  - apply pretty_N_num.
  - rewrite all_chars_app. simpl. apply pretty_N_num.
Qed.

Lemma of_int_inj m n : of_int m = of_int n -> m = n.
Proof. apply pretty_Z_inj. Qed.

(** Two years print alike only when they are the same year, [None]
    included. *)
Lemma of_opt_int_inj x y : of_opt_int x = of_opt_int y -> x = y.
Proof.
  destruct x as [m|], y as [n|]; simpl; intros H.
  - f_equal. by apply of_int_inj.
  - pose proof (of_int_num m) as Hm. rewrite H in Hm. done.
  - pose proof (of_int_num n) as Hn. rewrite <- H in Hn. done.
  - done.
Qed.

Lemma has_bar_app s t : has_bar (s +:+ t) = has_bar s || has_bar t.
Proof. unfold has_bar. rewrite all_chars_app. by rewrite negb_andb. Qed.

Lemma after_last_bar_app s t :
  has_bar t = false -> after_last_bar (s +:+ String "|" t) = t.
Proof.
  intros Ht. induction s as [|c r IH]; simpl.
  - by rewrite Ht.
  - change (String.append r (String "|" t)) with (r +:+ String "|" t).
    rewrite has_bar_app.
    replace (has_bar (String "|" t)) with true by done.
    by rewrite orb_true_r.
Qed.

Lemma num_no_bar s : all_chars is_num_char s = true -> has_bar s = false.
Proof.
  unfold has_bar. intros H. apply negb_false_iff.
  induction s as [|c r IH]; simpl in *; [done|].
  apply andb_prop in H as [Hc Hr]. rewrite (IH Hr), andb_true_r.
  unfold is_num_char, is_bar in *.
  destruct (nat_of_ascii c =? 124)%nat eqn:E; [|done].
  apply Nat.eqb_eq in E. rewrite E in Hc. done.
Qed.

Lemma of_opt_int_no_bar y : has_bar (of_opt_int y) = false.
Proof.
  destruct y as [n|]; simpl; [|done]. apply num_no_bar, of_int_num.
Qed.

End TextFacts.

(** ** The de-duplication key *)

Module KeyFacts.
Import Text TextFacts.

Lemma key_doi r d :
  doi r = Some d -> d <> EmptyString ->
  _dedupe_key r = "doi:" +:+ lower d.
Proof.
  intros Hd Hne. unfold _dedupe_key, or_else.
  rewrite Hd. destruct d as [|c d']; [done|]. done.
Qed.

Lemma key_no_doi r :
  no_doi r ->
  _dedupe_key r
  = "title:" +:+ lower (title r) +:+ "|year:" +:+ of_opt_int (year r).
Proof. intros [H|H]; unfold _dedupe_key, or_else; by rewrite H. Qed.

(** The year can be read back from a title key: it follows the last bar. *)
Lemma key_no_doi_year r1 r2 :
  no_doi r1 -> no_doi r2 ->
  _dedupe_key r1 = _dedupe_key r2 -> year r1 = year r2.
Proof.
  intros H1 H2. rewrite (key_no_doi r1 H1), (key_no_doi r2 H2).
  intros [= E].
  assert (Hb : forall y, has_bar ("year:" +:+ of_opt_int y) = false).
  { intros y. rewrite has_bar_app, of_opt_int_no_bar. done. }
  apply (f_equal after_last_bar) in E.
  change ("|year:" +:+ of_opt_int (year r1))
    with (String "|" ("year:" +:+ of_opt_int (year r1))) in E.
  change ("|year:" +:+ of_opt_int (year r2))
    with (String "|" ("year:" +:+ of_opt_int (year r2))) in E.
  repeat match type of E with
         | context [String.append EmptyString ?x] =>
             change (String.append EmptyString x) with x in E
         end.
  rewrite !after_last_bar_app in E by apply Hb.
  injection E as E. by apply of_opt_int_inj.
Qed.

End KeyFacts.

(** ** The merge loop *)

Module MergeFacts.

Lemma keys_of_app l1 l2 : keys_of (l1 ++ l2) = keys_of l1 ∪ keys_of l2.
Proof. unfold keys_of. rewrite fmap_app. apply list_to_set_app_L. Qed.

Lemma elem_keys_of r l : r ∈ l -> _dedupe_key r ∈ keys_of l.
Proof.
  intros H. unfold keys_of. apply elem_of_list_to_set.
  apply list_elem_of_fmap. eauto.
Qed.

Lemma keys_of_elem k l :
  k ∈ keys_of l -> exists r, r ∈ l /\ _dedupe_key r = k.
Proof.
  unfold keys_of. intros H%elem_of_list_to_set.
  apply list_elem_of_fmap in H as (r & -> & Hr). eauto.
Qed.

Lemma merge_more_skip r rest res seen :
  _dedupe_key r ∈ seen ->
  merge_more (r :: rest) res seen = merge_more rest res seen.
Proof. intros H. simpl. by rewrite bool_decide_eq_true_2. Qed.

Lemma merge_more_keep r rest res seen :
  _dedupe_key r ∉ seen ->
  merge_more (r :: rest) res seen
  = merge_more rest (res ++ [r]) (seen ∪ {[_dedupe_key r]}).
Proof. intros H. simpl. by rewrite bool_decide_eq_false_2. Qed.

(** Merging two responses one after the other is merging their
    concatenation. *)
Lemma merge_more_app l1 l2 res seen :
  merge_more (l1 ++ l2) res seen
  = merge_more l2 (merge_more l1 res seen).1 (merge_more l1 res seen).2.
Proof.
  revert res seen. induction l1 as [|r l1 IH]; intros res seen; [done|].
  simpl. case_bool_decide; apply IH.
Qed.

(** Every key of a merged response is seen afterwards, appended or not. *)
Lemma merge_more_seen l res seen :
  (merge_more l res seen).2 = seen ∪ keys_of l.
Proof.
  revert res seen. induction l as [|r l IH]; intros res seen.
  - unfold keys_of. simpl. set_solver.
  - simpl. case_bool_decide as Hk; rewrite IH.
    + unfold keys_of. simpl. set_solver.
    + unfold keys_of. simpl. set_solver.
Qed.

(** The working list only grows at its end, by records of the response. *)
Lemma merge_more_prefix l res seen :
  exists new, (merge_more l res seen).1 = res ++ new /\ new ⊆ l.
Proof.
  revert res seen. induction l as [|r l IH]; intros res seen.
  - exists []. simpl. by rewrite app_nil_r.
  - simpl. case_bool_decide as Hk.
    + destruct (IH res seen) as (new & -> & Hsub).
      exists new. split; [done|]. set_solver.
    + destruct (IH (res ++ [r]) (seen ∪ {[_dedupe_key r]}))
        as (new & -> & Hsub).
      exists (r :: new). split; [by rewrite <- app_assoc|]. set_solver.
Qed.

(** The records an alias response adds carry pairwise different keys, none
    of which was seen before. *)
Lemma merge_more_fresh l res seen :
  exists new,
    (merge_more l res seen).1 = res ++ new
    /\ NoDup (_dedupe_key <$> new)
    /\ (forall r, r ∈ new -> _dedupe_key r ∉ seen).
Proof.
  revert res seen. induction l as [|r l IH]; intros res seen.
  - exists []. simpl. rewrite app_nil_r. split; [done|].
    split; [constructor|]. intros r Hr. by apply elem_of_nil in Hr.
  - simpl. case_bool_decide as Hk.
    + apply IH.
    + destruct (IH (res ++ [r]) (seen ∪ {[_dedupe_key r]}))
        as (new & -> & Hnd & Hfresh).
      exists (r :: new). split; [by rewrite <- app_assoc|]. split.
      * simpl. constructor; [|done].
        intros Hin. apply list_elem_of_fmap in Hin as (r' & Hkey & Hr').
        apply Hfresh in Hr'. rewrite <- Hkey in Hr'. set_solver.
      * intros r' [->|Hr']%elem_of_cons; [done|].
        apply Hfresh in Hr'. set_solver.
Qed.

(** A record whose key was met before leaves no trace. *)
Lemma merge_more_drops results pre post r1 r2 :
  r1 ∈ results ++ pre ->
  _dedupe_key r1 = _dedupe_key r2 ->
  merge_more (pre ++ r2 :: post) results (keys_of results)
  = merge_more (pre ++ post) results (keys_of results).
Proof.
  intros Hin Hk. rewrite !merge_more_app. apply merge_more_skip.
  rewrite merge_more_seen, <- keys_of_app, <- Hk. by apply elem_keys_of.
Qed.

(** A record whose key was not met before is appended. *)
Lemma merge_more_adds results pre post r2 :
  (forall r, r ∈ results ++ pre -> _dedupe_key r <> _dedupe_key r2) ->
  r2 ∈ (merge_more (pre ++ r2 :: post) results (keys_of results)).1.
Proof.
  intros Hfresh. rewrite merge_more_app, merge_more_keep.
  - destruct (merge_more_prefix post
                ((merge_more pre results (keys_of results)).1 ++ [r2])
                ((merge_more pre results (keys_of results)).2
                 ∪ {[_dedupe_key r2]})) as (new & -> & _).
    set_solver.
  - rewrite merge_more_seen, <- keys_of_app.
    intros (r & Hr & Hk)%keys_of_elem. by apply (Hfresh r).
Qed.

Lemma merge_more_keeps_results l results seen r :
  r ∈ results -> r ∈ (merge_more l results seen).1.
Proof.
  intros Hr. destruct (merge_more_prefix l results seen) as (new & -> & _).
  set_solver.
Qed.

End MergeFacts.

(** ** Truncation *)

Lemma slice_to_nonneg {A} (n : Z) (xs : list A) :
  0 <= n -> slice_to n xs = take (Z.to_nat n) xs.
Proof. intros H. unfold slice_to. by rewrite (proj2 (Z.leb_le 0 n) H). Qed.

Lemma slice_to_nil {A} (n : Z) : slice_to n (@nil A) = [].
Proof. unfold slice_to. destruct (0 <=? n); by rewrite take_nil. Qed.

(** [results[:max_results] if results else []] is [results[:max_results]]. *)
Lemma truncate_guard {A} (n : Z) (xs : list A) :
  (if nonempty_list xs then slice_to n xs else []) = slice_to n xs.
Proof. destruct xs; [by rewrite slice_to_nil|done]. Qed.

Lemma elem_of_slice_to {A} (n : Z) (xs : list A) x :
  x ∈ slice_to n xs -> x ∈ xs.
Proof. unfold slice_to. destruct (0 <=? n); apply subseteq_take. Qed.

(** ** The alias table *)

Lemma alias_lookup_Some t table vals :
  NoDup table.*1 ->
  (t, vals) ∈ table <-> alias_lookup t table = Some vals.
Proof.
  induction table as [|[k v] rest IH]; simpl; intros Hnd.
  - split; [by intros ?%elem_of_nil|done].
  - apply NoDup_cons in Hnd as [Hk Hnd].
    destruct (String.eqb t k) eqn:E.
    + apply String.eqb_eq in E as ->. split.
      * intros [[= ->]|Hin]%elem_of_cons; [done|].
        exfalso. apply Hk. apply list_elem_of_fmap. by exists (k, vals).
      * intros [= ->]. by left.
    + apply String.eqb_neq in E. rewrite <- (IH Hnd). split.
      * intros [[= ? ?]|Hin]%elem_of_cons; [done|done].
      * intros Hin. by right.
Qed.

Lemma alias_lookup_None t table :
  (forall vals, (t, vals) ∉ table) <-> alias_lookup t table = None.
Proof.
  induction table as [|[k v] rest IH]; simpl.
  - split; [done|]. intros _ vals. apply not_elem_of_nil.
  - destruct (String.eqb t k) eqn:E.
    + apply String.eqb_eq in E as ->. split; [|done].
      intros H. exfalso. apply (H v). by left.
    + apply String.eqb_neq in E. rewrite <- IH. split.
      * intros H vals Hin. apply (H vals). by right.
      * intros H vals [[= ? ?]|Hin]%elem_of_cons; [done|]. by apply (H vals).
Qed.

(** No key is written twice in the table. *)
Lemma aliases_keys_NoDup : NoDup aliases.*1.
Proof. apply (bool_decide_unpack _). vm_compute. exact I. Qed.

(** ** The venue argument and the venue filter *)

Lemma venue_given_None venue_arg :
  venue_given venue_arg = None <-> venue_blank venue_arg.
Proof.
  unfold venue_given, venue_blank. destruct venue_arg as [s|]; simpl.
  - destruct (Text.nonempty s) eqn:Es.
    + destruct (Text.nonempty (Text.strip s)) eqn:E.
      * apply TextFacts.nonempty_true in E.
        rewrite TextFacts.strip_blank in E. split; [done|].
        intros [?|(s' & [= <-] & Hb)]; done.
      * apply TextFacts.nonempty_false, TextFacts.strip_blank in E.
        split; [|done]. intros _. right. eauto.
    + apply TextFacts.nonempty_false in Es as ->.
      split; [|done]. intros _. right. by exists EmptyString.
  - split; [|done]. intros _. by left.
Qed.

Lemma venue_given_Some venue_arg v :
  venue_given venue_arg = Some v <-> venue_arg = Some v /\ blank v = false.
Proof.
  unfold venue_given. destruct venue_arg as [s|]; simpl;
    [|intuition congruence].
  destruct (Text.nonempty s) eqn:Es.
  - destruct (Text.nonempty (Text.strip s)) eqn:E.
    + apply TextFacts.nonempty_true in E.
      rewrite TextFacts.strip_blank in E.
      split.
      * intros [= <-]. split; [done|]. by destruct (blank s).
      * by intros [[= <-] _].
    + apply TextFacts.nonempty_false, TextFacts.strip_blank in E.
      split; [done|]. intros [[= <-] Hb]. congruence.
  - apply TextFacts.nonempty_false in Es as ->.
    split; [done|]. by intros [[= <-] Hb].
Qed.

Lemma venue_filter_nonempty v merged :
  List.filter (venue_matches (Text.lower (Text.strip v))) merged <> [] ->
  venue_filter v merged
  = List.filter (venue_matches (Text.lower (Text.strip v))) merged.
Proof. unfold venue_filter. by destruct (List.filter _ merged). Qed.

Lemma venue_filter_empty v merged :
  List.filter (venue_matches (Text.lower (Text.strip v))) merged = [] ->
  venue_filter v merged = merged.
Proof. unfold venue_filter. by intros ->. Qed.

(** ** The primary client's loop *)

(** What one item contributes does not depend on its neighbours. *)
Lemma s2_collect_around year_from year_to min_citations pre post it o :
  s2_step year_from year_to min_citations it = Ok o ->
  s2_collect year_from year_to min_citations (pre ++ it :: post)
  = with_neighbours year_from year_to min_citations pre post (option_list o).
Proof.
  intros Hit. unfold with_neighbours.
  induction pre as [|x pre IH]; simpl.
  - rewrite Hit. simpl.
    by destruct (s2_collect year_from year_to min_citations post).
  - destruct (s2_step year_from year_to min_citations x) as [ox|e]; [|done].
    simpl. rewrite IH.
    destruct (s2_collect year_from year_to min_citations pre) as [a|e];
      [|done].
    simpl.
    destruct (s2_collect year_from year_to min_citations post) as [b|e];
      [|done].
    simpl. by rewrite app_assoc.
Qed.

Lemma s2_step_counted year_from year_to m it c p :
  before_year_from year_from (s2_year it) = false ->
  after_year_to year_to (s2_year it) = false ->
  s2_normalize it = Ok p ->
  s2_citationCount it = Val c ->
  s2_step year_from year_to (Some m) it
  = Ok (if c <? m then None else Some p).
Proof.
  intros Hf Ht Hn Hc. unfold s2_step, below_min_citations.
  rewrite Hf, Ht, Hc. simpl. destruct (c <? m); [done|]. by rewrite Hn.
Qed.

Lemma s2_step_unfiltered year_from year_to it p :
  before_year_from year_from (s2_year it) = false ->
  after_year_to year_to (s2_year it) = false ->
  s2_normalize it = Ok p ->
  s2_step year_from year_to None it = Ok (Some p).
Proof.
  intros Hf Ht Hn. unfold s2_step, below_min_citations.
  rewrite Hf, Ht. simpl. by rewrite Hn.
Qed.

(** A record of unknown year passes both year checks. *)
Lemma unknown_year_never_excluded year_from year_to it :
  s2_year it = None ->
  before_year_from year_from (s2_year it) = false
  /\ after_year_to year_to (s2_year it) = false.
Proof.
  intros ->. unfold before_year_from, after_year_to.
  by destruct (truthy_int year_from), (truthy_int year_to).
Qed.

(** A year check excludes only when the bound and the year are both there. *)
Lemma year_exclusion_needs_both year_from year_to yr :
  (before_year_from year_from yr = true ->
   exists f y, year_from = Some f /\ yr = Some y /\ y < f)
  /\ (after_year_to year_to yr = true ->
      exists t y, year_to = Some t /\ yr = Some y /\ t < y).
Proof.
  unfold before_year_from, after_year_to, truthy_int. split.
  - destruct year_from as [f|]; [|done]. destruct (f =? 0); [done|].
    destruct yr as [y|]; [|done]. destruct (y =? 0); [done|].
    intros H%Z.ltb_lt. eauto.
  - destruct year_to as [t|]; [|done]. destruct (t =? 0); [done|].
    destruct yr as [y|]; [|done]. destruct (y =? 0); [done|].
    intros H%Z.ltb_lt. eauto.
Qed.

(** A missing citation count is compared as zero and stays [None] in the
    record. *)
Lemma missing_citation_count_is_zero m it :
  s2_citationCount it = Missing ->
  below_min_citations (Some m) it = Ok (0 <? m)
  /\ forall p, s2_normalize it = Ok p -> citations p = None.
Proof.
  intros H. unfold below_min_citations. rewrite H. split; [done|].
  intros p. unfold s2_normalize. destruct (s2_authors_text it); [|done].
  simpl. intros [= <-]. simpl. by rewrite H.
Qed.

(** A null citation count under a citation bound: the comparison raises. *)
Lemma null_citation_count_type_error year_from year_to m it :
  before_year_from year_from (s2_year it) = false ->
  after_year_to year_to (s2_year it) = false ->
  s2_citationCount it = Null ->
  s2_step year_from year_to (Some m) it = Raise TypeError.
Proof.
  intros Hf Ht Hc. unfold s2_step, below_min_citations.
  by rewrite Hf, Ht, Hc.
Qed.

Lemma failed_body_of {B} (res : http_result B) :
  failed res <-> body_of res = None.
Proof. destruct res; simpl; intuition congruence. Qed.

Lemma crossref_calls_app l1 l2 :
  crossref_calls (l1 ++ l2) = (crossref_calls l1 + crossref_calls l2)%nat.
Proof. unfold crossref_calls. by rewrite List.filter_app, length_app. Qed.

(** ** Running the clients and the orchestrator *)

Section Runs.

Context {World : Type}.
Variable S2_API_KEY : option string.
Variable s2_get : s2_request -> World -> http_result s2_body * World.
Variable cr_get : cr_request -> World -> http_result cr_body * World.

Abbreviation search_s2 := (_search_semantic_scholar S2_API_KEY s2_get).
Abbreviation search_cr := (_search_crossref cr_get).
Abbreviation s2_req := (s2_request_of S2_API_KEY).

(** One call of the primary client: one request, and the parsed body or the
    empty list. *)
Lemma search_s2_run query year_from year_to min_citations limit st :
  search_s2 query year_from year_to min_citations limit st
  = (match body_of (s2_get (s2_req query limit) (world st)).1 with
     | Some data => s2_parse year_from year_to min_citations data
     | None => Ok []
     end,
     after_s2 s2_get st (s2_req query limit)).
Proof.
  unfold _search_semantic_scholar, bind, http_s2, after_s2.
  destruct (s2_get _ _) as [res w]. by destruct res.
Qed.

Lemma search_cr_run query year_from year_to limit st :
  search_cr query year_from year_to limit st
  = (match
       body_of
         (cr_get (cr_request_of query year_from year_to limit) (world st)).1
     with
     | Some data => cr_parse data
     | None => Ok []
     end,
     after_cr cr_get st (cr_request_of query year_from year_to limit)).
Proof.
  unfold _search_crossref, bind, http_crossref, after_cr.
  destruct (cr_get _ _) as [res w]. by destruct res.
Qed.

Lemma search_s2_sent query year_from year_to min_citations limit st o st' :
  search_s2 query year_from year_to min_citations limit st = (o, st') ->
  sent st' = sent st ++ [GetS2 (s2_req query limit)].
Proof. rewrite search_s2_run. by intros [= _ <-]. Qed.

Lemma search_cr_sent query year_from year_to limit st o st' :
  search_cr query year_from year_to limit st = (o, st') ->
  sent st'
  = sent st ++ [GetCrossref (cr_request_of query year_from year_to limit)].
Proof. rewrite search_cr_run. by intros [= _ <-]. Qed.

(** An alias loop that completes has sent one request per alias. *)
Lemma alias_loop_sent query year_from year_to min_citations max_results
    als results seen st out st' :
  alias_loop S2_API_KEY s2_get query year_from year_to min_citations
    max_results als results seen st = (Ok out, st') ->
  sent st' = sent st ++ alias_requests S2_API_KEY query max_results als.
Proof.
  revert results seen st.
  induction als as [|alias rest IH]; intros results seen st; simpl.
  - unfold ret. intros [= _ <-]. by rewrite app_nil_r.
  - unfold bind at 1.
    destruct (search_s2 _ _ _ _ _ st) as [[more|e] st1] eqn:E; [|done].
    apply search_s2_sent in E.
    destruct (merge_more more results seen) as [results' seen'].
    intros H%IH. rewrite H, E. by rewrite <- app_assoc.
Qed.

(** The alias loop is the merge of the alias responses, taken in order. *)
Lemma alias_loop_merges query year_from year_to min_citations max_results
    als results seen st :
  alias_loop S2_API_KEY s2_get query year_from year_to min_citations
    max_results als results seen st
  = match
      alias_responses S2_API_KEY s2_get query year_from year_to
        min_citations max_results als st
    with
    | (Ok mores, st') => (Ok (merge_more (concat mores) results seen), st')
    | (Raise e, st') => (Raise e, st')
    end.
Proof.
  revert results seen st.
  induction als as [|alias rest IH]; intros results seen st; [done|].
  simpl. unfold bind.
  destruct (search_s2 _ _ _ _ _ st) as [[more|e] st1]; [|done].
  destruct (merge_more more results seen) as [results' seen'] eqn:E.
  rewrite IH.
  destruct (alias_responses _ _ _ _ _ _ _ rest st1) as [[mores|e] st2];
    [|done].
  unfold ret. simpl. by rewrite MergeFacts.merge_more_app, E.
Qed.

Lemma crossref_calls_aliases query max_results als :
  crossref_calls (alias_requests S2_API_KEY query max_results als) = 0%nat.
Proof. unfold crossref_calls, alias_requests. by induction als. Qed.

Lemma primary_blank query year_from year_to min_citations venue_arg
    max_results st :
  venue_blank venue_arg ->
  primary S2_API_KEY s2_get query year_from year_to min_citations venue_arg
    max_results st
  = search_s2 query year_from year_to min_citations max_results st.
Proof.
  intros Hv%venue_given_None. unfold primary, bind. rewrite Hv.
  by destruct (search_s2 _ _ _ _ _ st) as [[base|e] st1].
Qed.

Lemma primary_venue query year_from year_to min_citations venue_arg
    max_results v st base st1 merged seen st2 :
  venue_given venue_arg = Some v ->
  search_s2 query year_from year_to min_citations max_results st
  = (Ok base, st1) ->
  alias_loop S2_API_KEY s2_get query year_from year_to min_citations
    max_results (_venue_aliases (Some v)) base (keys_of base) st1
  = (Ok (merged, seen), st2) ->
  primary S2_API_KEY s2_get query year_from year_to min_citations venue_arg
    max_results st
  = (Ok (venue_filter v merged), st2).
Proof.
  intros Hv Hbase Hloop. unfold primary, bind. rewrite Hbase, Hv.
  unfold keys_of in Hloop. by rewrite Hloop.
Qed.

(** [primary] never talks to Crossref. *)
Lemma primary_crossref_calls query year_from year_to min_citations venue_arg
    max_results st out st1 :
  primary S2_API_KEY s2_get query year_from year_to min_citations venue_arg
    max_results st = (Ok out, st1) ->
  crossref_calls (sent st1) = crossref_calls (sent st).
Proof.
  unfold primary, bind.
  destruct (search_s2 _ _ _ _ _ st) as [[base|e] st0] eqn:E; [|done].
  apply search_s2_sent in E.
  destruct (venue_given venue_arg) as [v|].
  - destruct (alias_loop _ _ _ _ _ _ _ _ _ _ st0) as [[m|e] st2] eqn:L;
      [|done].
    apply alias_loop_sent in L. unfold ret. intros [= _ <-].
    rewrite L, E, !crossref_calls_app, crossref_calls_aliases.
    simpl. unfold crossref_calls at 2. simpl. lia.
  - unfold ret. intros [= _ <-]. rewrite E, crossref_calls_app.
    unfold crossref_calls at 2. simpl. lia.
Qed.

(** [invoke] is [[:max_results]] after [untruncated]. *)
Lemma invoke_of_untruncated query year_from year_to min_citations venue_arg
    max_results st :
  invoke S2_API_KEY s2_get cr_get query year_from year_to min_citations
    venue_arg max_results st
  = (obind
       (untruncated S2_API_KEY s2_get cr_get query year_from year_to
          min_citations venue_arg max_results st).1
       (fun l => Ok (slice_to max_results l)),
     (untruncated S2_API_KEY s2_get cr_get query year_from year_to
        min_citations venue_arg max_results st).2).
Proof.
  unfold invoke, bind, ret.
  destruct (untruncated _ _ _ _ _ _ _ _ _ st) as [[l|e] st']; simpl; [|done].
  by rewrite truncate_guard.
Qed.

(** A working list that is not empty is returned, truncated. *)
Lemma invoke_working query year_from year_to min_citations venue_arg
    max_results st working st1 :
  primary S2_API_KEY s2_get query year_from year_to min_citations venue_arg
    max_results st = (Ok working, st1) ->
  working <> [] ->
  invoke S2_API_KEY s2_get cr_get query year_from year_to min_citations
    venue_arg max_results st = (Ok (slice_to max_results working), st1).
Proof.
  intros Hp Hne. rewrite invoke_of_untruncated.
  unfold untruncated, bind. rewrite Hp. by destruct working.
Qed.

(** An empty working list hands over to the secondary client. *)
Lemma invoke_fallback query year_from year_to min_citations venue_arg
    max_results st st1 :
  primary S2_API_KEY s2_get query year_from year_to min_citations venue_arg
    max_results st = (Ok [], st1) ->
  invoke S2_API_KEY s2_get cr_get query year_from year_to min_citations
    venue_arg max_results st
  = (obind (search_cr query year_from year_to max_results st1).1
       (fun l => Ok (slice_to max_results l)),
     (search_cr query year_from year_to max_results st1).2).
Proof.
  intros Hp. rewrite invoke_of_untruncated.
  unfold untruncated, bind. rewrite Hp. simpl.
  by destruct (search_cr _ _ _ _ st1).
Qed.

End Runs.

(** ** Transport failures *)

Section FailSoft.

Context {World : Type}.
Variable S2_API_KEY : option string.
Variable s2_get : s2_request -> World -> http_result s2_body * World.
Variable cr_get : cr_request -> World -> http_result cr_body * World.

Abbreviation search_s2 := (_search_semantic_scholar S2_API_KEY s2_get).
Abbreviation search_cr := (_search_crossref cr_get).
Abbreviation s2_req := (s2_request_of S2_API_KEY).
Abbreviation soft_s2 := (fail_soft s2_empty s2_get).
Abbreviation soft_cr := (fail_soft cr_empty cr_get).

(** To each client a transport failure is an answer without records. *)
Lemma search_s2_soft query year_from year_to min_citations limit st :
  _search_semantic_scholar S2_API_KEY soft_s2 query year_from year_to
    min_citations limit st
  = search_s2 query year_from year_to min_citations limit st.
Proof.
  rewrite !search_s2_run. unfold after_s2, fail_soft. simpl.
  by destruct (s2_get _ _).1.
Qed.

Lemma search_cr_soft query year_from year_to limit st :
  _search_crossref soft_cr query year_from year_to limit st
  = search_cr query year_from year_to limit st.
Proof.
  rewrite !search_cr_run. unfold after_cr, fail_soft. simpl.
  by destruct (cr_get _ _).1.
Qed.

Lemma alias_loop_soft query year_from year_to min_citations max_results
    als results seen st :
  alias_loop S2_API_KEY soft_s2 query year_from year_to min_citations
    max_results als results seen st
  = alias_loop S2_API_KEY s2_get query year_from year_to min_citations
      max_results als results seen st.
Proof.
  revert results seen st.
  induction als as [|alias rest IH]; intros results seen st; [done|].
  simpl. unfold bind. rewrite search_s2_soft.
  destruct (search_s2 _ _ _ _ _ st) as [[more|e] st1]; [|done].
  destruct (merge_more more results seen). apply IH.
Qed.

Lemma primary_soft query year_from year_to min_citations venue_arg
    max_results st :
  primary S2_API_KEY soft_s2 query year_from year_to min_citations venue_arg
    max_results st
  = primary S2_API_KEY s2_get query year_from year_to min_citations venue_arg
      max_results st.
Proof.
  unfold primary, bind. rewrite search_s2_soft.
  destruct (search_s2 _ _ _ _ _ st) as [[base|e] st1]; [|done].
  destruct (venue_given venue_arg); [|done].
  by rewrite alias_loop_soft.
Qed.

Lemma invoke_soft query year_from year_to min_citations venue_arg
    max_results st :
  invoke S2_API_KEY soft_s2 soft_cr query year_from year_to min_citations
    venue_arg max_results st
  = invoke S2_API_KEY s2_get cr_get query year_from year_to min_citations
      venue_arg max_results st.
Proof.
  unfold invoke, untruncated, bind. rewrite primary_soft.
  destruct (primary _ _ _ _ _ _ _ _ st) as [[working|e] st1]; [|done].
  destruct (nonempty_list working); [done|].
  by rewrite search_cr_soft.
Qed.

(** With the primary provider down, every alias call is still made. *)
Lemma alias_loop_all_failed query year_from year_to min_citations max_results
    als results seen st :
  (forall req w, failed (s2_get req w).1) ->
  exists st1,
    alias_loop S2_API_KEY s2_get query year_from year_to min_citations
      max_results als results seen st = (Ok (results, seen), st1)
    /\ sent st1 = sent st ++ alias_requests S2_API_KEY query max_results als.
Proof.
  intros Hf. revert st. induction als as [|alias rest IH]; intros st.
  - exists st. simpl. by rewrite app_nil_r.
  - simpl. unfold bind. rewrite search_s2_run.
    rewrite (proj1 (failed_body_of _) (Hf _ _)). simpl.
    destruct (IH (after_s2 s2_get st
                    (s2_req (query +:+ " " +:+ alias) max_results)))
      as (st1 & -> & Hs).
    exists st1. split; [done|]. rewrite Hs. simpl. by rewrite <- app_assoc.
Qed.

Lemma primary_all_failed query year_from year_to min_citations venue_arg
    max_results st :
  (forall req w, failed (s2_get req w).1) ->
  exists st1,
    primary S2_API_KEY s2_get query year_from year_to min_citations venue_arg
      max_results st = (Ok [], st1)
    /\ sent st1
       = sent st ++ primary_requests S2_API_KEY query venue_arg max_results.
Proof.
  intros Hf. unfold primary, primary_requests, bind. rewrite search_s2_run.
  rewrite (proj1 (failed_body_of _) (Hf _ _)).
  destruct (venue_given venue_arg) as [v|].
  - destruct (alias_loop_all_failed query year_from year_to min_citations
                max_results (_venue_aliases (Some v)) [] (list_to_set [])
                (after_s2 s2_get st (s2_req query max_results)) Hf)
      as (st1 & Hl & Hs).
    exists st1. simpl in *. rewrite Hl. split; [done|].
    rewrite Hs. simpl. by rewrite <- app_assoc.
  - eexists. split; [done|]. done.
Qed.

End FailSoft.

(** * The retrieval contract *)

Section Claims.

Context {World : Type}.
Variable S2_API_KEY : option string.
Variable s2_get : s2_request -> World -> http_result s2_body * World.
Variable cr_get : cr_request -> World -> http_result cr_body * World.

(** C1, amended.  [invoke] with a venue that is not blank filters the merged
    list by the normalized venue name alone.  When some merged record
    contains the name in its venue text, the result is the filtered list cut
    by [[:max_results]], so every returned record contains the name (and a
    record that contains neither the name nor an alias is not returned).
    When no merged record contains the name, the merged list is kept
    unfiltered, whatever the aliases match. *)
Theorem venue_filter_by_normalized_name query year_from year_to
    min_citations v max_results st base st1 merged seen st2 :
  blank v = false ->
  _search_semantic_scholar S2_API_KEY s2_get
    query year_from year_to min_citations max_results st
  = (Ok base, st1) ->
  alias_loop S2_API_KEY s2_get
    query year_from year_to min_citations max_results
    (_venue_aliases (Some v)) base (keys_of base) st1
  = (Ok (merged, seen), st2) ->
  let name := Text.lower (Text.strip v) in
  let filtered := List.filter (venue_matches name) merged in
  (filtered <> [] ->
   invoke S2_API_KEY s2_get cr_get
     query year_from year_to min_citations (Some v) max_results st
   = (Ok (slice_to max_results filtered), st2)
   /\ forall r,
        r ∈ slice_to max_results filtered ->
        Text.contains name (Text.lower (venue_text r)) = true
        /\ matches_name_or_alias v r = true)
  /\ (filtered = [] -> merged <> [] ->
      invoke S2_API_KEY s2_get cr_get
        query year_from year_to min_citations (Some v) max_results st
      = (Ok (slice_to max_results merged), st2)).
Proof.
  intros Hv Hbase Hloop name filtered.
  assert (Hg : venue_given (Some v) = Some v) by by apply venue_given_Some.
  pose proof (primary_venue S2_API_KEY s2_get query year_from year_to
                min_citations (Some v) max_results v st base st1 merged seen
                st2 Hg Hbase Hloop) as Hp.
  split.
  - intros Hne. rewrite (venue_filter_nonempty v merged Hne) in Hp.
    split; [by apply invoke_working|].
    intros r Hr%elem_of_slice_to.
    apply list_elem_of_In, List.filter_In in Hr as [_ Hr].
    unfold venue_matches in Hr. split; [done|].
    unfold matches_name_or_alias. fold name. by rewrite Hr.
  - intros He Hne. rewrite (venue_filter_empty v merged He) in Hp.
    by apply invoke_working.
Qed.

(** C2, amended.  Both normalizers turn a non-empty bare DOI [d] into the
    URL [https://doi.org/d]: the prefix is added to whatever the provider
    sent, so records with the same bare identifier get the same [doi]. *)
Theorem doi_bare_identifier_prefixed (d : string) :
  d <> EmptyString ->
  (forall it a,
     sub_get (s2_externalIds it) DOI = Some d ->
     s2_authors_text it = Ok a ->
     exists p,
       s2_normalize it = Ok p /\ doi p = Some ("https://doi.org/" +:+ d))
  /\ (forall it a y,
        cr_DOI it = Some d ->
        cr_authors_text it = Ok a ->
        cr_year it = Ok y ->
        exists p,
          cr_normalize it = Ok p /\ doi p = Some ("https://doi.org/" +:+ d)).
Proof.
  intros Hd.
  assert (Hu : doi_url_of (Some d) = Some ("https://doi.org/" +:+ d)).
  { unfold doi_url_of. by rewrite (proj2 (TextFacts.truthy_Some (Some d) d)). }
  split.
  - intros it a Hdoi Ha. unfold s2_normalize. rewrite Ha. simpl.
    eexists. split; [done|]. simpl. by rewrite Hdoi.
  - intros it a y Hdoi Ha Hy. unfold cr_normalize. rewrite Ha, Hy. simpl.
    eexists. split; [done|]. simpl. by rewrite Hdoi.
Qed.

(** C3, amended.  [pre ++ r2 :: post] are the records of the alias responses
    in the order [invoke] meets them, [results] is the base response, and
    [r1] was met before [r2].  If both carry a non-empty DOI, equal up to
    case, [r2] is dropped, whatever the titles; if neither carries a DOI and
    lowercased title and year agree, [r2] is dropped; two records without
    DOI and with different years have different keys, and a record whose key
    was not met before is kept.  The records of the base response all stay.
    The key is [doi:] and the lowercased DOI when there is one, else
    [title:], the lowercased title, [|year:] and the year. *)
Theorem merge_keeps_first_of_each_key (results pre post : list paper)
    (r1 r2 : paper) :
  r1 ∈ results ++ pre ->
  let seen := keys_of results in
  let with_r2 := merge_more (pre ++ r2 :: post) results seen in
  let without_r2 := merge_more (pre ++ post) results seen in
  (forall d1 d2,
     doi r1 = Some d1 -> doi r2 = Some d2 ->
     d1 <> EmptyString -> d2 <> EmptyString ->
     Text.lower d1 = Text.lower d2 ->
     with_r2 = without_r2)
  /\ (no_doi r1 -> no_doi r2 ->
      Text.lower (title r1) = Text.lower (title r2) ->
      year r1 = year r2 ->
      with_r2 = without_r2)
  /\ (no_doi r1 -> no_doi r2 -> year r1 <> year r2 ->
      _dedupe_key r1 <> _dedupe_key r2)
  /\ ((forall r, r ∈ results ++ pre -> _dedupe_key r <> _dedupe_key r2) ->
      r2 ∈ with_r2.1)
  /\ (forall r, r ∈ results -> r ∈ with_r2.1)
  /\ (forall r d,
        doi r = Some d -> d <> EmptyString ->
        _dedupe_key r = "doi:" +:+ Text.lower d)
  /\ (forall r,
        no_doi r ->
        _dedupe_key r
        = "title:" +:+ Text.lower (title r) +:+ "|year:"
          +:+ Text.of_opt_int (year r)).
Proof.
  intros Hin seen with_r2 without_r2. repeat split.
  - intros d1 d2 H1 H2 Hn1 Hn2 Hl.
    apply (MergeFacts.merge_more_drops _ _ _ r1); [done|].
    by rewrite (KeyFacts.key_doi r1 d1), (KeyFacts.key_doi r2 d2), Hl.
  - intros H1 H2 Ht Hy.
    apply (MergeFacts.merge_more_drops _ _ _ r1); [done|].
    by rewrite (KeyFacts.key_no_doi r1), (KeyFacts.key_no_doi r2), Ht, Hy.
  - intros H1 H2 Hy Hk. by apply Hy, KeyFacts.key_no_doi_year.
  - apply MergeFacts.merge_more_adds.
  - intros r Hr. by apply MergeFacts.merge_more_keeps_results.
  - apply KeyFacts.key_doi.
  - apply KeyFacts.key_no_doi.
Qed.

(** C4.  When the primary stage (base query, alias queries, venue filter)
    leaves an empty working list, [invoke] sends one Crossref request for
    the original query and year bounds and returns that client's output cut
    by [[:max_results]], with no venue filter; when the working list is not
    empty, no Crossref request is sent. *)
Theorem fallback_iff_primary_empty query year_from year_to min_citations
    venue_arg max_results st working st1 :
  primary S2_API_KEY s2_get
    query year_from year_to min_citations venue_arg max_results st
  = (Ok working, st1) ->
  (working = [] ->
   forall secondary st2,
     _search_crossref cr_get query year_from year_to max_results st1
     = (secondary, st2) ->
     invoke S2_API_KEY s2_get cr_get
       query year_from year_to min_citations venue_arg max_results st
     = (obind secondary (fun l => Ok (slice_to max_results l)), st2)
     /\ sent st2
        = sent st1
          ++ [GetCrossref (cr_request_of query year_from year_to max_results)]
     /\ (0 <= max_results ->
         forall l,
           secondary = Ok l ->
           invoke S2_API_KEY s2_get cr_get
             query year_from year_to min_citations venue_arg max_results st
           = (Ok (take (Z.to_nat max_results) l), st2)))
  /\ (working <> [] ->
      invoke S2_API_KEY s2_get cr_get
        query year_from year_to min_citations venue_arg max_results st
      = (Ok (slice_to max_results working), st1)
      /\ crossref_calls (sent st1) = crossref_calls (sent st)).
Proof.
  intros Hp. split.
  - intros -> secondary st2 Hs.
    pose proof (invoke_fallback S2_API_KEY s2_get cr_get _ _ _ _ _ _ _ _ Hp)
      as Hi.
    rewrite Hs in Hi. simpl in Hi. split; [done|].
    split; [by eapply search_cr_sent|].
    intros Hmax l ->. rewrite Hi. simpl. by rewrite slice_to_nonneg.
  - intros Hne. split; [by apply invoke_working|].
    by eapply primary_crossref_calls.
Qed.

(** C5, amended.  [_venue_aliases] returns the alias list of the key that
    the trimmed, lowercased input equals; for a non-empty input that matches
    no key, the single-element list of the input as it was given, not
    trimmed; for an absent or empty input, the empty list. *)
Theorem venue_aliases_cases (v : option string) :
  let t := Text.lower (Text.strip (or_else v EmptyString)) in
  (forall vals, (t, vals) ∈ aliases -> _venue_aliases v = vals)
  /\ ((forall vals, (t, vals) ∉ aliases) ->
      forall s, v = Some s -> s <> EmptyString -> _venue_aliases v = [s])
  /\ (v = None \/ v = Some EmptyString -> _venue_aliases v = []).
Proof.
  intros t. split; [|split].
  - intros vals H. apply (alias_lookup_Some _ _ _ aliases_keys_NoDup) in H.
    unfold _venue_aliases. fold t. by rewrite H.
  - intros H s -> Hs. apply alias_lookup_None in H.
    unfold _venue_aliases. fold t. rewrite H.
    by rewrite (proj2 (TextFacts.truthy_Some (Some s) s)).
  - by intros [->| ->].
Qed.

(** C6, the failing input.  With [min_citations=0] and a response whose one
    item carries a null [citationCount], the primary client raises
    [TypeError], and so does [invoke]. *)
Theorem null_citation_count_raises :
  (_search_semantic_scholar None
     (Sample.s2_always [Sample.item "T" (Some 2021) Null (Some "Nature") None])
     "q" None None (Some 0) 5 Sample.start).1
  = Raise TypeError
  /\ (invoke None
        (Sample.s2_always
           [Sample.item "T" (Some 2021) Null (Some "Nature") None])
        Sample.cr_none "q" None None (Some 0) None 5 Sample.start).1
     = Raise TypeError.
Proof. split; vm_compute; reflexivity. Qed.

(** C7.  For an item of a primary response that the year bounds let through,
    wherever it stands in the response: with [min_citations=0] a count of 0
    is kept; with [min_citations=5] a count of 4 is excluded and a count of
    5 kept; with any bound [m], 0 included, a count [c] is excluded exactly
    when [c < m]; without [min_citations] the item is kept whatever its
    count. *)
Theorem min_citations_zero_is_a_filter query limit year_from year_to pre post
    it p st :
  body_of (s2_get (s2_request_of S2_API_KEY query limit) (world st)).1
  = Some {| s2_data := Val (pre ++ it :: post) |} ->
  before_year_from year_from (s2_year it) = false ->
  after_year_to year_to (s2_year it) = false ->
  s2_normalize it = Ok p ->
  (s2_citationCount it = Val 0 ->
   (_search_semantic_scholar S2_API_KEY s2_get
      query year_from year_to (Some 0) limit st).1
   = with_neighbours year_from year_to (Some 0) pre post [p])
  /\ (s2_citationCount it = Val 4 ->
      (_search_semantic_scholar S2_API_KEY s2_get
         query year_from year_to (Some 5) limit st).1
      = with_neighbours year_from year_to (Some 5) pre post [])
  /\ (s2_citationCount it = Val 5 ->
      (_search_semantic_scholar S2_API_KEY s2_get
         query year_from year_to (Some 5) limit st).1
      = with_neighbours year_from year_to (Some 5) pre post [p])
  /\ (forall m c,
        s2_citationCount it = Val c ->
        (_search_semantic_scholar S2_API_KEY s2_get
           query year_from year_to (Some m) limit st).1
        = with_neighbours year_from year_to (Some m) pre post
            (if c <? m then [] else [p]))
  /\ (_search_semantic_scholar S2_API_KEY s2_get
        query year_from year_to None limit st).1
     = with_neighbours year_from year_to None pre post [p].
Proof.
  intros Hbody Hf Ht Hn.
  assert (Hrun : forall mc,
             (_search_semantic_scholar S2_API_KEY s2_get
                query year_from year_to mc limit st).1
             = s2_collect year_from year_to mc (pre ++ it :: post)).
  { intros mc. rewrite search_s2_run. simpl. by rewrite Hbody. }
  assert (Hgen : forall m c,
             s2_citationCount it = Val c ->
             (_search_semantic_scholar S2_API_KEY s2_get
                query year_from year_to (Some m) limit st).1
             = with_neighbours year_from year_to (Some m) pre post
                 (if c <? m then [] else [p])).
  { intros m c Hc. rewrite Hrun.
    rewrite (s2_collect_around _ _ _ _ _ _ _
               (s2_step_counted _ _ m _ c p Hf Ht Hn Hc)).
    by destruct (c <? m). }
  repeat split.
  - intros Hc. apply (Hgen 0 0 Hc).
  - intros Hc. apply (Hgen 5 4 Hc).
  - intros Hc. apply (Hgen 5 5 Hc).
  - exact Hgen.
  - rewrite Hrun.
    by rewrite (s2_collect_around _ _ _ _ _ _ _
                  (s2_step_unfiltered _ _ _ p Hf Ht Hn)).
Qed.

(** C8, amended.  For [max_results >= 0] the list [invoke] returns is the
    first [max_results] elements, in order, of the untruncated list, and is
    no longer than [max_results]. *)
Theorem invoke_truncates query year_from year_to min_citations venue_arg
    max_results st full st' :
  0 <= max_results ->
  untruncated S2_API_KEY s2_get cr_get
    query year_from year_to min_citations venue_arg max_results st
  = (Ok full, st') ->
  invoke S2_API_KEY s2_get cr_get
    query year_from year_to min_citations venue_arg max_results st
  = (Ok (take (Z.to_nat max_results) full), st')
  /\ Z.of_nat (length (take (Z.to_nat max_results) full)) <= max_results.
Proof.
  intros Hmax Hu. rewrite invoke_of_untruncated, Hu. simpl.
  rewrite slice_to_nonneg by done. split; [done|].
  rewrite length_take. lia.
Qed.

(** C9.  A transport failure (network error, timeout, bad status, body that
    is not JSON) makes either client return the empty list.  For [invoke] as
    a whole such a failure is the same as an answer without records: result,
    requests sent and final state agree.  With every primary request failing,
    [invoke] still sends the base request and every alias request, then runs
    the fallback. *)
Theorem transport_failure_is_empty_result query year_from year_to
    min_citations venue_arg max_results st :
  (failed
     (s2_get (s2_request_of S2_API_KEY query max_results) (world st)).1 ->
   _search_semantic_scholar S2_API_KEY s2_get
     query year_from year_to min_citations max_results st
   = (Ok [],
      after_s2 s2_get st (s2_request_of S2_API_KEY query max_results)))
  /\ (failed
        (cr_get (cr_request_of query year_from year_to max_results)
           (world st)).1 ->
      _search_crossref cr_get query year_from year_to max_results st
      = (Ok [],
         after_cr cr_get st
           (cr_request_of query year_from year_to max_results)))
  /\ invoke S2_API_KEY (fail_soft s2_empty s2_get) (fail_soft cr_empty cr_get)
       query year_from year_to min_citations venue_arg max_results st
     = invoke S2_API_KEY s2_get cr_get
         query year_from year_to min_citations venue_arg max_results st
  /\ ((forall req w, failed (s2_get req w).1) ->
      exists st1,
        primary S2_API_KEY s2_get
          query year_from year_to min_citations venue_arg max_results st
        = (Ok [], st1)
        /\ sent st1
           = sent st
             ++ primary_requests S2_API_KEY query venue_arg max_results
        /\ invoke S2_API_KEY s2_get cr_get
             query year_from year_to min_citations venue_arg max_results st
           = (obind
                (_search_crossref cr_get
                   query year_from year_to max_results st1).1
                (fun l => Ok (slice_to max_results l)),
              (_search_crossref cr_get
                 query year_from year_to max_results st1).2)).
Proof.
  split; [|split; [|split]].
  - intros Hf. rewrite search_s2_run.
    by rewrite (proj1 (failed_body_of _) Hf).
  - intros Hf. rewrite search_cr_run.
    by rewrite (proj1 (failed_body_of _) Hf).
  - apply invoke_soft.
  - intros Hf.
    destruct (primary_all_failed S2_API_KEY s2_get query year_from year_to
                min_citations venue_arg max_results st Hf) as (st1 & Hp & Hs).
    exists st1. split; [done|]. split; [done|].
    by apply invoke_fallback.
Qed.

(** C10.  With a venue that is absent, empty or whitespace-only, [invoke]
    sends the base request and no alias request, and returns the base
    response cut by [[:max_results]] as it came, duplicates included; when
    the base response is empty it returns the Crossref response instead,
    cut the same way.  For [max_results >= 0] the cut is a truncation: the
    result is the first [max_results] records of that response, in order,
    and is no longer than [max_results]. *)
Theorem blank_venue_plain_search query year_from year_to min_citations
    venue_arg max_results st base st1 :
  venue_blank venue_arg ->
  _search_semantic_scholar S2_API_KEY s2_get
    query year_from year_to min_citations max_results st
  = (base, st1) ->
  sent st1 = sent st ++ [GetS2 (s2_request_of S2_API_KEY query max_results)]
  /\ match base with
     | Raise e =>
         invoke S2_API_KEY s2_get cr_get
           query year_from year_to min_citations venue_arg max_results st
         = (Raise e, st1)
     | Ok [] =>
         forall secondary st2,
           _search_crossref cr_get query year_from year_to max_results st1
           = (secondary, st2) ->
           invoke S2_API_KEY s2_get cr_get
             query year_from year_to min_citations venue_arg max_results st
           = (obind secondary (fun l => Ok (slice_to max_results l)), st2)
           /\ (0 <= max_results ->
               forall l,
                 secondary = Ok l ->
                 invoke S2_API_KEY s2_get cr_get
                   query year_from year_to min_citations venue_arg
                   max_results st
                 = (Ok (take (Z.to_nat max_results) l), st2)
                 /\ Z.of_nat (length (take (Z.to_nat max_results) l))
                    <= max_results)
     | Ok records =>
         invoke S2_API_KEY s2_get cr_get
           query year_from year_to min_citations venue_arg max_results st
         = (Ok (slice_to max_results records), st1)
         /\ (0 <= max_results ->
             invoke S2_API_KEY s2_get cr_get
               query year_from year_to min_citations venue_arg max_results st
             = (Ok (take (Z.to_nat max_results) records), st1)
             /\ Z.of_nat (length (take (Z.to_nat max_results) records))
                <= max_results)
     end.
Proof.
  intros Hv Hb. split; [by eapply search_s2_sent|].
  pose proof (primary_blank S2_API_KEY s2_get query year_from year_to
                min_citations venue_arg max_results st Hv) as Hp.
  rewrite Hb in Hp. destruct base as [[|r rs]|e].
  - intros secondary st2 Hs.
    rewrite (invoke_fallback S2_API_KEY s2_get cr_get _ _ _ _ _ _ _ _ Hp).
    rewrite Hs. simpl. split; [done|].
    intros Hmax l ->. simpl. rewrite slice_to_nonneg by done.
    split; [done|]. rewrite length_take. lia.
  - assert (Hne : r :: rs <> []) by done.
    rewrite (invoke_working S2_API_KEY s2_get cr_get _ _ _ _ _ _ _ _ _
               Hp Hne).
    split; [done|].
    intros Hmax. rewrite slice_to_nonneg by done.
    split; [done|]. rewrite length_take. lia.
  - rewrite invoke_of_untruncated. unfold untruncated, bind. by rewrite Hp.
Qed.

End Claims.

(** * The contract on sample answers *)

Module Examples.
Import Sample.

(** C1 as stated fails: venue ["NeurIPS"], one record published at NIPS and
    one at ICML.  No venue text contains ["neurips"], so [invoke] keeps both;
    a filter on the name or an alias would have kept the first and dropped
    the second. *)
Lemma alias_only_match_keeps_unfiltered :
  let A := record "A" (Some 2020) (Some 3) "NIPS" None in
  let B := record "B" (Some 2021) (Some 3) "ICML" None in
  (invoke None
     (s2_always [item "A" (Some 2020) (Val 3) (Some "NIPS") None;
                 item "B" (Some 2021) (Val 3) (Some "ICML") None])
     cr_none "q" None None None (Some "NeurIPS") 5 start).1 = Ok [A; B]
  /\ List.filter (matches_name_or_alias "NeurIPS") [A; B] = [A]
  /\ matches_name_or_alias "NeurIPS" B = false.
Proof. repeat split; vm_compute; reflexivity. Qed.

(** The amended C1 at work: venue ["Nature"], the base call returns a Nature
    and an ICML record, the alias call a known and a new record. *)
Lemma venue_filter_by_normalized_name_witness :
  (invoke None
     (s2_base_and_alias
        [item "A" (Some 2020) (Val 3) (Some "Nature") None;
         item "B" (Some 2021) (Val 3) (Some "ICML") None]
        "Nature"
        [item "A" (Some 2020) (Val 3) (Some "Nature") None;
         item "C" (Some 2022) (Val 3) (Some "Nature Communications") None])
     cr_none "q" None None None (Some "Nature") 5 start).1
  = Ok [record "A" (Some 2020) (Some 3) "Nature" None;
        record "C" (Some 2022) (Some 3) "Nature Communications" None].
Proof.
  edestruct (venue_filter_by_normalized_name None
               (s2_base_and_alias
                  [item "A" (Some 2020) (Val 3) (Some "Nature") None;
                   item "B" (Some 2021) (Val 3) (Some "ICML") None]
                  "Nature"
                  [item "A" (Some 2020) (Val 3) (Some "Nature") None;
                   item "C" (Some 2022) (Val 3)
                     (Some "Nature Communications") None])
               cr_none "q" None None None "Nature" 5 start) as [H _].
  - vm_compute; reflexivity.
  - vm_compute; reflexivity.
  - vm_compute; reflexivity.
  - destruct H as [H _]; [vm_compute; discriminate|].
    rewrite H. vm_compute. reflexivity.
Defined.

(** C2 as stated fails: a DOI that is already a URL is prefixed again, by
    either normalizer. *)
Lemma doi_url_prefixed_again :
  obind (s2_normalize (item "T" None Missing None (Some "10.1038/xyz")))
    (fun p => Ok (doi p))
  = Ok (Some "https://doi.org/10.1038/xyz")
  /\ obind
       (s2_normalize
          (item "T" None Missing None (Some "https://doi.org/10.1038/xyz")))
       (fun p => Ok (doi p))
     = Ok (Some "https://doi.org/https://doi.org/10.1038/xyz")
  /\ obind (cr_normalize (cr_item_of "T" (Some "10.1038/xyz")))
       (fun p => Ok (doi p))
     = Ok (Some "https://doi.org/10.1038/xyz")
  /\ obind
       (cr_normalize (cr_item_of "T" (Some "https://doi.org/10.1038/xyz")))
       (fun p => Ok (doi p))
     = Ok (Some "https://doi.org/https://doi.org/10.1038/xyz").
Proof. repeat split; vm_compute; reflexivity. Qed.

Lemma doi_bare_identifier_prefixed_witness :
  (exists p,
     s2_normalize (item "T" None Missing None (Some "10.1038/xyz")) = Ok p
     /\ doi p = Some "https://doi.org/10.1038/xyz")
  /\ (exists p,
        cr_normalize (cr_item_of "T" (Some "10.1038/xyz")) = Ok p
        /\ doi p = Some "https://doi.org/10.1038/xyz").
Proof.
  destruct (doi_bare_identifier_prefixed "10.1038/xyz") as [H1 H2];
    [discriminate|].
  split.
  - apply (H1 (item "T" None Missing None (Some "10.1038/xyz")) no_authors);
      reflexivity.
  - apply (H2 (cr_item_of "T" (Some "10.1038/xyz")) no_authors None);
      reflexivity.
Defined.

(** C3 as stated fails: duplicates inside the base response are never
    compared.  Two records with the same DOI and different titles, and two
    identical records without DOI, all come back, venue given. *)
Lemma base_duplicates_both_kept :
  let A := record "First title" (Some 2020) (Some 1) "Nature"
             (Some "https://doi.org/10.1/ABC") in
  let B := record "Second title" (Some 2020) (Some 1) "Nature"
             (Some "https://doi.org/10.1/abc") in
  let C := record "Same title" (Some 2019) (Some 1) "Nature" None in
  (invoke None
     (s2_always
        [item "First title" (Some 2020) (Val 1) (Some "Nature")
           (Some "10.1/ABC");
         item "Second title" (Some 2020) (Val 1) (Some "Nature")
           (Some "10.1/abc");
         item "Same title" (Some 2019) (Val 1) (Some "Nature") None;
         item "Same title" (Some 2019) (Val 1) (Some "Nature") None])
     cr_none "q" None None None (Some "Nature") 5 start).1
  = Ok [A; B; C; C]
  /\ _dedupe_key A = _dedupe_key B
  /\ title A = "First title" /\ title B = "Second title".
Proof. repeat split; vm_compute; reflexivity. Qed.

Lemma merge_keeps_first_of_each_key_witness :
  let A := record "First title" (Some 2020) (Some 1) "Nature"
             (Some "https://doi.org/10.1/ABC") in
  let B := record "Second title" (Some 2020) (Some 1) "Nature"
             (Some "https://doi.org/10.1/abc") in
  let C := record "Same title" (Some 2019) (Some 1) "Nature" None in
  let C' := record "SAME TITLE" (Some 2019) (Some 7) "Nature" None in
  let D := record "Same title" (Some 2021) (Some 1) "Nature" None in
  merge_more [B] [A] (keys_of [A]) = merge_more [] [A] (keys_of [A])
  /\ merge_more [C'] [C] (keys_of [C]) = merge_more [] [C] (keys_of [C])
  /\ _dedupe_key C <> _dedupe_key D
  /\ D ∈ (merge_more [D] [C] (keys_of [C])).1.
Proof.
  intros A B C C' D.
  assert (HA : A ∈ [A] ++ []) by (by left).
  assert (HC : C ∈ [C] ++ []) by (by left).
  destruct (merge_keeps_first_of_each_key [A] [] [] A B HA)
    as (Hdoi & _).
  destruct (merge_keeps_first_of_each_key [C] [] [] C C' HC)
    as (_ & Htitle & _).
  destruct (merge_keeps_first_of_each_key [C] [] [] C D HC)
    as (_ & _ & Hyear & Hkept & _).
  split; [|split; [|split]].
  - apply (Hdoi "https://doi.org/10.1/ABC" "https://doi.org/10.1/abc");
      [reflexivity|reflexivity|discriminate|discriminate|reflexivity].
  - apply Htitle; [by left|by left|reflexivity|reflexivity].
  - apply Hyear; [by left|by left|discriminate].
  - apply Hkept. intros r ->%list_elem_of_singleton. vm_compute. discriminate.
Defined.

(** C4 at work: the primary provider is down, Crossref knows one paper; and
    a primary provider that answers keeps Crossref out. *)
Lemma fallback_iff_primary_empty_witness :
  (invoke None s2_down
     (cr_always (Json (cr_items_body [cr_item_of "F" (Some "10.5/f")])))
     "q" (Some 2020) None None (Some "Nature") 5 start).1
  = Ok [cr_record "F" (Some "https://doi.org/10.5/f")]
  /\ (invoke None
        (s2_always [item "A" (Some 2020) (Val 3) (Some "Nature") None])
        (cr_always (Json (cr_items_body [cr_item_of "F" (Some "10.5/f")])))
        "q" (Some 2020) None None (Some "Nature") 5 start).1
     = Ok [record "A" (Some 2020) (Some 3) "Nature" None].
Proof.
  split.
  - edestruct (fallback_iff_primary_empty None s2_down
                 (cr_always
                    (Json (cr_items_body [cr_item_of "F" (Some "10.5/f")])))
                 "q" (Some 2020) None None (Some "Nature") 5 start) as [H _].
    + vm_compute; reflexivity.
    + edestruct H as [Hi _]; [reflexivity|vm_compute; reflexivity|].
      rewrite Hi. vm_compute. reflexivity.
  - edestruct (fallback_iff_primary_empty None
                 (s2_always
                    [item "A" (Some 2020) (Val 3) (Some "Nature") None])
                 (cr_always
                    (Json (cr_items_body [cr_item_of "F" (Some "10.5/f")])))
                 "q" (Some 2020) None None (Some "Nature") 5 start) as [_ H].
    + vm_compute; reflexivity.
    + destruct H as [Hi _]; [discriminate|].
      rewrite Hi. vm_compute. reflexivity.
Defined.

(** C5 as stated fails: the input is returned as given, not trimmed, and a
    whitespace-only input is returned too. *)
Lemma venue_aliases_untrimmed :
  ~ (_venue_aliases (Some " Workshop X ") = [Text.strip " Workshop X "])
  /\ ~ (_venue_aliases (Some "   ") = []).
Proof. split; vm_compute; discriminate. Qed.

Lemma venue_aliases_cases_witness :
  _venue_aliases (Some " NeurIPS ")
  = ["NeurIPS"; "NIPS"; "Neural Information Processing Systems";
     "Advances in Neural Information Processing Systems"]
  /\ _venue_aliases (Some " Workshop X ") = [" Workshop X "]
  /\ _venue_aliases (Some EmptyString) = [].
Proof.
  split; [|split].
  - apply (venue_aliases_cases (Some " NeurIPS ")).
    apply (bool_decide_unpack _). vm_compute. exact I.
  - apply (venue_aliases_cases (Some " Workshop X ")); [|done|done].
    apply alias_lookup_None. reflexivity.
  - apply (venue_aliases_cases (Some EmptyString)). by right.
Defined.

(** C7 at work on one-item responses. *)
Lemma min_citations_zero_is_a_filter_witness :
  (_search_semantic_scholar None
     (s2_always [item "T" (Some 2021) (Val 0) (Some "Nature") None])
     "q" None None (Some 0) 5 start).1
  = Ok [record "T" (Some 2021) (Some 0) "Nature" None]
  /\ (_search_semantic_scholar None
        (s2_always [item "T" (Some 2021) (Val 4) (Some "Nature") None])
        "q" None None (Some 5) 5 start).1
     = Ok []
  /\ (_search_semantic_scholar None
        (s2_always [item "T" (Some 2021) (Val 5) (Some "Nature") None])
        "q" None None (Some 5) 5 start).1
     = Ok [record "T" (Some 2021) (Some 5) "Nature" None]
  /\ (_search_semantic_scholar None
        (s2_always [item "T" (Some 2021) (Val 0) (Some "Nature") None])
        "q" None None None 5 start).1
     = Ok [record "T" (Some 2021) (Some 0) "Nature" None].
Proof.
  destruct (min_citations_zero_is_a_filter None
              (s2_always [item "T" (Some 2021) (Val 0) (Some "Nature") None])
              "q" 5 None None [] []
              (item "T" (Some 2021) (Val 0) (Some "Nature") None)
              (record "T" (Some 2021) (Some 0) "Nature" None) start
              eq_refl eq_refl eq_refl eq_refl) as (H0 & _ & _ & _ & Hnone).
  destruct (min_citations_zero_is_a_filter None
              (s2_always [item "T" (Some 2021) (Val 4) (Some "Nature") None])
              "q" 5 None None [] []
              (item "T" (Some 2021) (Val 4) (Some "Nature") None)
              (record "T" (Some 2021) (Some 4) "Nature" None) start
              eq_refl eq_refl eq_refl eq_refl) as (_ & H4 & _).
  destruct (min_citations_zero_is_a_filter None
              (s2_always [item "T" (Some 2021) (Val 5) (Some "Nature") None])
              "q" 5 None None [] []
              (item "T" (Some 2021) (Val 5) (Some "Nature") None)
              (record "T" (Some 2021) (Some 5) "Nature" None) start
              eq_refl eq_refl eq_refl eq_refl) as (_ & _ & H5 & _).
  split; [exact (H0 eq_refl)|].
  split; [exact (H4 eq_refl)|].
  split; [exact (H5 eq_refl)|exact Hnone].
Defined.

(** C8 as stated fails: with [max_results=-1] the slice drops the last
    record only, and no list is shorter than -1. *)
Lemma negative_max_results_overruns :
  exists l,
    (invoke None
       (s2_always [item "A" None Missing (Some "Nature") None;
                   item "B" None Missing (Some "Nature") None;
                   item "C" None Missing (Some "Nature") None])
       cr_none "q" None None None None (-1) start).1 = Ok l
    /\ Z.of_nat (length l) = 2
    /\ ~ (Z.of_nat (length l) <= -1).
Proof.
  eexists. split; [vm_compute; reflexivity|]. split; [done|]. simpl. lia.
Qed.

Lemma invoke_truncates_witness :
  (invoke None
     (s2_always [item "A" None Missing (Some "Nature") None;
                 item "B" None Missing (Some "Nature") None;
                 item "C" None Missing (Some "Nature") None])
     cr_none "q" None None None None 2 start).1
  = Ok [record "A" None None "Nature" None;
        record "B" None None "Nature" None].
Proof.
  edestruct (invoke_truncates None
               (s2_always [item "A" None Missing (Some "Nature") None;
                           item "B" None Missing (Some "Nature") None;
                           item "C" None Missing (Some "Nature") None])
               cr_none "q" None None None None 2 start) as [H _].
  - lia.
  - vm_compute; reflexivity.
  - rewrite H. vm_compute. reflexivity.
Defined.

(** C9 at work: both providers down, venue ["Nature"].  The base request,
    the alias request and the Crossref request are all sent, and the result
    is the empty list. *)
Lemma transport_failure_is_empty_result_witness :
  invoke None s2_down (cr_always Timeout) "q" None None None (Some "Nature")
    5 start
  = (Ok [],
     {| world := tt;
        sent := [GetS2 (s2_request_of None "q" 5);
                 GetS2 (s2_request_of None "q Nature" 5);
                 GetCrossref (cr_request_of "q" None None 5)] |}).
Proof.
  destruct (transport_failure_is_empty_result None s2_down (cr_always Timeout)
              "q" None None None (Some "Nature") 5 start)
    as (_ & _ & _ & H).
  destruct H as (st1 & Hp & Hs & Hi); [intros req w; exact I|].
  rewrite Hi.
  destruct (transport_failure_is_empty_result None s2_down (cr_always Timeout)
              "q" None None None (Some "Nature") 5 st1)
    as (_ & Hcr & _).
  rewrite (Hcr I). simpl. unfold after_cr. rewrite Hs.
  destruct st1 as [[] log]. reflexivity.
Defined.

(** C10 at work.  A whitespace-only venue and a base response that holds
    the same paper twice, then a third record: with [max_results = 2] the
    two copies come back and the third record is cut off.  No venue and an
    empty base response: the first two of three Crossref records come
    back. *)
Lemma blank_venue_plain_search_witness :
  let A := record "A" (Some 2020) (Some 3) "Nature"
             (Some "https://doi.org/10.1/a") in
  (invoke None
     (s2_always [item "A" (Some 2020) (Val 3) (Some "Nature") (Some "10.1/a");
                 item "A" (Some 2020) (Val 3) (Some "Nature") (Some "10.1/a");
                 item "B" (Some 2021) (Val 3) (Some "ICML") None])
     cr_none "q" None None None (Some "  ") 2 start).1
  = Ok [A; A]
  /\ (invoke None (s2_always [])
        (cr_always
           (Json (cr_items_body
                    [cr_item_of "X" None; cr_item_of "Y" None;
                     cr_item_of "Z" None])))
        "q" None None None None 2 start).1
     = Ok [cr_record "X" None; cr_record "Y" None].
Proof.
  intros A. split.
  - edestruct (blank_venue_plain_search None
                 (s2_always
                    [item "A" (Some 2020) (Val 3) (Some "Nature")
                       (Some "10.1/a");
                     item "A" (Some 2020) (Val 3) (Some "Nature")
                       (Some "10.1/a");
                     item "B" (Some 2021) (Val 3) (Some "ICML") None])
                 cr_none "q" None None None (Some "  ") 2 start) as [_ H].
    + right. exists "  ". split; reflexivity.
    + vm_compute; reflexivity.
    + simpl in H. destruct H as [_ H]. destruct H as [H _]; [lia|].
      rewrite H. vm_compute. reflexivity.
  - edestruct (blank_venue_plain_search None (s2_always [])
                 (cr_always
                    (Json (cr_items_body
                             [cr_item_of "X" None; cr_item_of "Y" None;
                              cr_item_of "Z" None])))
                 "q" None None None None 2 start) as [_ H].
    + left. reflexivity.
    + vm_compute; reflexivity.
    + simpl in H.
      edestruct H as [_ H2]; [vm_compute; reflexivity|].
      edestruct H2 as [H3 _]; [lia|vm_compute; reflexivity|].
      rewrite H3. vm_compute. reflexivity.
Defined.

End Examples.

(** * Further properties of the search tool *)

(** ** More text lemmas *)

Module TextMore.
Import Text.

Lemma lower_app s t : lower (s +:+ t) = lower s +:+ lower t.
Proof. induction s as [|c r IH]; simpl; [done|]. by rewrite IH. Qed.

Lemma lower_char_idem c : lower_char (lower_char c) = lower_char c.
Proof.
  unfold lower_char. destruct (is_upper c) eqn:E; [|by rewrite E].
  unfold is_upper in *.
  apply andb_prop in E as [H1 H2].
  apply Nat.leb_le in H1, H2.
  rewrite nat_ascii_embedding by lia.
  replace ((65 <=? nat_of_ascii c + 32) && (nat_of_ascii c + 32 <=? 90))%nat
    with false; [done|].
  symmetry. apply andb_false_iff. right. apply Nat.leb_gt. lia.
Qed.

(** Lowercasing twice is lowercasing once. *)
Lemma lower_idem s : lower (lower s) = lower s.
Proof.
  induction s as [|c r IH]; simpl; [done|].
  by rewrite lower_char_idem, IH.
Qed.

Lemma lower_empty s : lower s = EmptyString <-> s = EmptyString.
Proof. by destruct s. Qed.

Lemma prefix_nil s : String.prefix EmptyString s = true.
Proof. by destruct s. Qed.

Lemma contains_nil s : contains EmptyString s = true.
Proof. destruct s; simpl; [done|]. done. Qed.

Lemma contains_in_nil n : contains n EmptyString = true -> n = EmptyString.
Proof. destruct n; simpl; [done|]. done. Qed.

Lemma prefix_app_l n s t :
  String.prefix n s = true -> String.prefix n (s +:+ t) = true.
Proof.
  revert s. induction n as [|c n IH]; intros s; [intros _; apply prefix_nil|].
  destruct s as [|d s]; simpl; [done|].
  destruct (ascii_dec c d); [|done]. apply IH.
Qed.

(** A needle found in [s] is found in [s] followed by anything. *)
Lemma contains_app_l n s t :
  contains n s = true -> contains n (s +:+ t) = true.
Proof.
  induction s as [|d s IH].
  - intros ->%contains_in_nil. apply contains_nil.
  - cbn [contains]. intros [H|H]%orb_prop.
    + change (String d s +:+ t) with (String d (s +:+ t)).
      cbn [contains].
      change (String d (s +:+ t)) with (String d s +:+ t).
      by rewrite (prefix_app_l _ _ t H).
    + change (String d s +:+ t) with (String d (s +:+ t)).
      cbn [contains]. rewrite (IH H). apply orb_true_r.
Qed.

(** A needle found in [t] is found in [t] preceded by anything. *)
Lemma contains_app_r n s t :
  contains n t = true -> contains n (s +:+ t) = true.
Proof.
  intros H. induction s as [|d s IH]; [done|].
  change (String d s +:+ t) with (String d (s +:+ t)).
  cbn [contains]. rewrite IH. apply orb_true_r.
Qed.

Lemma length_app s t :
  String.length (s +:+ t) = (String.length s + String.length t)%nat.
Proof. induction s as [|c r IH]; simpl; [done|]. by rewrite IH. Qed.

(** A common suffix can be cancelled. *)
Lemma app_inv_tail s1 s2 u : s1 +:+ u = s2 +:+ u -> s1 = s2.
Proof.
  revert s2. induction s1 as [|c s1 IH]; intros [|d s2] H.
  - done.
  - apply (f_equal String.length) in H.
    rewrite !length_app in H. simpl in H. lia.
  - apply (f_equal String.length) in H.
    rewrite !length_app in H. simpl in H. lia.
  - change (String c s1 +:+ u) with (String c (s1 +:+ u)) in H.
    change (String d s2 +:+ u) with (String d (s2 +:+ u)) in H.
    injection H as -> H. f_equal. by apply IH.
Qed.

Lemma or_else_nonempty o d : d <> EmptyString -> or_else o d <> EmptyString.
Proof.
  intros Hd. unfold or_else. destruct (truthy o) as [s|] eqn:E; [|done].
  by apply TextFacts.truthy_Some in E as [_ ?].
Qed.

Lemma truthy_None o : truthy o = None <-> o = None \/ o = Some EmptyString.
Proof. destruct o as [[|c r]|]; simpl; intuition congruence. Qed.

End TextMore.

(** ** The primary client's loop, read backwards *)

Lemma s2_step_kept year_from year_to min_citations it p :
  s2_step year_from year_to min_citations it = Ok (Some p) ->
  s2_passes year_from year_to min_citations it = true
  /\ s2_normalize it = Ok p.
Proof.
  unfold s2_step, s2_passes, below_min_citations.
  destruct (before_year_from _ _); [done|].
  destruct (after_year_to _ _); [done|].
  destruct min_citations as [m|]; simpl.
  - destruct (s2_citationCount it) as [| |c]; simpl; [|done|].
    + destruct (0 <? m); [done|]. simpl.
      destruct (s2_normalize it); simpl; [|done]. by intros [= ->].
    + destruct (c <? m); [done|]. simpl.
      destruct (s2_normalize it); simpl; [|done]. by intros [= ->].
  - destruct (s2_normalize it); simpl; [|done]. by intros [= ->].
Qed.

Lemma s2_step_skipped year_from year_to min_citations it :
  s2_step year_from year_to min_citations it = Ok None ->
  s2_passes year_from year_to min_citations it = false.
Proof.
  unfold s2_step, s2_passes, below_min_citations.
  destruct (before_year_from _ _); [done|].
  destruct (after_year_to _ _); [done|].
  destruct min_citations as [m|]; simpl.
  - destruct (s2_citationCount it) as [| |c]; simpl; [|done|].
    + destruct (0 <? m); [done|]. simpl.
      by destruct (s2_normalize it).
    + destruct (c <? m); [done|]. simpl.
      by destruct (s2_normalize it).
  - by destruct (s2_normalize it).
Qed.

(** The loop returns the normalized passing items, in order. *)
Lemma s2_collect_filter year_from year_to min_citations items out :
  s2_collect year_from year_to min_citations items = Ok out ->
  Forall2 (fun it p => s2_normalize it = Ok p)
    (List.filter (s2_passes year_from year_to min_citations) items) out.
Proof.
  revert out. induction items as [|it rest IH]; intros out; simpl.
  - intros [= <-]. constructor.
  - destruct (s2_step year_from year_to min_citations it) as [[p|]|e] eqn:E;
      simpl; [| |done].
    + apply s2_step_kept in E as [-> Hn].
      destruct (s2_collect _ _ _ rest) as [out'|e]; simpl; [|done].
      intros [= <-]. constructor; [done|]. by apply IH.
    + apply s2_step_skipped in E as ->.
      destruct (s2_collect _ _ _ rest) as [out'|e]; simpl; [|done].
      intros [= <-]. by apply IH.
Qed.

Lemma s2_normalize_fields it p :
  s2_normalize it = Ok p ->
  year p = s2_year it
  /\ citations p
     = match s2_citationCount it with Val c => Some c | _ => None end.
Proof.
  unfold s2_normalize. destruct (s2_authors_text it); simpl; [|done].
  by intros [= <-].
Qed.

Lemma passes_year_from year_from year_to min_citations it f y :
  s2_passes year_from year_to min_citations it = true ->
  year_from = Some f -> f <> 0 -> s2_year it = Some y -> y <> 0 -> f <= y.
Proof.
  unfold s2_passes, before_year_from, truthy_int.
  intros H Hyf Hf Hyr Hy. rewrite Hyf, Hyr in H.
  rewrite (proj2 (Z.eqb_neq f 0) Hf), (proj2 (Z.eqb_neq y 0) Hy) in H.
  apply andb_prop in H as [H _]. apply andb_prop in H as [H _].
  apply negb_true_iff, Z.ltb_ge in H. lia.
Qed.

Lemma passes_year_to year_from year_to min_citations it t y :
  s2_passes year_from year_to min_citations it = true ->
  year_to = Some t -> t <> 0 -> s2_year it = Some y -> y <> 0 -> y <= t.
Proof.
  unfold s2_passes, after_year_to, truthy_int.
  intros H Hyt Ht Hyr Hy. rewrite Hyt, Hyr in H.
  rewrite (proj2 (Z.eqb_neq t 0) Ht), (proj2 (Z.eqb_neq y 0) Hy) in H.
  apply andb_prop in H as [H _]. apply andb_prop in H as [_ H].
  apply negb_true_iff, Z.ltb_ge in H. lia.
Qed.

Lemma passes_min_citations year_from year_to it m :
  s2_passes year_from year_to (Some m) it = true ->
  m <= default 0
         (match s2_citationCount it with Val c => Some c | _ => None end)
  \/ s2_citationCount it = Null.
Proof.
  unfold s2_passes. intros H. apply andb_prop in H as [_ H].
  destruct (s2_citationCount it) as [| |c]; simpl in *.
  - left. apply negb_true_iff, Z.ltb_ge in H. lia.
  - by right.
  - left. apply negb_true_iff, Z.ltb_ge in H. lia.
Qed.

Lemma s2_step_kept_count year_from year_to m it p :
  s2_step year_from year_to (Some m) it = Ok (Some p) ->
  s2_citationCount it <> Null.
Proof.
  unfold s2_step, below_min_citations.
  destruct (before_year_from _ _); [done|].
  destruct (after_year_to _ _); [done|].
  by destruct (s2_citationCount it).
Qed.

(** Every record of the loop's output comes from an item that was kept. *)
Lemma s2_collect_elem year_from year_to min_citations items out p :
  s2_collect year_from year_to min_citations items = Ok out ->
  p ∈ out ->
  exists it,
    it ∈ items /\ s2_step year_from year_to min_citations it = Ok (Some p).
Proof.
  revert out. induction items as [|it rest IH]; intros out; simpl.
  - intros [= <-] H. by apply elem_of_nil in H.
  - destruct (s2_step year_from year_to min_citations it) as [o|e] eqn:E;
      simpl; [|done].
    destruct (s2_collect _ _ _ rest) as [out'|e]; simpl; [|done].
    intros [= <-] [Hp|Hp]%elem_of_app.
    + destruct o as [q|]; simpl in Hp; [|by apply elem_of_nil in Hp].
      apply list_elem_of_singleton in Hp as ->.
      exists it. split; [by left|done].
    + destruct (IH out' eq_refl Hp) as (it' & Hin & Hs).
      exists it'. split; [by right|done].
Qed.

Section ClientProperties.

Context {World : Type}.
Variable S2_API_KEY : option string.
Variable s2_get : s2_request -> World -> http_result s2_body * World.
Variable cr_get : cr_request -> World -> http_result cr_body * World.

(** X1.  Every record the primary client returns passes the filters it was
    called with: a known, non-zero year lies within the non-zero bounds, and
    the citation count (taken as 0 when the provider gave none) is at least
    [min_citations]. *)
Theorem primary_records_pass_filters query year_from year_to min_citations
    limit st out st' p :
  _search_semantic_scholar S2_API_KEY s2_get
    query year_from year_to min_citations limit st
  = (Ok out, st') ->
  p ∈ out ->
  (forall f y,
     year_from = Some f -> f <> 0 -> year p = Some y -> y <> 0 -> f <= y)
  /\ (forall t y,
        year_to = Some t -> t <> 0 -> year p = Some y -> y <> 0 -> y <= t)
  /\ (forall m, min_citations = Some m -> m <= default 0 (citations p)).
Proof.
  rewrite search_s2_run. intros [= Hout _] Hp.
  assert (exists it,
             s2_step year_from year_to min_citations it = Ok (Some p))
    as (it & Hstep).
  { destruct (body_of _) as [data|]; [|injection Hout as <-;
                                        by apply elem_of_nil in Hp].
    unfold s2_parse in Hout.
    destruct (s2_data data) as [| |items]; [|done|].
    - injection Hout as <-. by apply elem_of_nil in Hp.
    - destruct (s2_collect_elem _ _ _ _ _ _ Hout Hp) as (it & _ & Hs).
      by exists it. }
  pose proof (s2_step_kept _ _ _ _ _ Hstep) as [Hpass Hn].
  apply s2_normalize_fields in Hn as [Hy Hc].
  split; [|split].
  - intros f y Hf Hf0 Hyp Hy0. rewrite Hy in Hyp.
    by eapply passes_year_from.
  - intros t y Ht Ht0 Hyp Hy0. rewrite Hy in Hyp.
    by eapply passes_year_to.
  - intros m ->. rewrite Hc.
    destruct (passes_min_citations _ _ _ _ Hpass) as [H|H]; [done|].
    by apply s2_step_kept_count in Hstep.
Qed.

(** X2.  When the provider answers with a list of items, the primary client
    returns the normalization of exactly the items that pass the filters, in
    the provider's order; the list is not cut to [limit]. *)
Theorem primary_output_in_provider_order query year_from year_to
    min_citations limit st items out st' :
  body_of (s2_get (s2_request_of S2_API_KEY query limit) (world st)).1
  = Some {| s2_data := Val items |} ->
  _search_semantic_scholar S2_API_KEY s2_get
    query year_from year_to min_citations limit st
  = (Ok out, st') ->
  Forall2 (fun it p => s2_normalize it = Ok p)
    (List.filter (s2_passes year_from year_to min_citations) items) out.
Proof.
  intros Hbody. rewrite search_s2_run, Hbody. simpl.
  intros [= Hout _]. by apply s2_collect_filter.
Qed.

End ClientProperties.

(** ** The normalizers *)

(** X3.  A record of the Semantic Scholar normalizer has a non-empty title,
    author text and abstract (the placeholders stand in), carries the
    provider's year, and its [doi] is absent or [https://doi.org/] followed
    by a non-empty identifier, never the empty string. *)
Theorem s2_record_invariants it p :
  s2_normalize it = Ok p ->
  title p <> EmptyString
  /\ authors p <> EmptyString
  /\ abstract p <> EmptyString
  /\ source p = "Semantic Scholar"
  /\ year p = s2_year it
  /\ (doi p = None
      \/ exists d, d <> EmptyString /\ doi p = Some ("https://doi.org/" +:+ d)).
Proof.
  unfold s2_normalize, s2_authors_text.
  destruct (s2_authors it) as [| |l]; simpl; [|done|].
  - intros [= <-]. simpl.
    split; [by apply TextMore.or_else_nonempty|].
    split; [done|]. split; [by apply TextMore.or_else_nonempty|].
    split; [done|]. split; [done|].
    unfold doi_url_of.
    destruct (Text.truthy _) as [d|] eqn:E; [|by left].
    right. exists d. by apply TextFacts.truthy_Some in E as [_ ?].
  - destruct (s2_author_names l) as [ns|]; simpl; [|done].
    intros [= <-]. simpl.
    split; [by apply TextMore.or_else_nonempty|].
    split; [by apply TextMore.or_else_nonempty|].
    split; [by apply TextMore.or_else_nonempty|].
    split; [done|]. split; [done|].
    unfold doi_url_of.
    destruct (Text.truthy _) as [d|] eqn:E; [|by left].
    right. exists d. by apply TextFacts.truthy_Some in E as [_ ?].
Qed.

(** X4.  A record of the Crossref normalizer never has a citation count or
    a PDF link, matches on the same text it displays ([venue_all] is
    [venue], never the empty string), has a non-empty author text and
    abstract, and links to the DOI whenever there is one, else to the
    provider's URL.  Its title is empty only when the provider's title array
    starts with an empty string. *)
Theorem crossref_record_invariants it p :
  cr_normalize it = Ok p ->
  citations p = None
  /\ pdf p = None
  /\ venue_all p = venue p
  /\ venue p <> Some EmptyString
  /\ authors p <> EmptyString
  /\ abstract p <> EmptyString
  /\ source p = "Crossref"
  /\ (forall d, doi p = Some d -> url p = Some d)
  /\ (doi p = None -> url p = cr_URL it)
  /\ (title p = EmptyString ->
      exists rest, cr_title it = Some (EmptyString :: rest)).
Proof.
  unfold cr_normalize.
  destruct (cr_authors_text it) as [a|] eqn:Ea; simpl; [|done].
  destruct (cr_year it) as [y|]; simpl; [|done].
  intros [= <-]. simpl.
  split; [done|]. split; [done|]. split; [done|].
  split.
  { by destruct (first_or (cr_container_title it) EmptyString). }
  split.
  { unfold cr_authors_text in Ea.
    destruct (cr_author_list it); [by injection Ea as <-|done|].
    injection Ea as <-. by apply TextMore.or_else_nonempty. }
  split; [done|]. split; [done|].
  split; [|split].
  - intros d H. by rewrite H.
  - by intros ->.
  - unfold first_or. destruct (cr_title it) as [[|t rest]|]; [done| |done].
    intros ->. by exists rest.
Qed.

(** The venue text of a Semantic Scholar record: the short name and the
    full name, joined when both are there. *)
Lemma s2_venue_text it p :
  s2_normalize it = Ok p ->
  venue_text p
  = match
      Text.truthy (s2_venue it),
      Text.truthy (sub_get (s2_publicationVenue it) pv_name)
    with
    | Some v, Some n => v +:+ " | " +:+ n
    | Some v, None => v
    | None, Some n => n
    | None, None => EmptyString
    end.
Proof.
  unfold s2_normalize.
  destruct (s2_authors_text it) as [a|]; simpl; [|done].
  intros [= <-]. unfold venue_text, or_else. simpl.
  destruct (Text.truthy (s2_venue it)) as [v|] eqn:Ev;
    destruct (Text.truthy (sub_get _ _)) as [n|] eqn:En; simpl.
  - apply TextFacts.truthy_Some in Ev as [_ Hv].
    by destruct v.
  - apply TextFacts.truthy_Some in Ev as [_ Hv]. by destruct v.
  - apply TextFacts.truthy_Some in En as [_ Hn]. by destruct n.
  - done.
Qed.

(** X5.  The short venue name and the full name of the publication venue can
    both be matched through the text the venue filter reads: a needle found
    in either, lowercased, is found in the lowercased venue text of the
    record. *)
Theorem venue_text_covers_both_names it p needle :
  s2_normalize it = Ok p ->
  (forall v,
     s2_venue it = Some v ->
     Text.contains needle (Text.lower v) = true ->
     Text.contains needle (Text.lower (venue_text p)) = true)
  /\ (forall pv n,
        s2_publicationVenue it = Some pv ->
        pv_name pv = Some n ->
        Text.contains needle (Text.lower n) = true ->
        Text.contains needle (Text.lower (venue_text p)) = true).
Proof.
  intros Hp. rewrite (s2_venue_text it p Hp).
  assert (Hempty : forall o s,
             o = Some s -> Text.truthy o = None ->
             Text.contains needle (Text.lower s) = true ->
             needle = EmptyString).
  { intros o s -> [?| [= ->]]%TextMore.truthy_None Hc; [done|].
    by apply (TextMore.contains_in_nil needle) in Hc. }
  split.
  - intros v Hv Hc.
    destruct (Text.truthy (s2_venue it)) as [v'|] eqn:Ev.
    + rewrite Hv in Ev. apply TextFacts.truthy_Some in Ev as [[= <-] _].
      destruct (Text.truthy (sub_get _ _)) as [n|]; [|done].
      rewrite TextMore.lower_app. by apply TextMore.contains_app_l.
    + rewrite (Hempty _ _ Hv Ev Hc). apply TextMore.contains_nil.
  - intros pv n Hpv Hn Hc.
    assert (Hfull : sub_get (s2_publicationVenue it) pv_name = Some n).
    { by rewrite Hpv. }
    destruct (Text.truthy (sub_get _ _)) as [n'|] eqn:En.
    + rewrite Hfull in En. apply TextFacts.truthy_Some in En as [[= <-] _].
      destruct (Text.truthy (s2_venue it)) as [v|]; [|done].
      rewrite !TextMore.lower_app.
      by apply TextMore.contains_app_r, TextMore.contains_app_r.
    + rewrite (Hempty _ _ Hfull En Hc). apply TextMore.contains_nil.
Qed.

(** ** The secondary client's loop *)

Lemma cr_collect_app l1 l2 :
  cr_collect (l1 ++ l2)
  = obind (cr_collect l1) (fun a =>
      obind (cr_collect l2) (fun b => Ok (a ++ b))).
Proof.
  induction l1 as [|x l1 IH]; simpl.
  - by destruct (cr_collect l2).
  - destruct (cr_normalize x) as [p|e]; simpl; [|done].
    rewrite IH. destruct (cr_collect l1) as [a|e]; simpl; [|done].
    by destruct (cr_collect l2).
Qed.

Section SecondaryClient.

Context {World : Type}.
Variable S2_API_KEY : option string.
Variable s2_get : s2_request -> World -> http_result s2_body * World.
Variable cr_get : cr_request -> World -> http_result cr_body * World.

(** X6.  A Crossref item whose [date-parts] starts with an empty list makes
    the secondary client raise [IndexError] once the items before it are
    normalized: the error is raised after the [try] block, so it is not
    turned into an empty result, and an [invoke] that falls back on this
    answer raises it too. *)
Theorem crossref_empty_date_part_raises query year_from year_to limit st
    pre post it a issued rest out_pre :
  body_of
    (cr_get (cr_request_of query year_from year_to limit) (world st)).1
  = Some (Sample.cr_items_body (pre ++ it :: post)) ->
  cr_collect pre = Ok out_pre ->
  cr_authors_text it = Ok a ->
  cr_issued_obj it = Val issued ->
  date_parts issued = Some ([] :: rest) ->
  (_search_crossref cr_get query year_from year_to limit st).1
  = Raise IndexError
  /\ forall min_citations venue_arg st0,
       primary S2_API_KEY s2_get
         query year_from year_to min_citations venue_arg limit st0
       = (Ok [], st) ->
       (invoke S2_API_KEY s2_get cr_get
          query year_from year_to min_citations venue_arg limit st0).1
       = Raise IndexError.
Proof.
  intros Hbody Hpre Ha Hi Hd.
  assert (Hcr : (_search_crossref cr_get query year_from year_to limit st).1
                = Raise IndexError).
  { rewrite search_cr_run, Hbody. simpl. unfold cr_parse. simpl.
    rewrite cr_collect_app, Hpre. simpl.
    unfold cr_normalize, cr_year. by rewrite Ha, Hi, Hd. }
  split; [done|].
  intros min_citations venue_arg st0 Hp.
  rewrite (invoke_fallback S2_API_KEY s2_get cr_get _ _ _ _ _ _ _ _ Hp).
  simpl. by rewrite Hcr.
Qed.

End SecondaryClient.

(** ** The de-duplication key, both ways *)

Lemma doi_cases r :
  (exists d, doi r = Some d /\ d <> EmptyString) \/ no_doi r.
Proof.
  unfold no_doi. destruct (doi r) as [[|c d]|]; [by right; right| |by right; left].
  left. by exists (String c d).
Qed.

(** X7.  Two records get the same de-duplication key exactly when they are
    the same paper for the merge: both carry a non-empty DOI and the DOIs
    agree up to case, or neither carries one and lowercased title and year
    agree.  A record with a DOI and a record without one never share a
    key, whatever their titles and years. *)
Theorem dedupe_key_same_paper (r1 r2 : paper) :
  _dedupe_key r1 = _dedupe_key r2 <-> same_paper r1 r2.
Proof.
  unfold same_paper. split.
  - intros Hk.
    destruct (doi_cases r1) as [(d1 & H1 & Hn1)|H1],
             (doi_cases r2) as [(d2 & H2 & Hn2)|H2].
    + left. exists d1, d2. repeat split; try done.
      rewrite (KeyFacts.key_doi r1 d1 H1 Hn1),
        (KeyFacts.key_doi r2 d2 H2 Hn2) in Hk.
      by apply (inj (String.append "doi:")) in Hk.
    + rewrite (KeyFacts.key_doi r1 d1 H1 Hn1), (KeyFacts.key_no_doi r2 H2)
        in Hk.
      discriminate Hk.
    + rewrite (KeyFacts.key_no_doi r1 H1), (KeyFacts.key_doi r2 d2 H2 Hn2)
        in Hk.
      discriminate Hk.
    + right. pose proof (KeyFacts.key_no_doi_year r1 r2 H1 H2 Hk) as Hy.
      repeat split; try done.
      rewrite (KeyFacts.key_no_doi r1 H1), (KeyFacts.key_no_doi r2 H2), Hy
        in Hk.
      apply (inj (String.append "title:")) in Hk.
      by apply TextMore.app_inv_tail in Hk.
  - intros [(d1 & d2 & H1 & H2 & Hn1 & Hn2 & Hl)|(H1 & H2 & Ht & Hy)].
    + by rewrite (KeyFacts.key_doi r1 d1), (KeyFacts.key_doi r2 d2), Hl.
    + by rewrite (KeyFacts.key_no_doi r1), (KeyFacts.key_no_doi r2), Ht, Hy.
Qed.

(** ** Invariants of the merge *)

Lemma keys_of_snoc res r :
  keys_of (res ++ [r]) = keys_of res ∪ {[_dedupe_key r]}.
Proof.
  rewrite MergeFacts.keys_of_app. unfold keys_of. simpl. set_solver.
Qed.

(** The set of seen keys stays the key set of the working list, and a
    working list without repeated keys stays so. *)
Lemma merge_more_invariant l res seen :
  seen = keys_of res ->
  (merge_more l res seen).2 = keys_of (merge_more l res seen).1
  /\ (NoDup (_dedupe_key <$> res) ->
      NoDup (_dedupe_key <$> (merge_more l res seen).1)).
Proof.
  revert res seen. induction l as [|r l IH]; intros res seen Hs; [done|].
  simpl. case_bool_decide as Hk; [by apply IH|].
  destruct (IH (res ++ [r]) (seen ∪ {[_dedupe_key r]})) as [H1 H2].
  { by rewrite keys_of_snoc, Hs. }
  split; [done|]. intros Hnd. apply H2.
  rewrite fmap_app. apply NoDup_app. split; [done|]. split.
  - intros k Hin [->|Hnil%elem_of_nil]%elem_of_cons; [|done].
    apply Hk. rewrite Hs. unfold keys_of. by apply elem_of_list_to_set.
  - simpl. apply NoDup_singleton.
Qed.

(** What a merge adds is a sublist of the response: order is kept. *)
Lemma merge_more_sublist l res seen :
  exists new,
    (merge_more l res seen).1 = res ++ new /\ new `sublist_of` l.
Proof.
  revert res seen. induction l as [|r l IH]; intros res seen.
  - exists []. simpl. by rewrite app_nil_r.
  - simpl. case_bool_decide as Hk.
    + destruct (IH res seen) as (new & -> & Hsub).
      exists new. split; [done|]. by constructor.
    + destruct (IH (res ++ [r]) (seen ∪ {[_dedupe_key r]}))
        as (new & -> & Hsub).
      exists (r :: new). split; [by rewrite <- app_assoc|]. by constructor.
Qed.

Lemma filter_sublist {A} (f : A -> bool) (l : list A) :
  List.filter f l `sublist_of` l.
Proof.
  induction l as [|x l IH]; simpl; [constructor|].
  destruct (f x); by constructor.
Qed.

Lemma filter_all {A} (f : A -> bool) (l : list A) :
  (forall x, x ∈ l -> f x = true) -> List.filter f l = l.
Proof.
  induction l as [|x l IH]; simpl; [done|]. intros H.
  rewrite (H x) by by left. f_equal. apply IH. intros y Hy. apply H.
  by right.
Qed.

Lemma filter_none {A} (f : A -> bool) (l : list A) :
  (forall x, x ∈ l -> f x = false) -> List.filter f l = [].
Proof.
  induction l as [|x l IH]; simpl; [done|]. intros H.
  rewrite (H x) by by left. apply IH. intros y Hy. apply H. by right.
Qed.

Lemma filter_idem {A} (f : A -> bool) (l : list A) :
  List.filter f (List.filter f l) = List.filter f l.
Proof.
  apply filter_all. intros x Hx.
  by apply list_elem_of_In, List.filter_In in Hx as [_ ?].
Qed.

(** X8.  The venue filter keeps the order of the records it keeps, never
    turns a non-empty list into an empty one, and applying it a second time
    changes nothing. *)
Theorem venue_filter_stable (v : string) (l : list paper) :
  venue_filter v l `sublist_of` l
  /\ (l <> [] -> venue_filter v l <> [])
  /\ venue_filter v (venue_filter v l) = venue_filter v l.
Proof.
  unfold venue_filter.
  set (f := venue_matches (Text.lower (Text.strip v))).
  destruct (List.filter f l) as [|x fl] eqn:E; cbn [nonempty_list].
  - split; [done|]. split; [done|]. by rewrite E.
  - assert (Hid : List.filter f (x :: fl) = x :: fl).
    { rewrite <- E. apply filter_idem. }
    split; [rewrite <- E; apply filter_sublist|]. split; [done|].
    by rewrite Hid.
Qed.

Section OrchestratorProperties.

Context {World : Type}.
Variable S2_API_KEY : option string.
Variable s2_get : s2_request -> World -> http_result s2_body * World.
Variable cr_get : cr_request -> World -> http_result cr_body * World.

(** X9.  After the alias loop the set of seen keys is the key set of the
    merged list, and when the base response holds no two records with the
    same key, neither does the merged list. *)
Theorem alias_merge_keeps_keys_unique query year_from year_to min_citations
    max_results als base st merged seen st' :
  alias_loop S2_API_KEY s2_get
    query year_from year_to min_citations max_results
    als base (keys_of base) st
  = (Ok (merged, seen), st') ->
  seen = keys_of merged
  /\ (NoDup (_dedupe_key <$> base) -> NoDup (_dedupe_key <$> merged)).
Proof.
  rewrite alias_loop_merges.
  destruct (alias_responses _ _ _ _ _ _ _ als st) as [[mores|e] st1];
    [|done].
  intros [= Hm _].
  destruct (merge_more_invariant (concat mores) base (keys_of base) eq_refl)
    as [H1 H2].
  rewrite Hm in H1, H2. simpl in *. by split.
Qed.

(** X10.  The merged list is the base response followed by records of the
    alias responses in the order they were met: base records are never
    moved or dropped, and the rest is a sublist of the alias responses laid
    end to end. *)
Theorem alias_merge_appends_in_order query year_from year_to min_citations
    max_results als base seen st merged seen' st' :
  alias_loop S2_API_KEY s2_get
    query year_from year_to min_citations max_results als base seen st
  = (Ok (merged, seen'), st') ->
  exists mores new,
    alias_responses S2_API_KEY s2_get
      query year_from year_to min_citations max_results als st
    = (Ok mores, st')
    /\ merged = base ++ new
    /\ new `sublist_of` concat mores.
Proof.
  rewrite alias_loop_merges.
  destruct (alias_responses _ _ _ _ _ _ _ als st) as [[mores|e] st1];
    [|done].
  intros [= Hm ->].
  destruct (merge_more_sublist (concat mores) base seen)
    as (new & Hn & Hsub).
  rewrite Hm in Hn. simpl in Hn. by exists mores, new.
Qed.

Lemma primary_sent query year_from year_to min_citations venue_arg
    max_results st out st1 :
  primary S2_API_KEY s2_get
    query year_from year_to min_citations venue_arg max_results st
  = (Ok out, st1) ->
  sent st1
  = sent st ++ primary_requests S2_API_KEY query venue_arg max_results.
Proof.
  unfold primary, primary_requests, bind.
  destruct (_search_semantic_scholar _ _ _ _ _ _ _ st) as [[base|e] st0]
    eqn:E; [|done].
  apply search_s2_sent in E.
  destruct (venue_given venue_arg) as [v|].
  - destruct (alias_loop _ _ _ _ _ _ _ _ _ _ st0) as [[m|e] st2] eqn:L;
      [|done].
    apply alias_loop_sent in L. unfold ret. intros [= _ <-].
    rewrite L, E. by rewrite <- app_assoc.
  - unfold ret. by intros [= _ <-].
Qed.

(** X11.  An [invoke] that returns has sent, in this order: the base
    request, one request per alias of a given venue, and then a single
    Crossref request exactly when the primary stage left nothing.  It never
    sends a primary request after the Crossref one, nor two Crossref
    requests. *)
Theorem invoke_request_log query year_from year_to min_citations venue_arg
    max_results st out st' :
  invoke S2_API_KEY s2_get cr_get
    query year_from year_to min_citations venue_arg max_results st
  = (Ok out, st') ->
  exists working,
    sent st'
    = sent st
      ++ primary_requests S2_API_KEY query venue_arg max_results
      ++ (if nonempty_list working then []
          else [GetCrossref
                  (cr_request_of query year_from year_to max_results)])
    /\ exists st1,
         primary S2_API_KEY s2_get
           query year_from year_to min_citations venue_arg max_results st
         = (Ok working, st1).
Proof.
  rewrite invoke_of_untruncated. unfold untruncated, bind.
  destruct (primary _ _ _ _ _ _ _ _ st) as [[working|e] st1] eqn:Hp;
    [|done].
  pose proof (primary_sent _ _ _ _ _ _ _ _ _ Hp) as Hs.
  intros Hrun. exists working. split; [|by exists st1].
  destruct working as [|r rs]; simpl in *.
  - destruct (_search_crossref _ _ _ _ _ st1) as [[l|e] st2] eqn:Hc;
      simpl in *; [|done].
    injection Hrun as _ <-.
    apply search_cr_sent in Hc. rewrite Hc, Hs. by rewrite <- app_assoc.
  - injection Hrun as _ <-. by rewrite Hs, app_nil_r.
Qed.

(** How a pair of year bounds acts depends only on their truth values. *)
Lemma s2_collect_bounds yf yt yf' yt' min_citations items :
  truthy_int yf = truthy_int yf' ->
  truthy_int yt = truthy_int yt' ->
  s2_collect yf yt min_citations items
  = s2_collect yf' yt' min_citations items.
Proof.
  intros Hf Ht. induction items as [|it rest IH]; simpl; [done|].
  rewrite IH. unfold s2_step, before_year_from, after_year_to.
  by rewrite Hf, Ht.
Qed.

Lemma search_s2_bounds yf yt yf' yt' query min_citations limit st :
  truthy_int yf = truthy_int yf' ->
  truthy_int yt = truthy_int yt' ->
  _search_semantic_scholar S2_API_KEY s2_get query yf yt min_citations limit
    st
  = _search_semantic_scholar S2_API_KEY s2_get query yf' yt' min_citations
      limit st.
Proof.
  intros Hf Ht. rewrite !search_s2_run. unfold s2_parse.
  destruct (body_of _) as [data|]; [|done].
  destruct (s2_data data); [done|done|].
  by rewrite (s2_collect_bounds yf yt yf' yt').
Qed.

Lemma alias_loop_bounds yf yt yf' yt' query min_citations max_results als
    results seen st :
  truthy_int yf = truthy_int yf' ->
  truthy_int yt = truthy_int yt' ->
  alias_loop S2_API_KEY s2_get query yf yt min_citations max_results als
    results seen st
  = alias_loop S2_API_KEY s2_get query yf' yt' min_citations max_results als
      results seen st.
Proof.
  intros Hf Ht. revert results seen st.
  induction als as [|alias rest IH]; intros results seen st; [done|].
  simpl. unfold bind.
  rewrite (search_s2_bounds yf yt yf' yt') by done.
  destruct (_search_semantic_scholar _ _ _ _ _ _ _ st) as [[more|e] st1];
    [|done].
  destruct (merge_more more results seen). apply IH.
Qed.

(** X12.  [invoke] reads a year bound through its truth value only: two
    bounds that are both falsy (absent or 0) or are the same number give the
    same run.  In particular a bound of 0 is no bound at all, for the
    primary filter and for the Crossref date filter alike. *)
Theorem invoke_reads_truthy_year_bounds yf yt yf' yt' query min_citations
    venue_arg max_results st :
  truthy_int yf = truthy_int yf' ->
  truthy_int yt = truthy_int yt' ->
  invoke S2_API_KEY s2_get cr_get
    query yf yt min_citations venue_arg max_results st
  = invoke S2_API_KEY s2_get cr_get
      query yf' yt' min_citations venue_arg max_results st.
Proof.
  intros Hf Ht. unfold invoke, untruncated, primary, bind.
  rewrite (search_s2_bounds yf yt yf' yt') by done.
  destruct (_search_semantic_scholar _ _ _ _ _ _ _ st) as [[base|e] st1];
    [|done].
  assert (Hcr : forall st2,
             _search_crossref cr_get query yf yt max_results st2
             = _search_crossref cr_get query yf' yt' max_results st2).
  { intros st2. unfold _search_crossref, cr_request_of, cr_filter_of.
    by rewrite Hf, Ht. }
  destruct (venue_given venue_arg) as [v|].
  - rewrite (alias_loop_bounds yf yt yf' yt') by done.
    destruct (alias_loop _ _ _ _ _ _ _ _ _ _ st1) as [[m|e] st2]; [|done].
    unfold ret. destruct (nonempty_list _); [done|]. by rewrite Hcr.
  - unfold ret. destruct (nonempty_list base); [done|]. by rewrite Hcr.
Qed.

End OrchestratorProperties.

(** * Properties of the search screen *)

Lemma alias_lookup_elem t table vals :
  alias_lookup t table = Some vals -> (t, vals) ∈ table.
Proof.
  induction table as [|[k v] rest IH]; simpl; [done|].
  destruct (String.eqb t k) eqn:E.
  - apply String.eqb_eq in E as ->. intros [= ->]. by left.
  - intros H. right. by apply IH.
Qed.

Lemma or_else_self v : or_else (Some v) EmptyString = v.
Proof. by destruct v. Qed.

Lemma normalize_venue_eq v : App._normalize_venue v = Text.lower (Text.strip v).
Proof. unfold App._normalize_venue. by rewrite or_else_self. Qed.

Lemma normalize_venue_nonempty v :
  blank v = false -> App._normalize_venue v <> EmptyString.
Proof.
  intros Hb. rewrite normalize_venue_eq. intros H.
  apply (proj1 (TextMore.lower_empty _)) in H.
  apply (proj1 (TextFacts.strip_blank _)) in H. congruence.
Qed.

(** Every candidate of the table is non-empty and in lowercase. *)
Lemma candidates_lowercase k vals c :
  (k, vals) ∈ App.candidates -> c ∈ vals ->
  c <> EmptyString /\ Text.lower c = c.
Proof.
  assert (Hall : forallb
                   (fun kv : string * list string =>
                      forallb
                        (fun c => Text.nonempty c
                                  && String.eqb (Text.lower c) c) kv.2)
                   App.candidates = true) by (vm_compute; reflexivity).
  intros Hk Hc. rewrite List.forallb_forall in Hall.
  apply list_elem_of_In, Hall in Hk. simpl in Hk.
  rewrite List.forallb_forall in Hk.
  apply list_elem_of_In, Hk, andb_prop in Hc as [H1 H2].
  split; [by apply TextFacts.nonempty_true|by apply String.eqb_eq].
Qed.

(** Every key of the candidate table is one of its own candidates. *)
Lemma candidates_hold_key k vals :
  (k, vals) ∈ App.candidates -> k ∈ vals.
Proof.
  assert (Hall : forallb
                   (fun kv : string * list string =>
                      existsb (String.eqb kv.1) kv.2)
                   App.candidates = true) by (vm_compute; reflexivity).
  intros Hk. rewrite List.forallb_forall in Hall.
  apply list_elem_of_In, Hall in Hk. simpl in Hk.
  apply List.existsb_exists in Hk as (c & Hc & ->%String.eqb_eq).
  by apply list_elem_of_In.
Qed.

(** The query aliases of every key of the tool's table are, lowercased,
    candidates of the same key. *)
Lemma aliases_are_candidates k vals a :
  (k, vals) ∈ aliases -> a ∈ vals ->
  exists cands,
    alias_lookup k App.candidates = Some cands
    /\ Text.lower (Text.strip a) ∈ cands.
Proof.
  assert (Hall : forallb
                   (fun kv : string * list string =>
                      forallb
                        (fun a =>
                           match alias_lookup kv.1 App.candidates with
                           | Some cands =>
                               existsb
                                 (String.eqb (Text.lower (Text.strip a)))
                                 cands
                           | None => false
                           end) kv.2)
                   aliases = true) by (vm_compute; reflexivity).
  intros Hk Ha. rewrite List.forallb_forall in Hall.
  apply list_elem_of_In, Hall in Hk. cbn [fst snd] in Hk.
  rewrite List.forallb_forall in Hk.
  apply list_elem_of_In, Hk in Ha. cbv beta in Ha.
  destruct (alias_lookup k App.candidates) as [cands|]; [|done].
  exists cands. split; [done|].
  apply List.existsb_exists in Ha as (c & Hc & ->%String.eqb_eq).
  by apply list_elem_of_In.
Qed.

(** The normalized venue name is always one of its own candidates. *)
Lemma name_is_candidate v :
  blank v = false -> App._normalize_venue v ∈ App._alias_candidates v.
Proof.
  intros Hb. unfold App._alias_candidates.
  destruct (alias_lookup _ App.candidates) as [vals|] eqn:E.
  - by apply alias_lookup_elem, candidates_hold_key in E.
  - rewrite (proj2 (TextFacts.nonempty_true _) (normalize_venue_nonempty v Hb)).
    by left.
Qed.

Lemma matches_any_intro r cands c :
  c ∈ cands -> c <> EmptyString ->
  Text.contains c (Text.lower (venue_text r)) = true ->
  App._matches_any_venue r cands = true.
Proof.
  intros Hc Hne Hin. unfold App._matches_any_venue.
  apply List.existsb_exists. exists c. split; [by apply list_elem_of_In|].
  by rewrite (proj2 (TextFacts.nonempty_true c) Hne), Hin.
Qed.

Lemma alias_filter_nil v l : App.alias_filter v l = [] -> l = [].
Proof.
  unfold App.alias_filter.
  destruct (Text.nonempty v && nonempty_list l); [|done].
  destruct (nonempty_list (App._alias_candidates v)); [|by destruct l].
  by destruct (List.filter _ l).
Qed.

Lemma venue_filter_nil v l : venue_filter v l = [] -> l = [].
Proof. unfold venue_filter. by destruct (List.filter _ l). Qed.

(** X13.  Every alias candidate of the search screen is non-empty and in
    lowercase, for table entries and for a venue the table does not know:
    the guard [c and ...] never drops a candidate, and each one can match
    the lowercased venue text. *)
Theorem alias_candidates_usable (v c : string) :
  c ∈ App._alias_candidates v ->
  c <> EmptyString /\ Text.lower c = c.
Proof.
  unfold App._alias_candidates.
  destruct (alias_lookup _ App.candidates) as [vals|] eqn:E.
  - intros Hc. apply alias_lookup_elem in E. by eapply candidates_lowercase.
  - destruct (Text.nonempty (App._normalize_venue v)) eqn:En;
      [|by intros ?%elem_of_nil].
    intros ->%list_elem_of_singleton.
    split; [by apply TextFacts.nonempty_true|].
    unfold App._normalize_venue. apply TextMore.lower_idem.
Qed.

(** X14.  Every alias the tool queries with for a venue is, trimmed and
    lowercased, one of the candidates the search screen filters with for
    the same venue. *)
Theorem query_aliases_are_filter_candidates (v a : string) :
  blank v = false ->
  a ∈ _venue_aliases (Some v) ->
  Text.lower (Text.strip a) ∈ App._alias_candidates v.
Proof.
  intros Hb. unfold _venue_aliases.
  change (Text.lower (Text.strip (or_else (Some v) EmptyString)))
    with (App._normalize_venue v).
  destruct (alias_lookup _ aliases) as [vals|] eqn:E.
  - intros Ha. apply alias_lookup_elem in E.
    destruct (aliases_are_candidates _ _ _ E Ha) as (cands & Hl & Hin).
    unfold App._alias_candidates. by rewrite Hl.
  - destruct (Text.truthy (Some v)) as [s|] eqn:Es;
      [|by intros ?%elem_of_nil].
    apply TextFacts.truthy_Some in Es as [[= <-] _].
    intros ->%list_elem_of_singleton.
    rewrite <- normalize_venue_eq. by apply name_is_candidate.
Qed.

(** X15.  The alias filter of the search screen keeps the order of the
    records it keeps and never empties a list.  With a venue typed in, if
    some record matches a candidate then only matching records are shown;
    if none does, the list is shown as it came. *)
Theorem alias_filter_shows_matches_or_all (v : string) (l : list paper) :
  App.alias_filter v l `sublist_of` l
  /\ (l <> [] -> App.alias_filter v l <> [])
  /\ (v <> EmptyString ->
      (exists r0,
         r0 ∈ l
         /\ App._matches_any_venue r0 (App._alias_candidates v) = true) ->
      forall r,
        r ∈ App.alias_filter v l ->
        App._matches_any_venue r (App._alias_candidates v) = true)
  /\ ((forall r,
         r ∈ l ->
         App._matches_any_venue r (App._alias_candidates v) = false) ->
      App.alias_filter v l = l).
Proof.
  split; [|split; [|split]].
  - unfold App.alias_filter.
    destruct (Text.nonempty v && nonempty_list l); [|done].
    destruct (nonempty_list (App._alias_candidates v)); [|by destruct l].
    destruct (List.filter _ l) as [|x fl] eqn:E; [done|].
    cbn [nonempty_list]. rewrite <- E. apply filter_sublist.
  - intros Hne H. by apply alias_filter_nil in H.
  - intros Hv (r0 & Hr0 & Hm0) r. unfold App.alias_filter.
    rewrite (proj2 (TextFacts.nonempty_true v) Hv).
    destruct l as [|x l']; [by apply elem_of_nil in Hr0|].
    cbn [nonempty_list andb].
    destruct (App._alias_candidates v) as [|c cs] eqn:Ec; [done|].
    cbn [nonempty_list].
    destruct (List.filter _ (x :: l')) as [|y fl] eqn:E.
    + exfalso.
      assert (Hin : r0 ∈ List.filter
                      (fun r => App._matches_any_venue r (c :: cs)) (x :: l')).
      { apply list_elem_of_In, List.filter_In.
        split; [by apply list_elem_of_In|done]. }
      rewrite E in Hin. by apply elem_of_nil in Hin.
    + cbn [nonempty_list]. rewrite <- E. intros Hr.
      by apply list_elem_of_In, List.filter_In in Hr as [_ ?].
  - intros Hnone. unfold App.alias_filter.
    destruct (Text.nonempty v && nonempty_list l); [|done].
    destruct (nonempty_list (App._alias_candidates v)); [|by destruct l].
    by rewrite (filter_none _ l Hnone).
Qed.

(** X16.  When the tool's venue filter found a record that contains the
    venue name, the alias filter of the search screen removes nothing from
    the tool's list: every record kept for the name matches the candidate
    that is the name itself. *)
Theorem alias_filter_after_venue_filter (v : string) (l : list paper) :
  blank v = false ->
  List.filter (venue_matches (Text.lower (Text.strip v))) l <> [] ->
  App.alias_filter v (venue_filter v l) = venue_filter v l.
Proof.
  intros Hb Hne. rewrite (venue_filter_nonempty v l Hne).
  set (kept := List.filter (venue_matches (Text.lower (Text.strip v))) l)
    in *.
  assert (Hall : forall r,
             r ∈ kept ->
             App._matches_any_venue r (App._alias_candidates v) = true).
  { intros r Hr. apply list_elem_of_In, List.filter_In in Hr as [_ Hr].
    apply (matches_any_intro r _ (App._normalize_venue v)).
    - by apply name_is_candidate.
    - by apply normalize_venue_nonempty.
    - by rewrite normalize_venue_eq. }
  unfold App.alias_filter.
  destruct (Text.nonempty v && nonempty_list kept); [|done].
  destruct (nonempty_list (App._alias_candidates v)); [|by destruct kept].
  rewrite (filter_all _ kept Hall). by destruct kept.
Qed.

(** ** The retry without venue *)

Section Retry.

Context {World : Type}.
Variable S2_API_KEY : option string.
Variable s2_get : s2_request -> World -> http_result s2_body * World.
Variable cr_get : cr_request -> World -> http_result cr_body * World.

Lemma search_s2_determined query year_from year_to min_citations limit
    st st' :
  request_determined s2_get ->
  (_search_semantic_scholar S2_API_KEY s2_get
     query year_from year_to min_citations limit st).1
  = (_search_semantic_scholar S2_API_KEY s2_get
       query year_from year_to min_citations limit st').1.
Proof.
  intros Hd. rewrite !search_s2_run. simpl.
  by rewrite (Hd _ (world st) (world st')).
Qed.

Lemma search_cr_determined query year_from year_to limit st st' :
  request_determined cr_get ->
  (_search_crossref cr_get query year_from year_to limit st).1
  = (_search_crossref cr_get query year_from year_to limit st').1.
Proof.
  intros Hd. rewrite !search_cr_run. simpl.
  by rewrite (Hd _ (world st) (world st')).
Qed.

Lemma slice_to_nil_inv {A} (n : Z) (l : list A) :
  0 < n -> slice_to n l = [] -> l = [].
Proof.
  intros Hn. rewrite slice_to_nonneg by lia.
  destruct l as [|x l]; [done|].
  destruct (Z.to_nat n) eqn:E; [lia|done].
Qed.

Lemma alias_loop_prefix query year_from year_to min_citations max_results
    als base seen st merged seen' st' :
  alias_loop S2_API_KEY s2_get
    query year_from year_to min_citations max_results als base seen st
  = (Ok (merged, seen'), st') ->
  exists new, merged = base ++ new.
Proof.
  rewrite alias_loop_merges.
  destruct (alias_responses _ _ _ _ _ _ _ als st) as [[mores|e] st1];
    [|done].
  intros [= Hm _].
  destruct (MergeFacts.merge_more_prefix (concat mores) base seen)
    as (new & Hn & _).
  rewrite Hm in Hn. by exists new.
Qed.

(** An [invoke] that returns nothing had an empty base response and an
    empty Crossref response. *)
Lemma invoke_nil_inv query year_from year_to min_citations venue_arg
    max_results st st' :
  0 < max_results ->
  invoke S2_API_KEY s2_get cr_get
    query year_from year_to min_citations venue_arg max_results st
  = (Ok [], st') ->
  (_search_semantic_scholar S2_API_KEY s2_get
     query year_from year_to min_citations max_results st).1 = Ok []
  /\ exists stp,
       (_search_crossref cr_get query year_from year_to max_results stp).1
       = Ok [].
Proof.
  intros Hmax. rewrite invoke_of_untruncated. unfold untruncated, bind.
  destruct (primary _ _ _ _ _ _ _ _ st) as [[working|e] stp] eqn:Hp;
    [|done].
  destruct working as [|r rs]; simpl.
  - intros Hrun. split.
    + revert Hp. unfold primary, bind.
      destruct (_search_semantic_scholar _ _ _ _ _ _ _ st)
        as [[base|e] st0]; [|done].
      destruct (venue_given venue_arg) as [v|].
      * destruct (alias_loop _ _ _ _ _ _ _ _ _ _ st0)
          as [[[merged seen] |e] st2] eqn:Hl; [|done].
        unfold ret. intros [= Hf _]. simpl in Hf.
        apply venue_filter_nil in Hf as ->.
        apply alias_loop_prefix in Hl as (new & Hn).
        symmetry in Hn. apply app_eq_nil in Hn as [-> _]. done.
      * unfold ret. by intros [= -> _].
    + exists stp.
      destruct (_search_crossref _ _ _ _ _ stp) as [[l|e] st2];
        simpl in *; [|done].
      injection Hrun as Hl _. by apply slice_to_nil_inv in Hl as ->.
  - intros [= Hl _]. by apply slice_to_nil_inv in Hl.
Qed.

(** X17.  When the providers' answers depend on the request only, the
    retry without venue that the search screen runs after the warning
    finds nothing: the list it shows is empty again. *)
Theorem venue_less_retry_finds_nothing query year_from year_to min_citations
    venue_str st shown st' :
  request_determined s2_get ->
  request_determined cr_get ->
  App.search S2_API_KEY s2_get cr_get
    query year_from year_to min_citations venue_str st
  = (Ok (shown, true), st') ->
  shown = [].
Proof.
  intros Hs2 Hcr. unfold App.search, PaperAgent.run, bind.
  destruct (invoke _ _ _ _ _ _ _ (Some venue_str) _ st)
    as [[raw|e] st1] eqn:H1; [|done].
  destruct (Text.nonempty venue_str
            && Text.nonempty (App._normalize_venue venue_str)
            && (length (App.alias_filter venue_str raw) =? 0)%nat) eqn:Hc;
    [|by unfold ret; intros [= _ ? _]].
  apply andb_prop in Hc as [_ Hlen]. apply Nat.eqb_eq in Hlen.
  apply nil_length_inv, alias_filter_nil in Hlen as ->.
  assert (H8 : 0 < 8) by lia.
  destruct (invoke_nil_inv _ _ _ _ _ _ _ _ H8 H1) as (Hbase & stp & Hfall).
  rewrite invoke_of_untruncated. unfold untruncated, bind.
  rewrite (primary_blank S2_API_KEY s2_get _ _ _ _ None 8 st1)
    by by left.
  rewrite (search_s2_determined _ _ _ _ _ st st1 Hs2) in Hbase.
  destruct (_search_semantic_scholar _ _ _ _ _ _ _ st1) as [base st2].
  simpl in Hbase. rewrite Hbase. simpl.
  rewrite (search_cr_determined _ _ _ _ stp st2 Hcr) in Hfall.
  destruct (_search_crossref _ _ _ _ _ st2) as [fall st3].
  simpl in Hfall. rewrite Hfall. simpl. unfold ret.
  by intros [= <- _].
Qed.

End Retry.

Section ScreenBound.

Context {World : Type}.
Variable S2_API_KEY : option string.
Variable s2_get : s2_request -> World -> http_result s2_body * World.
Variable cr_get : cr_request -> World -> http_result cr_body * World.

Lemma invoke_length query year_from year_to min_citations venue_arg
    max_results st out st' :
  0 <= max_results ->
  invoke S2_API_KEY s2_get cr_get
    query year_from year_to min_citations venue_arg max_results st
  = (Ok out, st') ->
  (length out <= Z.to_nat max_results)%nat.
Proof.
  intros Hmax. rewrite invoke_of_untruncated.
  destruct (untruncated _ _ _ _ _ _ _ _ _ st) as [[l|e] st1]; simpl;
    [|done].
  intros [= <- _]. rewrite slice_to_nonneg by done.
  rewrite length_take. lia.
Qed.

(** X18.  The search screen shows at most eight records, with or without
    the alias filter and the retry. *)
Theorem search_shows_at_most_eight query year_from year_to min_citations
    venue_str st shown warned st' :
  App.search S2_API_KEY s2_get cr_get
    query year_from year_to min_citations venue_str st
  = (Ok (shown, warned), st') ->
  (length shown <= 8)%nat.
Proof.
  assert (H8 : 0 <= 8) by lia.
  unfold App.search, PaperAgent.run, bind.
  destruct (invoke _ _ _ _ _ _ _ (Some venue_str) _ st)
    as [[raw|e] st1] eqn:H1; [|done].
  apply (invoke_length _ _ _ _ _ _ _ _ _ H8) in H1.
  destruct (Text.nonempty venue_str
            && Text.nonempty (App._normalize_venue venue_str)
            && (length (App.alias_filter venue_str raw) =? 0)%nat).
  - destruct (invoke _ _ _ _ _ _ _ None _ st1)
      as [[again|e] st2] eqn:H2; [|done].
    apply (invoke_length _ _ _ _ _ _ _ _ _ H8) in H2.
    unfold ret. intros [= <- _ _]. lia.
  - unfold ret. intros [= <- _ _].
    assert (Hsub : App.alias_filter venue_str raw `sublist_of` raw).
    { unfold App.alias_filter.
      destruct (Text.nonempty venue_str && nonempty_list raw); [|done].
      destruct (nonempty_list (App._alias_candidates venue_str));
        [|by destruct raw].
      destruct (List.filter _ raw) as [|x fl] eqn:E; [done|].
      cbn [nonempty_list]. rewrite <- E. apply filter_sublist. }
    apply sublist_length in Hsub. lia.
Qed.

End ScreenBound.

(** * Properties of the library *)

Lemma load_content s :
  (Library.load_library s).1 = Library.content_of s.
Proof. by destruct s. Qed.

Lemma add_to_library_cases e s :
  (Library.entry_key e ∈ library_keys s
   /\ Library.add_to_library e s
      = ((false, Library.already_saved),
         Library.File (Library.content_of s)))
  \/ ((Library.entry_key e ∉ library_keys s)
      /\ Library.add_to_library e s
         = ((true, Library.saved),
            Library.File (Library.content_of s ++ [e]))).
Proof.
  unfold Library.add_to_library, library_keys.
  assert (Hc : Library.load_library (Library._ensure_file s)
               = (Library.content_of s,
                  Library.File (Library.content_of s))) by by destruct s.
  rewrite Hc. case_bool_decide as Hk.
  - left. split; [|done]. by apply elem_of_list_to_set in Hk.
  - right. split; [|done]. intros Hin. apply Hk.
    by apply elem_of_list_to_set.
Qed.

(** X19.  Saving and loading.  An entry is accepted exactly when no stored
    entry has its trimmed title and year; the next load then returns the
    stored entries followed by the new one.  A rejected entry leaves what
    the next load returns unchanged.  The message tells the two apart. *)
Theorem add_then_load (e : paper) (s : Library.fs) :
  ((Library.add_to_library e s).1.1 = true
   <-> Library.entry_key e ∉ library_keys s)
  /\ (Library.load_library (Library.add_to_library e s).2).1
     = (if (Library.add_to_library e s).1.1
        then (Library.load_library s).1 ++ [e]
        else (Library.load_library s).1)
  /\ (Library.add_to_library e s).1.2
     = (if (Library.add_to_library e s).1.1
        then Library.saved else Library.already_saved).
Proof.
  rewrite !load_content.
  destruct (add_to_library_cases e s) as [[Hk ->]|[Hk ->]]; simpl.
  - split; [|done]. split; [done|]. intros Hn. by destruct Hn.
  - done.
Qed.

(** X20.  Whatever happened to an entry, an entry with the same trimmed
    title and the same year that is offered next is rejected, and the
    library stays as it is. *)
Theorem same_key_rejected_next (e e' : paper) (s : Library.fs) :
  Library.entry_key e' = Library.entry_key e ->
  Library.add_to_library e' (Library.add_to_library e s).2
  = ((false, Library.already_saved), (Library.add_to_library e s).2).
Proof.
  intros Hk.
  destruct (add_to_library_cases e s) as [[Hin ->]|[Hin ->]]; simpl.
  - destruct (add_to_library_cases e' (Library.File (Library.content_of s)))
      as [[_ ->]|[Hn _]]; [done|].
    exfalso. apply Hn. by rewrite Hk.
  - destruct (add_to_library_cases e'
                (Library.File (Library.content_of s ++ [e])))
      as [[_ ->]|[Hn _]]; [done|].
    exfalso. apply Hn. unfold library_keys. simpl.
    rewrite fmap_app, Hk. apply elem_of_app. right. by left.
Qed.

Lemma add_keeps_keys_distinct e s :
  NoDup (library_keys s) ->
  NoDup (library_keys (Library.add_to_library e s).2).
Proof.
  intros Hnd.
  destruct (add_to_library_cases e s) as [[Hin ->]|[Hin ->]]; simpl.
  - by destruct s.
  - unfold library_keys in *. simpl. rewrite fmap_app.
    apply NoDup_app. split; [done|]. split.
    + intros k Hk ->%list_elem_of_singleton. done.
    + apply NoDup_singleton.
Qed.

(** X21.  A library whose entries have pairwise distinct keys keeps that
    property however many entries are offered to it. *)
Theorem library_keys_stay_distinct (es : list paper) (s : Library.fs) :
  NoDup (library_keys s) -> NoDup (library_keys (add_all es s)).
Proof.
  revert s. induction es as [|e es IH]; intros s Hnd; [done|].
  simpl. apply IH. by apply add_keeps_keys_distinct.
Qed.

(** X22.  [clear_library] fails exactly when the data directory is
    missing; [load_library] and [add_to_library] create it, so that after
    either of them clearing succeeds, and the next load returns nothing. *)
Theorem clear_needs_directory (s : Library.fs) :
  ((Library.clear_library s).1 = inl Library.FileNotFoundError
   <-> s = Library.NoDir)
  /\ Library.clear_library (Library.load_library s).2
     = (inr tt, Library.File [])
  /\ (forall e,
        Library.clear_library (Library.add_to_library e s).2
        = (inr tt, Library.File []))
  /\ (Library.load_library (Library.File [])).1 = [].
Proof.
  split; [|split; [|split]].
  - by destruct s.
  - by destruct s.
  - intros e. by destruct (add_to_library_cases e s) as [[_ ->]|[_ ->]].
  - done.
Qed.

(** * Properties of the BibTeX export *)

Module BibtexFacts.
Import Bibtex.

Lemma append_assoc s t u : (s +:+ t) +:+ u = s +:+ (t +:+ u).
Proof.
  induction s as [|c r IH]; [done|].
  change (String c ((r +:+ t) +:+ u) = String c (r +:+ (t +:+ u))).
  by rewrite IH.
Qed.

Lemma all_chars_impl (P Q : ascii -> bool) s :
  (forall c, P c = true -> Q c = true) ->
  all_chars P s = true -> all_chars Q s = true.
Proof.
  intros HPQ. induction s as [|c r IH]; simpl; [done|].
  intros [H1 H2]%andb_prop. by rewrite (HPQ c H1), (IH H2).
Qed.

Lemma alnum_lower_slug c :
  is_alnum c = true -> is_slug_char (Text.lower_char c) = true.
Proof. by destruct c as [[] [] [] [] [] [] [] []]; vm_compute. Qed.

Lemma slug_char_alnum c : is_slug_char c = true -> is_alnum c = true.
Proof. by destruct c as [[] [] [] [] [] [] [] []]; vm_compute. Qed.

Lemma slug_char_lower c : is_slug_char c = true -> Text.lower_char c = c.
Proof. by destruct c as [[] [] [] [] [] [] [] []]; vm_compute. Qed.

Lemma slug_char_no_comma c :
  is_slug_char c = true -> negb (Ascii.eqb c ",") = true.
Proof. by destruct c as [[] [] [] [] [] [] [] []]; vm_compute. Qed.

Lemma num_char_no_comma c :
  is_num_char c = true -> negb (Ascii.eqb c ",") = true.
Proof. by destruct c as [[] [] [] [] [] [] [] []]; vm_compute. Qed.

Lemma num_char_no_underscore c :
  is_num_char c = true -> negb (Ascii.eqb c "_") = true.
Proof. by destruct c as [[] [] [] [] [] [] [] []]; vm_compute. Qed.

Lemma keep_alnum_all s : all_chars is_alnum (keep_alnum s) = true.
Proof.
  induction s as [|c r IH]; simpl; [done|].
  destruct (is_alnum c) eqn:E; simpl; [by rewrite E|done].
Qed.

Lemma lower_slug s :
  all_chars is_alnum s = true ->
  all_chars is_slug_char (Text.lower s) = true.
Proof.
  induction s as [|c r IH]; simpl; [done|].
  intros [H1 H2]%andb_prop. by rewrite (alnum_lower_slug c H1), (IH H2).
Qed.

Lemma first_chars_all P n s :
  all_chars P s = true -> all_chars P (first_chars n s) = true.
Proof.
  revert s. induction n as [|n IH]; intros [|c r]; simpl; try done.
  intros [H1 H2]%andb_prop. by rewrite H1, (IH r H2).
Qed.

Lemma first_chars_length n s : (String.length (first_chars n s) <= n)%nat.
Proof.
  revert s. induction n as [|n IH]; intros [|c r]; simpl; try lia.
  specialize (IH r). lia.
Qed.

Lemma first_chars_short n s :
  (String.length s <= n)%nat -> first_chars n s = s.
Proof.
  revert s. induction n as [|n IH]; intros [|c r]; simpl; try done;
    try lia.
  intros H. rewrite IH; [done|lia].
Qed.

Lemma keep_alnum_slug s :
  all_chars is_slug_char s = true -> keep_alnum s = s.
Proof.
  induction s as [|c r IH]; simpl; [done|].
  intros [H1 H2]%andb_prop. by rewrite (slug_char_alnum c H1), (IH H2).
Qed.

Lemma lower_slug_id s :
  all_chars is_slug_char s = true -> Text.lower s = s.
Proof.
  induction s as [|c r IH]; simpl; [done|].
  intros [H1 H2]%andb_prop. by rewrite (slug_char_lower c H1), (IH H2).
Qed.

(** The slug of a word that is already a slug is the word itself. *)
Lemma slugify_slug s :
  s <> EmptyString -> (String.length s <= 30)%nat ->
  all_chars is_slug_char s = true ->
  _slugify_key s = s.
Proof.
  intros Hne Hlen Hall. unfold _slugify_key.
  rewrite (proj2 (TextFacts.nonempty_true s) Hne).
  rewrite (keep_alnum_slug s Hall), (lower_slug_id s Hall).
  rewrite (first_chars_short 30 s Hlen).
  unfold or_else. simpl.
  by rewrite (proj2 (TextFacts.nonempty_true s) Hne).
Qed.

Lemma paper_shape :
  "paper" <> EmptyString
  /\ (String.length "paper" <= 30)%nat
  /\ all_chars is_slug_char "paper" = true.
Proof. repeat split; [done|simpl; lia]. Qed.

Lemma slugify_shape text :
  _slugify_key text <> EmptyString
  /\ (String.length (_slugify_key text) <= 30)%nat
  /\ all_chars is_slug_char (_slugify_key text) = true.
Proof.
  unfold _slugify_key.
  destruct (Text.nonempty text); [|apply paper_shape].
  generalize (first_chars_length 30 (Text.lower (keep_alnum text))).
  generalize (first_chars_all is_slug_char 30 _
                (lower_slug _ (keep_alnum_all text))).
  generalize (first_chars 30 (Text.lower (keep_alnum text))).
  intros k Hall Hlen. unfold or_else, Text.truthy.
  destruct (Text.nonempty k) eqn:E; [|apply paper_shape].
  split; [by apply TextFacts.nonempty_true|done].
Qed.

Lemma up_to_app c s t :
  all_chars (fun d => negb (Ascii.eqb d c)) s = true ->
  up_to c (s +:+ String c t) = s.
Proof.
  induction s as [|d r IH]; simpl.
  - intros _. by rewrite Ascii.eqb_refl.
  - intros [H1 H2]%andb_prop.
    destruct (Ascii.eqb d c); [done|]. by rewrite (IH H2).
Qed.

(** When [c] occurs in neither [t1] nor [t2], the text after the last [c]
    of a string is determined. *)
Lemma last_sep_inj c s1 t1 s2 t2 :
  all_chars (fun d => negb (Ascii.eqb d c)) t1 = true ->
  all_chars (fun d => negb (Ascii.eqb d c)) t2 = true ->
  s1 +:+ String c t1 = s2 +:+ String c t2 ->
  t1 = t2.
Proof.
  intros H1 H2. revert s2.
  induction s1 as [|d1 s1 IH]; intros [|d2 s2]; simpl.
  - by intros [= ->].
  - intros [= <- ->]. rewrite TextFacts.all_chars_app in H1. simpl in H1.
    rewrite Ascii.eqb_refl in H1. simpl in H1.
    by rewrite andb_false_r in H1.
  - intros [= -> <-]. rewrite TextFacts.all_chars_app in H2. simpl in H2.
    rewrite Ascii.eqb_refl in H2. simpl in H2.
    by rewrite andb_false_r in H2.
  - intros [= _ H]. by apply (IH s2).
Qed.

Lemma bib_key_no_comma title yr index :
  all_chars (fun d => negb (Ascii.eqb d ","))
    (bib_key title yr index) = true.
Proof.
  assert (Hs : all_chars (fun d => negb (Ascii.eqb d ","))
                 (_slugify_key title) = true).
  { apply (all_chars_impl is_slug_char); [apply slug_char_no_comma|].
    apply slugify_shape. }
  assert (Hn : forall n, all_chars (fun d => negb (Ascii.eqb d ","))
                           (Text.of_int n) = true).
  { intros n. apply (all_chars_impl is_num_char);
      [apply num_char_no_comma|apply TextFacts.of_int_num]. }
  unfold bib_key.
  destruct (truthy_int yr) as [y|]; destruct index as [i|];
    rewrite ?TextFacts.all_chars_app, ?Hs, ?Hn; simpl; by rewrite ?Hn.
Qed.

Lemma join_cons sep h t :
  t <> [] -> Text.join sep (h :: t) = h +:+ sep +:+ Text.join sep t.
Proof. by destruct t. Qed.

Lemma trim_last_comma_head h x xs :
  exists t, trim_last_comma (h :: x :: xs) = h :: t.
Proof.
  unfold trim_last_comma.
  destruct (last (h :: x :: xs)) as [l|]; [|by eexists].
  destruct ((1 <? length (h :: x :: xs))%nat && ends_with_comma l);
    [|by eexists].
  simpl. by eexists.
Qed.

(** Every entry opens with its type, a brace, its key and a comma. *)
Lemma entry_opening p index :
  exists ty rest,
    (ty = "article" \/ ty = "inproceedings")
    /\ make_bibtex_entry p index
       = "@" +:+ ty +:+ "{"
         +:+ bib_key (or_else (Some (title p)) no_title) (year p) index
         +:+ "," +:+ rest.
Proof.
  unfold make_bibtex_entry.
  set (ttl := or_else (Some (title p)) no_title).
  assert (Ht : Text.nonempty ttl = true).
  { apply TextFacts.nonempty_true, TextMore.or_else_nonempty.
    by vm_compute. }
  rewrite Ht.
  set (ty := if existsb _ conference_keywords then "inproceedings"
             else "article").
  set (key := bib_key ttl (year p) index).
  match goal with
  | |- context [trim_last_comma ([?h] ++ [?x] ++ ?more)] =>
      change ([h] ++ [x] ++ more) with (h :: x :: more);
      destruct (trim_last_comma_head h x more) as [t ->]
  end.
  exists ty, (newline +:+ Text.join newline (t ++ ["}"])).
  split.
  - subst ty. destruct (existsb _ conference_keywords); [by right|by left].
  - change ((?h :: t) ++ ["}"]) with (h :: (t ++ ["}"])).
    rewrite join_cons by by destruct t.
    by rewrite !append_assoc.
Qed.

Lemma cite_key_entry p index :
  cite_key (make_bibtex_entry p index)
  = bib_key (or_else (Some (title p)) no_title) (year p) index.
Proof.
  destruct (entry_opening p index) as (ty & rest & Hty & ->).
  unfold cite_key.
  destruct Hty as [-> | ->]; simpl; apply up_to_app, bib_key_no_comma.
Qed.

Lemma bib_key_index_inj t1 y1 i t2 y2 j :
  bib_key t1 y1 (Some i) = bib_key t2 y2 (Some j) -> i = j.
Proof.
  unfold bib_key. intros H.
  apply (last_sep_inj "_" _ (Text.of_int i) _ (Text.of_int j)) in H.
  - by apply TextFacts.of_int_inj.
  - apply (all_chars_impl is_num_char);
      [apply num_char_no_underscore|apply TextFacts.of_int_num].
  - apply (all_chars_impl is_num_char);
      [apply num_char_no_underscore|apply TextFacts.of_int_num].
Qed.

End BibtexFacts.

(** X23.  The key stem [_slugify_key] makes is never empty, has at most 30
    characters, all of them digits or lowercase letters, and is its own
    slug. *)
Theorem slugify_key_is_short_lowercase_word (text : string) :
  Bibtex._slugify_key text <> EmptyString
  /\ (String.length (Bibtex._slugify_key text) <= 30)%nat
  /\ all_chars is_slug_char (Bibtex._slugify_key text) = true
  /\ Bibtex._slugify_key (Bibtex._slugify_key text)
     = Bibtex._slugify_key text.
Proof.
  destruct (BibtexFacts.slugify_shape text) as (Hne & Hlen & Hall).
  repeat split; try done. by apply BibtexFacts.slugify_slug.
Qed.

(** X24.  The entries of one export carry pairwise distinct citation
    keys, whatever the papers are: the running number that ends a key
    tells any two of them apart. *)
Theorem export_keys_distinct (papers : list paper) :
  NoDup (cite_key <$> Bibtex.entries papers).
Proof.
  apply NoDup_alt. intros i j k Hi Hj.
  unfold Bibtex.entries in *.
  rewrite list_lookup_fmap, list_lookup_imap in Hi, Hj.
  destruct (papers !! i) as [p|] eqn:Ei; [|done].
  destruct (papers !! j) as [q|] eqn:Ej; [|done].
  simpl in Hi, Hj. injection Hi as Hi. injection Hj as Hj.
  rewrite BibtexFacts.cite_key_entry in Hi, Hj.
  rewrite <- Hj in Hi. apply BibtexFacts.bib_key_index_inj in Hi. lia.
Qed.

(** * Properties of the BibTeX button and of the summarizer *)

Lemma lstrip_head s c r :
  Text.lstrip s = String c r -> Text.is_space c = false.
Proof.
  induction s as [|d s IH]; simpl; [done|].
  destruct (Text.is_space d) eqn:E; [done|]. by intros [= <- _].
Qed.

(** A trimmed string that is not empty starts with a character that is not
    whitespace. *)
Lemma strip_head s c r :
  Text.strip s = String c r -> Text.is_space c = false.
Proof.
  unfold Text.strip. destruct (Text.lstrip s) as [|d t] eqn:E; [done|].
  apply lstrip_head in E. simpl.
  destruct (Text.rstrip t); [|by intros [= <- _]].
  rewrite E. by intros [= <- _].
Qed.

Lemma split_where_nonempty sep s : Bibtex.split_where sep s <> [].
Proof.
  destruct s as [|c r]; simpl; [done|].
  destruct (sep c); [done|]. by destruct (Bibtex.split_where sep r).
Qed.

(** A string that starts with a word has a last word. *)
Lemma split_words_head c r :
  Text.is_space c = false ->
  exists w, last (Bibtex.split_words (String c r)) = Some w.
Proof.
  intros Hc. unfold Bibtex.split_words. simpl. rewrite Hc.
  assert (Hne : forall (l : list string), l <> [] -> exists w, last l = Some w).
  { intros l Hl. destruct (last l) as [w|] eqn:E; [by exists w|].
    by apply last_None in E. }
  apply Hne.
  destruct (Bibtex.split_where Text.is_space r) as [|part parts]; done.
Qed.

Lemma key_stem_ok (pieces : list string) :
  exists stem,
    AppBibtex.key_stem
      (Text.strip
         <$> List.filter (fun a => Text.nonempty (Text.strip a)) pieces)
    = Ok stem.
Proof.
  induction pieces as [|a rest IH]; simpl; [by eexists|].
  destruct (Text.nonempty (Text.strip a)) eqn:E; [|exact IH].
  simpl. destruct (Text.strip a) as [|c r] eqn:Es; [done|].
  destruct (split_words_head c r (strip_head a c r Es)) as [w ->].
  by eexists.
Qed.

(** X25.  The BibTeX button never fails: the key is read from the last word
    of the first author, and an author that survives the trimming always
    has one, so neither of the two indexings raises [IndexError]. *)
Theorem app_bibtex_entry_never_raises (p : paper) :
  exists entry, AppBibtex._make_bibtex_entry p = Ok entry.
Proof.
  unfold AppBibtex._make_bibtex_entry.
  destruct (key_stem_ok (Bibtex.split_on "," (authors p))) as [stem ->].
  simpl. by eexists.
Qed.

Section Summarizer.

Context {World : Type}.
Variable MODEL : string.
Variable chat :
  Summarize.chat_request -> World -> Summarize.chat_answer * World.

(** A text that is not blank is sent to the model. *)
Lemma invoke_asks text lang mode st :
  blank text = false ->
  Summarize.asked (Summarize.invoke MODEL chat text lang mode st).2
  = Summarize.asked st
    ++ [ {| Summarize.model := MODEL;
            Summarize.system := Summarize._build_system_prompt lang mode;
            Summarize.user :=
              Summarize._build_user_prompt text lang mode |} ].
Proof.
  intros Hb. unfold Summarize.invoke.
  assert (Hne : Text.nonempty text = true) by by destruct text.
  assert (Hs : String.eqb (Text.strip text) EmptyString = false).
  { apply String.eqb_neq. intros H.
    apply (proj1 (TextFacts.strip_blank _)) in H. congruence. }
  rewrite Hne, Hs. simpl.
  destruct (chat _ (Summarize.chat_world st)) as [[| | |c] w]; done.
Qed.

(** X26.  The placeholder abstract reaches the model.  For every record of
    the Crossref client, and for every record of the Semantic Scholar
    client whose item came without abstract, the summarizer does not
    answer that there is nothing to summarize: it sends one request, whose
    user prompt is built from the placeholder. *)
Theorem placeholder_abstract_reaches_the_model (p : paper)
    (lang mode : string) (st : Summarize.chat_state World) :
  (exists it, cr_normalize it = Ok p)
  \/ (exists it,
        s2_normalize it = Ok p /\ Text.truthy (s2_abstract it) = None) ->
  Summarize.asked
    (Summarize.invoke MODEL chat (abstract p) lang mode st).2
  = Summarize.asked st
    ++ [ {| Summarize.model := MODEL;
            Summarize.system := Summarize._build_system_prompt lang mode;
            Summarize.user :=
              Summarize._build_user_prompt no_abstract lang mode |} ].
Proof.
  intros H.
  assert (Ha : abstract p = no_abstract).
  { destruct H as [[it H]|(it & H & Hnone)].
    - revert H. unfold cr_normalize.
      destruct (cr_authors_text it); simpl; [|done].
      destruct (cr_year it); simpl; [|done]. by intros [= <-].
    - revert H. unfold s2_normalize.
      destruct (s2_authors_text it); simpl; [|done].
      intros [= <-]. simpl. unfold or_else. by rewrite Hnone. }
  rewrite Ha. apply invoke_asks. by vm_compute.
Qed.

End Summarizer.

(** * The further properties on sample answers *)

Module MoreExamples.
Import Sample MoreSample.

Lemma primary_records_pass_filters_witness :
  let p := record "A" (Some 2020) (Some 30) "Nature" None in
  (_search_semantic_scholar None (s2_always three_items)
     "q" (Some 2015) (Some 2022) (Some 10) 5 start).1 = Ok [p]
  /\ 2015 <= 2020 /\ 2020 <= 2022 /\ 10 <= default 0 (citations p).
Proof.
  intros p.
  destruct (primary_records_pass_filters None (s2_always three_items)
              "q" (Some 2015) (Some 2022) (Some 10) 5 start [p]
              (_search_semantic_scholar None (s2_always three_items)
                 "q" (Some 2015) (Some 2022) (Some 10) 5 start).2 p)
    as (Hf & Ht & Hm).
  - vm_compute; reflexivity.
  - by left.
  - split; [vm_compute; reflexivity|]. split; [|split].
    + apply (Hf 2015 2020); [reflexivity|lia|reflexivity|lia].
    + apply (Ht 2022 2020); [reflexivity|lia|reflexivity|lia].
    + apply (Hm 10). reflexivity.
Defined.

Lemma primary_output_in_provider_order_witness :
  Forall2 (fun it p => s2_normalize it = Ok p)
    (List.filter (s2_passes (Some 2015) (Some 2022) (Some 10)) three_items)
    [record "A" (Some 2020) (Some 30) "Nature" None].
Proof.
  eapply (primary_output_in_provider_order None (s2_always three_items)
            "q" (Some 2015) (Some 2022) (Some 10) 5 start three_items).
  - vm_compute; reflexivity.
  - vm_compute; reflexivity.
Defined.

Lemma s2_record_invariants_witness :
  let p := record "T" (Some 2020) (Some 3) "Nature"
             (Some "https://doi.org/10.1/x") in
  title p <> EmptyString
  /\ authors p <> EmptyString
  /\ abstract p <> EmptyString
  /\ source p = "Semantic Scholar"
  /\ year p = Some 2020
  /\ (doi p = None
      \/ exists d,
           d <> EmptyString /\ doi p = Some ("https://doi.org/" +:+ d)).
Proof.
  intros p.
  apply (s2_record_invariants
           (item "T" (Some 2020) (Val 3) (Some "Nature") (Some "10.1/x")) p).
  vm_compute; reflexivity.
Defined.

Lemma crossref_record_invariants_witness :
  let p := cr_record "T" (Some "https://doi.org/10.1/x") in
  cr_normalize (cr_item_of "T" (Some "10.1/x")) = Ok p
  /\ citations p = None
  /\ pdf p = None
  /\ venue_all p = venue p
  /\ url p = doi p.
Proof.
  intros p.
  assert (H : cr_normalize (cr_item_of "T" (Some "10.1/x")) = Ok p)
    by (vm_compute; reflexivity).
  destruct (crossref_record_invariants _ p H)
    as (Hc & Hpdf & Hv & _ & _ & _ & _ & Hurl & _).
  split; [exact H|]. split; [exact Hc|]. split; [exact Hpdf|].
  split; [exact Hv|].
  apply (Hurl "https://doi.org/10.1/x"). reflexivity.
Defined.

Lemma venue_text_covers_both_names_witness :
  exists p,
    s2_normalize
      (item_at "T" (Some "NeurIPS")
         (Some "Neural Information Processing Systems")) = Ok p
    /\ Text.contains "neurips" (Text.lower (venue_text p)) = true
    /\ Text.contains "neural information" (Text.lower (venue_text p))
       = true.
Proof.
  destruct (s2_normalize
              (item_at "T" (Some "NeurIPS")
                 (Some "Neural Information Processing Systems")))
    as [p|e] eqn:E; [|vm_compute in E; discriminate].
  exists p. split; [reflexivity|].
  destruct (venue_text_covers_both_names _ p "neurips" E) as [H1 _].
  destruct (venue_text_covers_both_names _ p "neural information" E)
    as [_ H2].
  split.
  - apply (H1 "NeurIPS"); reflexivity.
  - apply (H2 {| pv_name := Some "Neural Information Processing Systems" |}
             "Neural Information Processing Systems"); reflexivity.
Defined.

Lemma crossref_empty_date_part_raises_witness :
  let cr :=
    cr_always
      (Json (cr_items_body
               ([cr_item_of "A" None] ++ cr_undated "B" :: []))) in
  let st :=
    (primary None (s2_always []) "q" None None None None 5 start).2 in
  (_search_crossref cr "q" None None 5 st).1 = Raise IndexError
  /\ (invoke None (s2_always []) cr "q" None None None None 5 start).1
     = Raise IndexError.
Proof.
  intros cr st.
  edestruct (crossref_empty_date_part_raises None (s2_always []) cr
               "q" None None 5 st [cr_item_of "A" None] []
               (cr_undated "B")) as [H1 H2].
  - vm_compute; reflexivity.
  - vm_compute; reflexivity.
  - vm_compute; reflexivity.
  - vm_compute; reflexivity.
  - vm_compute; reflexivity.
  - split; [exact H1|].
    apply (H2 None None start). vm_compute; reflexivity.
Defined.

Lemma alias_merge_keeps_keys_unique_witness :
  let A := record "A" (Some 2020) (Some 3) "Nature" None in
  let B := record "B" (Some 2021) (Some 3) "ICML" None in
  let C := record "C" (Some 2022) (Some 3) "Nature Communications" None in
  (alias_loop None
     (s2_base_and_alias [] "Nature"
        [item "A" (Some 2020) (Val 3) (Some "Nature") None;
         item "C" (Some 2022) (Val 3) (Some "Nature Communications") None])
     "q" None None None 5 ["Nature"] [A; B] (keys_of [A; B]) start).1
  = Ok ([A; B; C], keys_of [A; B; C])
  /\ NoDup (_dedupe_key <$> [A; B; C]).
Proof.
  intros A B C.
  edestruct (alias_merge_keeps_keys_unique None
               (s2_base_and_alias [] "Nature"
                  [item "A" (Some 2020) (Val 3) (Some "Nature") None;
                   item "C" (Some 2022) (Val 3)
                     (Some "Nature Communications") None])
               "q" None None None 5 ["Nature"] [A; B] start [A; B; C])
    as [H1 H2].
  - vm_compute; reflexivity.
  - split.
    + vm_compute; reflexivity.
    + apply H2. apply (bool_decide_unpack _). vm_compute. exact I.
Defined.

Lemma alias_merge_appends_in_order_witness :
  let A := record "A" (Some 2020) (Some 3) "Nature" None in
  let B := record "B" (Some 2021) (Some 3) "ICML" None in
  let C := record "C" (Some 2022) (Some 3) "Nature Communications" None in
  let s2 :=
    s2_base_and_alias [] "Nature"
      [item "A" (Some 2020) (Val 3) (Some "Nature") None;
       item "C" (Some 2022) (Val 3) (Some "Nature Communications") None] in
  exists mores new,
    (alias_responses None s2 "q" None None None 5 ["Nature"] start).1
    = Ok mores
    /\ [A; B; C] = [A; B] ++ new
    /\ new `sublist_of` concat mores.
Proof.
  intros A B C s2.
  edestruct (alias_merge_appends_in_order None s2
               "q" None None None 5 ["Nature"] [A; B] (keys_of [A; B])
               start [A; B; C])
    as (mores & new & H1 & H2 & H3).
  - vm_compute; reflexivity.
  - exists mores, new. by rewrite H1.
Defined.

Lemma invoke_request_log_witness :
  sent (invoke None s2_down cr_none
          "q" None None None (Some "Nature") 5 start).2
  = [GetS2 (s2_request_of None "q" 5);
     GetS2 (s2_request_of None "q Nature" 5);
     GetCrossref (cr_request_of "q" None None 5)].
Proof.
  edestruct (invoke_request_log None s2_down cr_none
               "q" None None None (Some "Nature") 5 start [])
    as (working & Hsent & st1 & Hp).
  - vm_compute; reflexivity.
  - vm_compute in Hp. injection Hp as <- _. vm_compute; reflexivity.
Defined.

Lemma invoke_reads_truthy_year_bounds_witness :
  invoke None (s2_always three_items) cr_none
    "q" (Some 0) None None None 5 start
  = invoke None (s2_always three_items) cr_none
      "q" None (Some 0) None None 5 start.
Proof.
  apply (invoke_reads_truthy_year_bounds None (s2_always three_items)
           cr_none (Some 0) None None (Some 0));
    reflexivity.
Defined.

Lemma alias_candidates_usable_witness :
  "nips" ∈ App._alias_candidates " NeurIPS "
  /\ "nips" <> EmptyString
  /\ Text.lower "nips" = "nips".
Proof.
  assert (H : "nips" ∈ App._alias_candidates " NeurIPS ")
    by (apply (bool_decide_unpack _); vm_compute; exact I).
  split; [exact H|].
  exact (alias_candidates_usable " NeurIPS " "nips" H).
Defined.

Lemma query_aliases_are_filter_candidates_witness :
  Text.lower (Text.strip "NIPS") ∈ App._alias_candidates "NeurIPS".
Proof.
  apply (query_aliases_are_filter_candidates "NeurIPS" "NIPS").
  - reflexivity.
  - apply (bool_decide_unpack _). vm_compute. exact I.
Defined.

Lemma alias_filter_after_venue_filter_witness :
  let A := record "A" (Some 2020) (Some 3) "Nature" None in
  let B := record "B" (Some 2021) (Some 3) "ICML" None in
  App.alias_filter "Nature" (venue_filter "Nature" [A; B])
  = venue_filter "Nature" [A; B].
Proof.
  intros A B.
  apply (alias_filter_after_venue_filter "Nature" [A; B]).
  - reflexivity.
  - vm_compute. discriminate.
Defined.

Lemma venue_less_retry_finds_nothing_witness :
  exists shown,
    (App.search None s2_down cr_none "q" 2015 2022 0 "Nature" start).1
    = Ok (shown, true)
    /\ shown = [].
Proof.
  exists []. split; [vm_compute; reflexivity|].
  eapply (venue_less_retry_finds_nothing None s2_down cr_none
            "q" 2015 2022 0 "Nature" start []).
  - intros req w w'. reflexivity.
  - intros req w w'. reflexivity.
  - vm_compute; reflexivity.
Defined.

Lemma search_shows_at_most_eight_witness :
  exists shown,
    (App.search None
       (s2_always
          (replicate 10 (item "A" (Some 2020) (Val 3) (Some "Nature") None)))
       cr_none "q" 0 0 0 "Nature" start).1
    = Ok (shown, false)
    /\ length shown = 8%nat
    /\ (length shown <= 8)%nat.
Proof.
  exists (replicate 8 (record "A" (Some 2020) (Some 3) "Nature" None)).
  split; [vm_compute; reflexivity|]. split; [reflexivity|].
  eapply (search_shows_at_most_eight None
            (s2_always
               (replicate 10
                  (item "A" (Some 2020) (Val 3) (Some "Nature") None)))
            cr_none "q" 0 0 0 "Nature" start _ false).
  vm_compute; reflexivity.
Defined.

Lemma same_key_rejected_next_witness :
  Library.add_to_library (entry "  T  " (Some 2020))
    (Library.add_to_library (entry "T" (Some 2020)) Library.NoFile).2
  = ((false, Library.already_saved),
     Library.File [entry "T" (Some 2020)]).
Proof.
  apply (same_key_rejected_next (entry "T" (Some 2020))
           (entry "  T  " (Some 2020)) Library.NoFile).
  reflexivity.
Defined.

Lemma library_keys_stay_distinct_witness :
  NoDup
    (library_keys
       (add_all [entry "T" (Some 2020); entry "  T  " (Some 2020);
                 entry "T" (Some 2021)]
          Library.NoDir)).
Proof.
  apply (library_keys_stay_distinct _ Library.NoDir). apply NoDup_nil_2.
Defined.

Lemma placeholder_abstract_reaches_the_model_witness :
  Summarize.asked
    (Summarize.invoke "gpt-4o-mini" (chat_always "ok")
       (abstract (cr_record "T" None)) "en" "summary"
       {| Summarize.chat_world := tt; Summarize.asked := [] |}).2
  = [ {| Summarize.model := "gpt-4o-mini";
         Summarize.system :=
           Summarize._build_system_prompt "en" "summary";
         Summarize.user :=
           Summarize._build_user_prompt no_abstract "en" "summary" |} ].
Proof.
  apply (placeholder_abstract_reaches_the_model "gpt-4o-mini"
           (chat_always "ok") (cr_record "T" None) "en" "summary"
           {| Summarize.chat_world := tt; Summarize.asked := [] |}).
  left. exists (cr_item_of "T" None). vm_compute; reflexivity.
Defined.

End MoreExamples.
